(** * normalize_table: splitting one-to-many and many-to-many columns

    A shallow embedding of [src/normalize_table.py].  The two functions of
    that module, [split_with_foreign_key] and [split_many_to_many], are
    sequences of pandas calls on a [DataFrame]; the embedding therefore has
    three layers:

    - [Py]: the Python values a cell can hold, the exceptions, and the
      [str] methods the source calls ([split], [strip], [str()]);
    - [Pandas]: [Series] and [DataFrame] with the pandas operations the
      source uses, each written after the behaviour of the pandas 2.x line
      ([merge] keeps the order of the left keys, matches null keys with
      null keys, and refuses a suffix that produces a label which is
      already there; [drop_duplicates], [nunique] and [merge] hash the
      cells and so raise on lists and sets);
    - the two functions themselves, statement by statement, over a store
      of Python objects: the caller's table is passed by reference and
      [df[key] = ...] writes into it.

    Cells are nulls, strings, integers and lists, tuples or sets of
    strings.  A column of type [object] is meant to hold text, nulls or
    containers, as a column read from a delimited file does, and integers
    sit in [int64] columns; nothing below depends on it, but the type that
    [apply] infers and what [merge] says of mixed keys are only modelled
    for such columns. *)

From Stdlib Require Import ZArith Ascii String List Bool Lia DecimalString.
From stdpp Require Import base decidable list strings gmap.

Local Open Scope string_scope.
Local Open Scope list_scope.
Local Open Scope Z_scope.
Local Open Scope nat_scope.

(* ===================================================================== *)
(** * Python values and exceptions                                        *)
(* ===================================================================== *)

Module Py.

(** What a cell of a table can hold.  [VNull] stands for every value that
    [isnull()] accepts ([None], [NaN], [pd.NA]).  The three containers are
    the ones the source tests for with [type(x) in [list, set, tuple]];
    their elements are strings, the multi-valued entries of the source's
    docstring.  A set carries its elements in iteration order. *)
Inductive value :=
| VNull
| VStr (s : string)
| VInt (z : Z)
| VList (l : list string)
| VTuple (l : list string)
| VSet (l : list string).

#[global] Instance value_eq_dec : EqDecision value.
Proof. solve_decision. Defined.

Inductive exn :=
| TypeError (msg : string)
| ValueError (msg : string)
| KeyError (msg : string)
| MergeError (msg : string).

#[global] Instance exn_eq_dec : EqDecision exn.
Proof. solve_decision. Defined.

(** A computation that returns or raises. *)
Inductive res (A : Type) :=
| Ok (a : A)
| Raise (e : exn).
Arguments Ok {A} a.
Arguments Raise {A} e.

Definition res_bind {A B} (m : res A) (k : A -> res B) : res B :=
  match m with
  | Ok a => k a
  | Raise e => Raise e
  end.

(** [isnull], [isinstance(x, str)], [type(x) in [list, set, tuple]] and
    hashability ([list] and [set] objects have no hash). *)
Definition isnull (v : value) : bool :=
  match v with VNull => true | _ => false end.

Definition is_str (v : value) : bool :=
  match v with VStr _ => true | _ => false end.

Definition is_int (v : value) : bool :=
  match v with VInt _ => true | _ => false end.

Definition is_list_set_tuple (v : value) : bool :=
  match v with VList _ | VTuple _ | VSet _ => true | _ => false end.

Definition hashable (v : value) : bool :=
  match v with VList _ | VSet _ => false | _ => true end.

Definition type_name (v : value) : string :=
  match v with
  | VNull => "NoneType" | VStr _ => "str" | VInt _ => "int"
  | VList _ => "list" | VTuple _ => "tuple" | VSet _ => "set"
  end.

Definition unhashable (v : value) : exn :=
  TypeError ("unhashable type: '" +:+ type_name v +:+ "'").

(** ** [str.strip()] and [str.split(sep)] *)

(** Whitespace in the ASCII range, as [str.isspace] has it: TAB..CR,
    FS..US and the space. *)
Definition is_space (c : ascii) : bool :=
  let n := nat_of_ascii c in
  ((9 <=? n) && (n <=? 13)) || ((28 <=? n) && (n <=? 32)).

Fixpoint lstrip (s : string) : string :=
  match s with
  | String c s' => if is_space c then lstrip s' else s
  | EmptyString => EmptyString
  end.

(** [rstrip] keeps a character when it is not a space or when something
    that is kept follows it. *)
Fixpoint rstrip (s : string) : string :=
  match s with
  | String c s' =>
      match rstrip s' with
      | EmptyString => if is_space c then EmptyString else String c EmptyString
      | r => String c r
      end
  | EmptyString => EmptyString
  end.

Definition strip (s : string) : string := rstrip (lstrip s).

(** [split_from sep skip cur s]: scan [s] from the left; [cur] is the piece
    read so far, [skip] the number of characters of a separator that was
    just matched and is still to be passed over. *)
Fixpoint split_from (sep : string) (skip : nat) (cur : string) (s : string)
  : list string :=
  match s with
  | EmptyString => [cur]
  | String c s' =>
      match skip with
      | S k => split_from sep k cur s'
      | O =>
          if String.prefix sep s
          then cur :: split_from sep (String.length sep - 1) EmptyString s'
          else split_from sep 0 (cur +:+ String c EmptyString) s'
      end
  end.

(** [x.split(sep)] for a separator that is not [None]: an empty separator
    raises. *)
Definition split (sep : string) (s : string) : res (list string) :=
  match sep with
  | EmptyString => Raise (ValueError "empty separator")
  | _ => Ok (split_from sep 0 EmptyString s)
  end.

(** ** [str(x)], which [astype('string')] applies to non-null cells *)

Definition squote : ascii := ascii_of_nat 39.
Definition dquote : ascii := ascii_of_nat 34.
Definition backslash : ascii := ascii_of_nat 92.

Definition has_char (c : ascii) (s : string) : bool :=
  existsb (Ascii.eqb c) (list_ascii_of_string s).

Definition hex_digit (n : nat) : ascii :=
  if n <? 10 then ascii_of_nat (48 + n) else ascii_of_nat (87 + n).

(** One character of [repr(s)] with quote [q]; bytes from 128 up are left
    as they are (printable text in UTF-8). *)
Definition repr_char (q c : ascii) : string :=
  let n := nat_of_ascii c in
  if Ascii.eqb c q || Ascii.eqb c backslash
  then String backslash (String c EmptyString)
  else if n =? 9 then "\t"
  else if n =? 10 then "\n"
  else if n =? 13 then "\r"
  else if (n <? 32) || (n =? 127)
  then "\x" +:+ String (hex_digit (n / 16)) (String (hex_digit (n mod 16)) EmptyString)
  else String c EmptyString.

Definition repr_str (s : string) : string :=
  let q := if has_char squote s && negb (has_char dquote s)
           then dquote else squote in
  String q (String.concat EmptyString (map (repr_char q) (list_ascii_of_string s)))
  +:+ String q EmptyString.

Definition repr_items (l : list string) : string :=
  String.concat ", " (map repr_str l).

Definition str_of_int (z : Z) : string :=
  NilZero.string_of_int (Z.to_int z).

Definition str (v : value) : string :=
  match v with
  | VNull => "None"
  | VStr s => s
  | VInt z => str_of_int z
  | VList l => "[" +:+ repr_items l +:+ "]"
  | VTuple [x] => "(" +:+ repr_str x +:+ ",)"
  | VTuple l => "(" +:+ repr_items l +:+ ")"
  | VSet [] => "set()"
  | VSet l => "{" +:+ repr_items l +:+ "}"
  end.

End Py.

Import Py.

Declare Scope res_scope.
Delimit Scope res_scope with res.
Bind Scope res_scope with res.
Notation "x <- m ;; k" := (res_bind m (fun x => k))
  (at level 100, m at next level, right associativity,
   format "'[v' x  <-  m  ;;  '/' k ']'") : res_scope.
Local Open Scope res_scope.

(* ===================================================================== *)
(** * The pandas operations the source calls                              *)
(* ===================================================================== *)

Module Pandas.

(** The column types that occur: numpy [object], the extension type
    ['string'] that [astype] produces, and [int64]. *)
Inductive dtype := object | string_dtype | int64.

#[global] Instance dtype_eq_dec : EqDecision dtype.
Proof. solve_decision. Defined.

(** A column: its label, its type and its cells.  The row labels of a
    table play no part in the source (every use is positional, merges are
    on columns, and the index is reset after each reshaping step), so a
    table keeps only the length of its index, which is [len(df)]. *)
Record Series := mkSeries {
  name : string;
  dtype_of : dtype;
  values : list value
}.

Record DataFrame := mkFrame {
  nrows : nat;
  columns : list Series
}.

#[global] Instance Series_eq_dec : EqDecision Series.
Proof. solve_decision. Defined.

#[global] Instance DataFrame_eq_dec : EqDecision DataFrame.
Proof. solve_decision. Defined.

Definition labels (df : DataFrame) : list string := map name (columns df).

(** [df.empty]: no rows or no columns. *)
Definition empty (df : DataFrame) : bool :=
  (nrows df =? 0) || (length (columns df) =? 0).

(** [key in df.columns] *)
Definition has_column (key : string) (df : DataFrame) : bool :=
  bool_decide (key ∈ labels df).

(** [df[key]]: the column with that label (the first one, should the
    label occur twice; the source uses [df[key]] as a column). *)
Definition getitem (df : DataFrame) (key : string) : res Series :=
  match List.find (fun c => bool_decide (name c = key)) (columns df) with
  | Some c => Ok c
  | None => Raise (KeyError key)
  end.

(** [df[[k1, ..., kn]]]: for each label in turn the columns that carry it;
    a label that is absent raises. *)
Fixpoint select (cols : list Series) (keys : list string) : res (list Series) :=
  match keys with
  | [] => Ok []
  | k :: ks =>
      match List.filter (fun c => bool_decide (name c = k)) cols with
      | [] => Raise (KeyError k)
      | found => rest <- select cols ks ;; Ok (found ++ rest)
      end
  end.

Definition getitem_list (df : DataFrame) (keys : list string) : res DataFrame :=
  cols <- select (columns df) keys ;;
  Ok (mkFrame (nrows df) cols).

(** [s.isnull().all()] *)
Definition isnull_all (s : Series) : bool := forallb isnull (values s).

(** Hashing the cells of a column in order, as the hash tables behind
    [unique], [duplicated] and [merge] do: the first cell without a hash
    raises [TypeError]. *)
Fixpoint hash_all (l : list value) : res unit :=
  match l with
  | [] => Ok tt
  | v :: l' => if hashable v then hash_all l' else Raise (unhashable v)
  end.

(** The distinct cells of a list, first occurrences in order. *)
Fixpoint distinct (seen : list value) (l : list value) : list value :=
  match l with
  | [] => []
  | v :: l' =>
      if bool_decide (v ∈ seen) then distinct seen l'
      else v :: distinct (v :: seen) l'
  end.

(** [s.nunique()]: the number of distinct cells that are not null. *)
Definition nunique (s : Series) : res nat :=
  _ <- hash_all (values s) ;;
  Ok (length (distinct [] (List.filter (fun v => negb (isnull v)) (values s)))).

(** [s.fillna(v)] *)
Definition fillna (v : value) (s : Series) : Series :=
  mkSeries (name s) (dtype_of s)
           (map (fun x => if isnull x then v else x) (values s)).

(** [s.astype('string')]: null stays null, any other cell becomes its
    [str()]. *)
Definition astype_string (s : Series) : Series :=
  mkSeries (name s) string_dtype
           (map (fun x => if isnull x then VNull else VStr (str x)) (values s)).

(** [df.astype({key: 'string'})] *)
Definition astype (df : DataFrame) (key : string) : res DataFrame :=
  if has_column key df
  then Ok (mkFrame (nrows df)
             (map (fun c => if bool_decide (name c = key)
                            then astype_string c else c) (columns df)))
  else Raise (KeyError "Only a column name can be used for the key in a dtype mappings argument.").

(** [df[key] = s]: an existing column is overwritten in its place, a new
    label is appended as the last column. *)
Definition setitem (df : DataFrame) (key : string) (s : Series) : DataFrame :=
  let col := mkSeries key (dtype_of s) (values s) in
  if has_column key df
  then mkFrame (nrows df)
         (map (fun c => if bool_decide (name c = key) then col else c)
              (columns df))
  else mkFrame (nrows df) (columns df ++ [col]).

(** [df.index + 1] after [reset_index(drop=True)]: 1, 2, ..., [len(df)]. *)
Definition index_plus_1 (df : DataFrame) : Series :=
  mkSeries EmptyString int64
           (map (fun i => VInt (Z.of_nat i)) (seq 1 (nrows df))).

(** Positional selection of rows, [take]: the rows at the positions
    [idx], in that order. *)
Definition take (idx : list nat) (s : Series) : Series :=
  mkSeries (name s) (dtype_of s) (map (fun i => nth i (values s) VNull) idx).

Definition take_rows (idx : list nat) (df : DataFrame) : DataFrame :=
  mkFrame (length idx) (map (take idx) (columns df)).

(** Row [i] of a table, and all its rows. *)
Definition row (df : DataFrame) (i : nat) : list value :=
  map (fun c => nth i (values c) VNull) (columns df).

Definition rows (df : DataFrame) : list (list value) :=
  map (row df) (seq 0 (nrows df)).

(** Positions of the first occurrence of each distinct row, counting from
    [i]. *)
Fixpoint first_occurrences (seen : list (list value)) (i : nat)
         (l : list (list value)) : list nat :=
  match l with
  | [] => []
  | r :: l' =>
      if bool_decide (r ∈ seen) then first_occurrences seen (S i) l'
      else i :: first_occurrences (r :: seen) (S i) l'
  end.

(** [df.drop_duplicates().reset_index(drop=True)]: an empty table is
    returned as it is; otherwise every column is hashed, and the first
    occurrence of each distinct row is kept (nulls compare equal). *)
Definition drop_duplicates (df : DataFrame) : res DataFrame :=
  if empty df then Ok df
  else
    _ <- hash_all (concat (map values (columns df))) ;;
    Ok (take_rows (first_occurrences [] 0 (rows df)) df).

(** [df.rename(columns=mapper)]: labels absent from the mapper stay. *)
Definition rename_label (mapper : list (string * string)) (x : string) : string :=
  match List.find (fun kv => bool_decide (fst kv = x)) mapper with
  | Some kv => snd kv
  | None => x
  end.

Definition relabel (new : string) (s : Series) : Series :=
  mkSeries new (dtype_of s) (values s).

Definition rename (df : DataFrame) (mapper : list (string * string)) : DataFrame :=
  mkFrame (nrows df)
          (map (fun c => relabel (rename_label mapper (name c)) c) (columns df)).

(** [df.drop(columns=[key])] *)
Definition drop (df : DataFrame) (key : string) : res DataFrame :=
  if has_column key df
  then Ok (mkFrame (nrows df)
             (List.filter (fun c => negb (bool_decide (name c = key))) (columns df)))
  else Raise (KeyError key).

(** [s.apply(f)]: [f] on every cell in order; the first call that raises
    ends it.  The result type is inferred: all integers give [int64],
    anything else [object]. *)
Fixpoint map_res {A B} (f : A -> res B) (l : list A) : res (list B) :=
  match l with
  | [] => Ok []
  | x :: l' => y <- f x ;; ys <- map_res f l' ;; Ok (y :: ys)
  end.

Definition apply (s : Series) (f : value -> res value) : res Series :=
  vs <- map_res f (values s) ;;
  Ok (mkSeries (name s)
        (if forallb is_int vs && negb (length vs =? 0) then int64 else object)
        vs).

(** ** [df.explode(column).reset_index(drop=True)] *)

(** A non-empty list, tuple or set gives one row per element, an empty
    one a single null; any other cell (a string too) is kept. *)
Definition explode_cell (v : value) : list value :=
  match v with
  | VList l | VTuple l | VSet l =>
      match l with [] => [VNull] | _ => map VStr l end
  | _ => [v]
  end.

(** The source position of every row of the exploded table. *)
Fixpoint explode_positions (i : nat) (l : list value) : list nat :=
  match l with
  | [] => []
  | v :: l' => repeat i (length (explode_cell v)) ++ explode_positions (S i) l'
  end.

(** Labels must be unique; a column that is not of type [object] cannot
    hold containers and the table is returned as it is. *)
Definition explode (df : DataFrame) (column : string) : res DataFrame :=
  if negb (bool_decide (NoDup (labels df)))
  then Raise (ValueError "DataFrame columns must be unique.")
  else
    c <- getitem df column ;;
    match dtype_of c with
    | object =>
        let idx := explode_positions 0 (values c) in
        let exploded := mkSeries (name c) object
                          (concat (map explode_cell (values c))) in
        Ok (mkFrame (length idx)
              (map (fun c' => if bool_decide (name c' = column)
                              then exploded else take idx c') (columns df)))
    | _ => Ok df
    end.

(** ** [left.merge(right, on=key, suffixes=(lsuffix, rsuffix))]

    An inner join on one column that has the same label on both sides. *)

(** What [lib.infer_dtype(..., skipna=False)] says of a key column. *)
Inductive inferred := Iinteger | Imixed_integer | Istring | Imixed | Iempty.

Definition infer_dtype (s : Series) : inferred :=
  match dtype_of s with
  | int64 => Iinteger
  | string_dtype => Istring
  | object =>
      match values s with
      | [] => Iempty
      | vs => if forallb is_int vs then Iinteger
              else if forallb is_str vs then Istring
              else if existsb is_int vs then Imixed_integer
              else Imixed
      end
  end.

Definition dtype_name (d : dtype) : string :=
  match d with object => "object" | string_dtype => "string" | int64 => "int64" end.

(** [_maybe_coerce_merge_keys]: nothing is checked when exactly one side
    has no rows or when the types agree; [object] and ['string'] keys
    merge; a numeric key against an [object] or ['string'] key is refused
    when the latter is inferred as text. *)
Definition maybe_coerce_merge_keys (lk rk : Series) : res unit :=
  let nl := length (values lk) in
  let nr := length (values rk) in
  if (negb (nl =? 0) && (nr =? 0)) || ((nl =? 0) && negb (nr =? 0)) then Ok tt
  else if bool_decide (dtype_of lk = dtype_of rk) then Ok tt
  else
    let refuse := Raise (ValueError
      ("You are trying to merge on " +:+ dtype_name (dtype_of lk) +:+ " and "
       +:+ dtype_name (dtype_of rk) +:+ " columns. If you wish to proceed you should use pd.concat")) in
    let text_like (i : inferred) :=
      match i with Istring | Imixed => true | _ => false end in
    match dtype_of lk, dtype_of rk with
    | int64, _ => if text_like (infer_dtype rk) then refuse else Ok tt
    | _, int64 => if text_like (infer_dtype lk) then refuse else Ok tt
    | _, _ => Ok tt
    end.

(** [Index.duplicated()]: true at every occurrence but the first. *)
Fixpoint duplicated (seen : list string) (l : list string) : list bool :=
  match l with
  | [] => []
  | x :: l' => bool_decide (x ∈ seen) :: duplicated (x :: seen) l'
  end.

(** [new[new.duplicated() & ~old.duplicated()]]: the labels that a suffix
    turned into duplicates. *)
Definition duplicated_by_suffix (new old : list string) : list string :=
  map fst
    (List.filter (fun x => fst (snd x) && negb (snd (snd x)))
       (combine new (combine (duplicated [] new) (duplicated [] old)))).

(** The [renamer] of [_items_overlap_with_suffix]: a label that both
    sides have gets the suffix. *)
Definition renamer (to_rename : list string) (suffix : string) (x : string)
  : string :=
  if bool_decide (x ∈ to_rename) then x +:+ suffix else x.

(** [others.difference(to_rename)] *)
Definition difference (others to_rename : list string) : list string :=
  List.filter (fun y => negb (bool_decide (y ∈ to_rename))) others.

(** [_items_overlap_with_suffix]: the labels both sides share get the
    side's suffix; a suffix that produces a label already present, on
    either side, raises. *)
Definition items_overlap_with_suffix (left right : list string)
           (lsuffix rsuffix : string) : res (list string * list string) :=
  let to_rename := List.filter (fun x => bool_decide (x ∈ right)) left in
  match to_rename with
  | [] => Ok (left, right)
  | _ =>
      if bool_decide (lsuffix = EmptyString) && bool_decide (rsuffix = EmptyString)
      then Raise (ValueError "columns overlap but no suffix specified")
      else
        let llabels := map (renamer to_rename lsuffix) left in
        let rlabels := map (renamer to_rename rsuffix) right in
        let dups :=
          duplicated_by_suffix llabels left
          ++ duplicated_by_suffix rlabels right
          ++ List.filter (fun x => bool_decide (x ∈ difference right to_rename)) llabels
          ++ List.filter (fun x => bool_decide (x ∈ difference left to_rename)) rlabels in
        match dups with
        | [] => Ok (llabels, rlabels)
        | _ => Raise (MergeError "Passing 'suffixes' which cause duplicate columns is not allowed.")
        end
  end.

(** The positions in [rk], counted from [j], of the cells equal to [a]
    (a null key matches a null key). *)
Fixpoint positions (a : value) (j : nat) (rk : list value) : list nat :=
  match rk with
  | [] => []
  | b :: rk' =>
      if bool_decide (a = b) then j :: positions a (S j) rk'
      else positions a (S j) rk'
  end.

(** The pairs (left position, right position) of an inner join, in the
    order of the left keys and, for one left row, of the right rows. *)
Fixpoint inner_join (i : nat) (lk rk : list value) : list (nat * nat) :=
  match lk with
  | [] => []
  | a :: lk' => map (pair i) (positions a 0 rk) ++ inner_join (S i) lk' rk
  end.

Definition merge (left right : DataFrame) (on : string)
           (lsuffix rsuffix : string) : res DataFrame :=
  lk <- getitem left on ;;
  rk <- getitem right on ;;
  (* the right key has the label of the left one and is dropped *)
  let right_cols :=
    List.filter (fun c => negb (bool_decide (name c = on))) (columns right) in
  _ <- maybe_coerce_merge_keys lk rk ;;
  _ <- hash_all (values lk) ;;
  _ <- hash_all (values rk) ;;
  new_labels <- items_overlap_with_suffix (labels left) (map name right_cols)
                  lsuffix rsuffix ;;
  let pairs := inner_join 0 (values lk) (values rk) in
  Ok (mkFrame (length pairs)
        (zip_with relabel (fst new_labels)
           (map (take (map fst pairs)) (columns left))
         ++ zip_with relabel (snd new_labels)
              (map (take (map snd pairs)) right_cols))).

End Pandas.

Import Pandas.

(* ===================================================================== *)
(** * The store: tables are passed by reference                           *)
(* ===================================================================== *)

(** A Python name denotes an object of the store.  [PyOther] is any object
    that is not a [DataFrame]. *)
Inductive pyobj :=
| PyDataFrame (df : DataFrame)
| PyOther.

Abbreviation loc := nat (only parsing).
Abbreviation store := (gmap nat pyobj).

(** A statement sequence: it reads and updates the store, and returns or
    raises.  What it did to the store before raising stays done. *)
Definition M (A : Type) : Type := store -> store * res A.

Definition ret {A} (a : A) : M A := fun h => (h, Ok a).

Definition raise {A} (e : exn) : M A := fun h => (h, Raise e).

Definition bind {A B} (m : M A) (k : A -> M B) : M B :=
  fun h =>
    match m h with
    | (h', Ok a) => k a h'
    | (h', Raise e) => (h', Raise e)
    end.

(** A pandas call that builds new objects only. *)
Definition lift {A} (r : res A) : M A := fun h => (h, r).

Definition raise_if (b : bool) (e : exn) : M unit :=
  if b then raise e else ret tt.

(** Reading the table a name denotes; this is where
    [isinstance(df, pd.DataFrame)] is decided. *)
Definition load_frame (df : loc) : M DataFrame :=
  fun h =>
    match h !! df with
    | Some (PyDataFrame d) => (h, Ok d)
    | _ => (h, Raise (TypeError "Input must be a pandas DataFrame."))
    end.

(** An update in place of the object a name denotes. *)
Definition store_frame (df : loc) (d : DataFrame) : M unit :=
  fun h => (<[df := PyDataFrame d]> h, Ok tt).

Declare Scope M_scope.
Delimit Scope M_scope with M.
Notation "x <- m ;; k" := (bind m (fun x => k))
  (at level 100, m at next level, right associativity,
   format "'[v' x  <-  m  ;;  '/' k ']'") : M_scope.

(* ===================================================================== *)
(** * normalize_table.py                                                  *)
(* ===================================================================== *)

Definition Unknown : value := VStr "Unknown".

(** The messages of the source's f-strings. *)
Definition column_msg (col rest : string) : string :=
  "Column '" +:+ col +:+ "' " +:+ rest.

(** The error of line 40, raised for a key column of containers. *)
Definition multivalued_error (key_col : string) : exn :=
  ValueError (column_msg key_col
    "contains multivalued entries; many-to-many relationship is more appropriate.").

Definition split_with_foreign_key (df : loc) (key_col : string)
  : M (DataFrame * DataFrame) :=
  (
  (* Input validation *)
  d <- load_frame df ;;
  _ <- raise_if (empty d) (ValueError "DataFrame is empty.") ;;
  _ <- raise_if (nrows d <? 2)
         (ValueError "DataFrame must have at least two rows to split.") ;;
  _ <- raise_if (negb (has_column key_col d))
         (ValueError (column_msg key_col "not found in DataFrame.")) ;;
  col <- lift (getitem d key_col) ;;
  _ <- raise_if (negb (bool_decide (dtype_of col = object)))
         (ValueError (column_msg key_col "must be of string type for this operation.")) ;;
  _ <- raise_if (isnull_all col)
         (ValueError (column_msg key_col "contains only null values.")) ;;
  n <- lift (nunique col) ;;
  _ <- raise_if (n =? nrows d)
         (ValueError (column_msg key_col
            "has all unique values; no one-to-many relationship to split.")) ;;
  n1 <- lift (nunique col) ;;
  _ <- raise_if (n1 =? 1)
         (ValueError (column_msg key_col
            "has only one unique value; no one-to-many relationship to split.")) ;;
  _ <- raise_if (is_list_set_tuple (nth 0 (values col) VNull))
         (multivalued_error key_col) ;;
  (* Create parent table with unique values *)
  parent <- lift (p <- getitem_list d [key_col] ;; drop_duplicates p)%res ;;
  parent <- lift (astype parent key_col) ;;
  let parent := setitem parent "id" (index_plus_1 parent) in
  (* Handle missing values by assigning 'Unknown':
     df[key_col] = ... writes into the caller's table *)
  _ <- store_frame df (setitem d key_col (fillna Unknown col)) ;;
  pcol <- lift (getitem parent key_col) ;;
  let parent := setitem parent key_col (fillna Unknown pcol) in
  (* Create child table with foreign key reference *)
  d' <- load_frame df ;;
  merged <- lift (merge d' parent key_col EmptyString "_parent") ;;
  child <- lift (drop (rename merged [("id_parent", key_col +:+ "_id")]) key_col) ;;
  ret (child, parent)
  )%M.

(** The lambda of line 106. *)
Definition split_and_strip (sep : string) (x : value) : res value :=
  match x with
  | VStr s => (parts <- split sep s ;; Ok (VList (map strip parts)))%res
  | _ => Ok x
  end.

Definition split_many_to_many (df : loc) (left_col right_col : string)
           (sep : option string) : M (DataFrame * DataFrame * DataFrame) :=
  (
  (* Input validation *)
  d <- load_frame df ;;
  _ <- raise_if (empty d) (ValueError "DataFrame is empty.") ;;
  _ <- raise_if (nrows d <? 2)
         (ValueError "DataFrame must have at least two rows to split.") ;;
  _ <- raise_if (negb (has_column left_col d))
         (ValueError (column_msg left_col "not found in DataFrame.")) ;;
  _ <- raise_if (negb (has_column right_col d))
         (ValueError (column_msg right_col "not found in DataFrame.")) ;;
  lcol <- lift (getitem d left_col) ;;
  _ <- raise_if (isnull_all lcol)
         (ValueError (column_msg left_col "contains only null values.")) ;;
  rcol <- lift (getitem d right_col) ;;
  _ <- raise_if (isnull_all rcol)
         (ValueError (column_msg right_col "contains only null values.")) ;;
  n <- lift (nunique rcol) ;;
  _ <- raise_if (n =? nrows d)
         (ValueError (column_msg right_col
            "has all unique values; no many-to-many relationship to split.")) ;;
  (* 1. Normalize right_col into lists if it is a delimited string;
        df.copy() is a new object, the caller's table is left alone *)
  d <- match sep with
       | Some s =>
           new <- lift (apply rcol (split_and_strip s)) ;;
           ret (setitem d right_col new)
       | None => ret d
       end ;;
  (* 2. Explode multi-valued records into multiple rows *)
  df_exploded <- lift (explode d right_col) ;;
  (* Build left table: keep all columns except the multivalued one *)
  let left_columns :=
    List.filter (fun c => negb (bool_decide (c = right_col))) (labels d) in
  left <- lift (l <- getitem_list d left_columns ;; drop_duplicates l)%res ;;
  (* Build right table: distinct right_col values *)
  right <- lift (r <- getitem_list df_exploded [right_col] ;; drop_duplicates r)%res ;;
  let right := setitem right "id" (index_plus_1 right) in
  right <- lift (astype right right_col) ;;
  rvals <- lift (getitem right right_col) ;;
  let right := setitem right right_col (fillna Unknown rvals) in
  (* 4. Build junction table *)
  junction <- lift (
      m1 <- merge df_exploded left left_col "_x" "_y" ;;
      m2 <- merge m1 right right_col "_left" "_right" ;;
      p <- getitem_list m2 ["id_left"; "id_right"] ;;
      j <- drop_duplicates p ;;
      Ok (rename j [("id_right", right_col +:+ "_id"); ("id_left", "title_id")])
    )%res ;;
  ret (left, right, junction)
  )%M.

(* ===================================================================== *)
(** * Tables used in the statements below                                 *)
(* ===================================================================== *)

Definition ints (l : list Z) : list value := map VInt l.

(** A catalogue with a row key, one category per row and a delimited list
    of countries; row 2 has no country. *)
Definition titles : DataFrame :=
  mkFrame 4
    [ mkSeries "id" int64 (ints [1; 2; 3; 4])%Z;
      mkSeries "type" object [VStr "Movie"; VStr "TV Show"; VStr "Movie"; VStr "Movie"];
      mkSeries "country" object [VStr "US, UK"; VNull; VStr "US"; VStr "US"] ].

(** A rating column that holds both a missing value and the text
    "Unknown". *)
Definition rated : DataFrame :=
  mkFrame 4
    [ mkSeries "id" int64 (ints [1; 2; 3; 4])%Z;
      mkSeries "rating" object [VStr "Unknown"; VNull; VStr "PG"; VStr "PG"] ].

(** A table without a column called [id]. *)
Definition shows : DataFrame :=
  mkFrame 4
    [ mkSeries "title" object [VStr "A"; VStr "B"; VStr "C"; VStr "D"];
      mkSeries "type" object [VStr "Movie"; VStr "TV Show"; VStr "Movie"; VStr "Movie"] ].

(** A category with a missing value. *)
Definition partly_typed : DataFrame :=
  mkFrame 4
    [ mkSeries "id" int64 (ints [1; 2; 3; 4])%Z;
      mkSeries "type" object [VStr "Movie"; VNull; VStr "Movie"; VStr "TV Show"] ].

(** The multi-valued column already holds lists. *)
Definition tagged : DataFrame :=
  mkFrame 4
    [ mkSeries "id" int64 (ints [1; 2; 3; 4])%Z;
      mkSeries "tags" object
        [VList ["a"; "b"]; VList ["a"; "b"]; VList ["c"]; VList ["c"]] ].


(** The caller's table is the object at location 0. *)
Definition bound (d : DataFrame) : store := {[ 0 := PyDataFrame d ]}.

(** The ids 1..n of an entity table. *)
Definition ids (n : nat) : list value :=
  map (fun i => VInt (Z.of_nat i)) (seq 1 n).

(** An entity table has dense ids when its [id] column is 1..N, N being
    its number of rows, and every column has N cells. *)
Definition dense_ids (t : DataFrame) : Prop :=
  (exists c, getitem t "id" = Ok c /\ values c = ids (nrows t))
  /\ Forall (fun c => length (values c) = nrows t) (columns t).

(* ===================================================================== *)
(** * Vocabulary of the statements                                        *)
(* ===================================================================== *)

(** A statement sequence that never writes. *)
Definition read_only {A} (m : M A) : Prop := forall h, fst (m h) = h.

(** The validation errors a table with an all-null left key can end in. *)
Definition null_left_key_errors (left_col right_col : string) : list exn :=
  [ ValueError "DataFrame is empty.";
    ValueError "DataFrame must have at least two rows to split.";
    ValueError (column_msg right_col "not found in DataFrame.");
    ValueError (column_msg left_col "contains only null values.") ].

(** The characters of a label, last one first: a suffix is then a prefix
    and two labels with different suffixes differ by [discriminate]. *)
Definition backwards (s : string) : list ascii := rev (list_ascii_of_string s).

(** The labels both sides have. *)
Definition shared (left right : list string) : list string :=
  List.filter (fun x => bool_decide (x ∈ right)) left.

(** The columns of the right table that a merge on [on] keeps. *)
Definition right_columns (right : DataFrame) (on : string) : list Series :=
  List.filter (fun c => negb (bool_decide (name c = on))) (columns right).

(** A table whose every column has as many cells as the table has rows. *)
Definition aligned (df : DataFrame) : Prop :=
  Forall (fun c => length (values c) = nrows df) (columns df).

(** The parent table of the one-to-many split, from the caller's table. *)
Definition parent_of (d : DataFrame) (key_col : string) (parent : DataFrame)
  : Prop :=
  exists p00 p0 p1 pcol,
    getitem_list d [key_col] = Ok p00
    /\ drop_duplicates p00 = Ok p0
    /\ astype p0 key_col = Ok p1
    /\ getitem (setitem p1 "id" (index_plus_1 p1)) key_col = Ok pcol
    /\ parent = setitem (setitem p1 "id" (index_plus_1 p1)) key_col
                  (fillna Unknown pcol).

(** The tables the many-to-many split builds on the way, from the table
    [d1] that has its right column normalised. *)
Inductive many_to_many_steps (d1 : DataFrame) (left_col right_col : string)
          (left right junction : DataFrame) : Prop :=
| Steps (exploded l0 r00 r0 r1 : DataFrame) (rvals : Series)
        (m1 m2 p j : DataFrame)
    (Hexplode : explode d1 right_col = Ok exploded)
    (Hselect_left :
       getitem_list d1
         (List.filter (fun c => negb (bool_decide (c = right_col))) (labels d1))
       = Ok l0)
    (Hleft : drop_duplicates l0 = Ok left)
    (Hselect_right : getitem_list exploded [right_col] = Ok r00)
    (Hdistinct : drop_duplicates r00 = Ok r0)
    (Hastype : astype (setitem r0 "id" (index_plus_1 r0)) right_col = Ok r1)
    (Hgetitem : getitem r1 right_col = Ok rvals)
    (Hright : right = setitem r1 right_col (fillna Unknown rvals))
    (Hmerge1 : merge exploded left left_col "_x" "_y" = Ok m1)
    (Hmerge2 : merge m1 right right_col "_left" "_right" = Ok m2)
    (Hproject : getitem_list m2 ["id_left"; "id_right"] = Ok p)
    (Hdedup : drop_duplicates p = Ok j)
    (Hjunction :
       junction = rename j [("id_right", right_col +:+ "_id");
                            ("id_left", "title_id")]).

(** What the junction table owes to the two tables it refers to: two
    columns of equal length, the left reference and the right reference;
    no pair of references twice; every left reference is a cell of the key
    column of the left table, every right reference a cell of the [id]
    column of the right table. *)
Definition junction_sound (left_col right_col : string)
           (left right junction : DataFrame) : Prop :=
  exists lid rid lkey rkey,
    columns junction = [lid; rid]
    /\ name lid = "title_id" /\ name rid = right_col +:+ "_id"
    /\ length (values lid) = nrows junction
    /\ length (values rid) = nrows junction
    /\ NoDup (rows junction)
    /\ getitem left left_col = Ok lkey
    /\ (forall v, v ∈ values lid -> v ∈ values lkey)
    /\ getitem right "id" = Ok rkey
    /\ (forall v, v ∈ values rid -> v ∈ values rkey).

(** What [fillna('Unknown')] makes of a cell, and the cells a text column
    holds. *)
Definition coalesce (v : value) : value := if isnull v then Unknown else v.

Definition text_cell (v : value) : bool := isnull v || is_str v.

(** The positions [drop_duplicates] keeps of a single column. *)
Definition kept (n : nat) (col : Series) : list nat :=
  first_occurrences [] 0 (rows (mkFrame n [col])).


(** A table and a key column that pass every check of lines 23-40 of
    [split_with_foreign_key]. *)
Definition accepted (d : DataFrame) (key_col : string) : Prop :=
  exists col n,
    empty d = false /\ 2 <= nrows d
    /\ getitem d key_col = Ok col
    /\ dtype_of col = object
    /\ isnull_all col = false
    /\ nunique col = Ok n /\ 2 <= n /\ n <> nrows d
    /\ is_list_set_tuple (nth 0 (values col) VNull) = false.

(** The two messages a table without rows, or with one row, is refused
    with. *)
Definition shape_messages : list string :=
  [ "DataFrame is empty."; "DataFrame must have at least two rows to split." ].

(** A table whose multi-valued column holds tuples. *)
Definition tupled : DataFrame :=
  mkFrame 3
    [ mkSeries "id" int64 (ints [1; 2; 3])%Z;
      mkSeries "tags" object [VTuple ["a"; "b"]; VTuple ["a"]; VTuple ["a"; "b"]] ].

(** What [astype('string')] followed by [fillna('Unknown')] makes of a
    cell. *)
Definition key_text (v : value) : value :=
  if isnull v then Unknown else VStr (str v).

(** The entity table of a list of cells: the distinct cells in order of
    first occurrence, as text, numbered from 1. *)
Definition entity (key : string) (cells : list value) : DataFrame :=
  let keys := distinct [] cells in
  mkFrame (length keys)
    [ mkSeries key string_dtype (map key_text keys);
      mkSeries "id" int64 (ids (length keys)) ].

(** The label of the foreign-key column of the child table: the parent's
    [id] gets the suffix, and then the name [{key_col}_id], only when the
    input has a column [id] of its own. *)
Definition foreign_key_label (d : DataFrame) (key_col : string) : string :=
  if has_column "id" d then key_col +:+ "_id" else "id".

(** The child table of the one-to-many split: for every pair of an input
    row and a parent row with the same key, the input row without its key
    and the id of the parent row. *)
Definition child_table (d : DataFrame) (key_col : string) (col : Series)
  : DataFrame :=
  let pairs := inner_join 0 (map coalesce (values col))
                 (map key_text (distinct [] (values col))) in
  mkFrame (length pairs)
    (map (take (map fst pairs))
         (List.filter (fun c => negb (bool_decide (name c = key_col))) (columns d))
     ++ [ mkSeries (foreign_key_label d key_col) int64
            (map (fun p => VInt (Z.of_nat (S (snd p)))) pairs) ]).

(** A table without one of its columns. *)
Definition without (d : DataFrame) (key : string) : DataFrame :=
  mkFrame (nrows d)
    (List.filter (fun c => negb (bool_decide (name c = key))) (columns d)).

(** The right column after step 1 of [split_many_to_many]. *)
Definition normalised (sep : option string) (rcol : Series) : res Series :=
  match sep with
  | Some s => apply rcol (split_and_strip s)
  | None => Ok rcol
  end.

(** The cells of a column after [explode]. *)
Definition exploded_cells (c : Series) : list value :=
  match dtype_of c with
  | object => concat (map explode_cell (values c))
  | _ => values c
  end.

(* ===================================================================== *)
(** * csv_to_database.py, lines 40-51                                     *)
(* ===================================================================== *)

(** A table that a call returns is an object of its own: binding it to a
    name puts it at a location the store does not use yet. *)
Definition alloc (d : DataFrame) : M loc :=
  fun h => let l := fresh (dom h) in (<[l := PyDataFrame d]> h, Ok l).

(** The tables the script loads into the database; [title_df] is the
    table the script keeps in [df]. *)
Record Tables := mkTables {
  title_df : DataFrame;
  type_df : DataFrame;
  rating_df : DataFrame;
  country_df : DataFrame;
  country_junction : DataFrame;
  director_df : DataFrame;
  director_junction : DataFrame;
  actor_df : DataFrame;
  actor_junction : DataFrame;
  listed_df : DataFrame;
  listed_junction : DataFrame
}.

(** From the table that [pd.read_csv] returned to the eleven tables,
    before the dates are converted and the columns of [df] are put in
    order. *)
Definition normalize (csv : DataFrame) : M Tables :=
  (
  (* Create a new 'id' column and drop the original 'show_id' column *)
  df <- lift (drop csv "show_id") ;;
  let df := setitem df "id" (index_plus_1 df) in
  (* One-to-many splits *)
  l <- alloc df ;;
  r <- split_with_foreign_key l "type" ;;
  let df := fst r in
  let type_df := snd r in
  l <- alloc df ;;
  r <- split_with_foreign_key l "rating" ;;
  let df := fst r in
  let rating_df := snd r in
  (* Many-to-many splits *)
  l <- alloc df ;;
  r <- split_many_to_many l "id" "country" (Some ", ") ;;
  let df := fst (fst r) in
  let country_df := snd (fst r) in
  let country_junction := snd r in
  l <- alloc df ;;
  r <- split_many_to_many l "id" "director" (Some ", ") ;;
  let df := fst (fst r) in
  let director_df := snd (fst r) in
  let director_junction := snd r in
  l <- alloc df ;;
  r <- split_many_to_many l "id" "cast" (Some ", ") ;;
  let df := fst (fst r) in
  let actor_df := snd (fst r) in
  let actor_junction := snd r in
  l <- alloc df ;;
  r <- split_many_to_many l "id" "listed_in" (Some ", ") ;;
  let df := fst (fst r) in
  let listed_df := snd (fst r) in
  let listed_junction := snd r in
  ret (mkTables df type_df rating_df country_df country_junction
         director_df director_junction actor_df actor_junction
         listed_df listed_junction)
  )%M.

(** A small catalogue in the layout of the data set. *)
Definition netflix : DataFrame :=
  mkFrame 4
    [ mkSeries "show_id" object [VStr "s1"; VStr "s2"; VStr "s3"; VStr "s4"];
      mkSeries "type" object [VStr "Movie"; VStr "TV Show"; VStr "Movie"; VStr "Movie"];
      mkSeries "title" object [VStr "A"; VStr "B"; VStr "C"; VStr "D"];
      mkSeries "director" object [VStr "Ann, Bob"; VNull; VStr "Ann"; VStr "Ann"];
      mkSeries "cast" object [VStr "Cy"; VStr "Cy, Di"; VStr "Di"; VStr "Cy"];
      mkSeries "country" object [VStr "US, UK"; VStr "US"; VStr "US"; VNull];
      mkSeries "rating" object [VStr "PG"; VNull; VStr "PG"; VStr "R"];
      mkSeries "listed_in" object
        [VStr "Dramas"; VStr "Dramas, Comedies"; VStr "Dramas"; VStr "Dramas"] ].

(** The cells of column [x] of [a] are cells of column [x] of [b]. *)
Definition column_from (a b : DataFrame) (x : string) : Prop :=
  forall ca, getitem a x = Ok ca ->
    exists cb, getitem b x = Ok cb /\ forall v, v ∈ values ca -> v ∈ values cb.

(** The labels a split of the script must not find in the table it is
    given. *)
Definition fresh_labels (xs : list string) (d : DataFrame) : Prop :=
  forall x, x ∈ xs -> x ∉ labels d.

(** The labels of the title table before the splits, and the columns the
    six splits take out of it. *)
Definition with_id (ls : list string) : list string :=
  if bool_decide ("id" ∈ ls) then ls else ls ++ ["id"].

Definition split_off : list string :=
  ["type"; "rating"; "country"; "director"; "cast"; "listed_in"].

(** A call that returned, on a table [d] bound to some name. *)
Definition returns_fk (d : DataFrame) (key_col : string)
           (child parent : DataFrame) : Prop :=
  exists l h h',
    h !! l = Some (PyDataFrame d)
    /\ split_with_foreign_key l key_col h = (h', Ok (child, parent)).

Definition returns_mm (d : DataFrame) (right_col : string)
           (left right junction : DataFrame) : Prop :=
  exists l h h',
    h !! l = Some (PyDataFrame d)
    /\ split_many_to_many l "id" right_col (Some ", ") h
       = (h', Ok (left, right, junction)).

(** The table the script hands to the first split. *)
Definition keyed (csv : DataFrame) : DataFrame :=
  setitem (without csv "show_id") "id" (index_plus_1 (without csv "show_id")).

(** What a one-to-many split on a table with an [id] column hands on. *)
Definition fk_stage (d : DataFrame) (key_col : string)
           (child parent : DataFrame) : Prop :=
  labels child
  = List.filter (fun x => negb (bool_decide (x = key_col))) (labels d)
    ++ [key_col +:+ "_id"]
  /\ NoDup (labels child) /\ aligned child
  /\ labels parent = [key_col; "id"] /\ dense_ids parent
  /\ (forall x, x <> key_col +:+ "_id" -> column_from child d x)
  /\ exists fk, getitem child (key_col +:+ "_id") = Ok fk
                /\ forall v, v ∈ values fk -> v ∈ ids (nrows parent).

(** What a many-to-many split with the left key [id] hands on. *)
Definition mm_stage (d : DataFrame) (right_col : string)
           (left right junction : DataFrame) : Prop :=
  NoDup (labels d)
  /\ labels left
     = List.filter (fun x => negb (bool_decide (x = right_col))) (labels d)
  /\ NoDup (labels left) /\ aligned left
  /\ labels right = [right_col; "id"] /\ dense_ids right
  /\ labels junction = ["title_id"; right_col +:+ "_id"]
  /\ junction_sound "id" right_col left right junction
  /\ (forall x, column_from left d x)
  /\ (forall x, x <> right_col -> column_from d left x).



(** A column of text and nulls that does not hold both a null and the
    text "Unknown". *)
Definition clean_text (col : Series) : Prop :=
  Forall (fun v => text_cell v = true) (values col)
  /\ ~ (VNull ∈ values col /\ Unknown ∈ values col).

(** A table and two columns that pass every check of lines 84-99 of
    [split_many_to_many]. *)
Definition accepted_mm (d : DataFrame) (left_col right_col : string) : Prop :=
  exists lcol rcol n,
    empty d = false /\ 2 <= nrows d
    /\ getitem d left_col = Ok lcol /\ isnull_all lcol = false
    /\ getitem d right_col = Ok rcol /\ isnull_all rcol = false
    /\ nunique rcol = Ok n /\ n <> nrows d.

(** A table all of whose cells can be hashed. *)
Definition hashable_frame (t : DataFrame) : Prop :=
  Forall (fun c => Forall (fun v => hashable v = true) (values c)) (columns t).

(** No label is another label followed by one of the suffixes of the
    first merge. *)
Definition suffix_free (ls : list string) : Prop :=
  forall a b, a ∈ ls -> b ∈ ls -> a +:+ "_x" <> b /\ a +:+ "_y" <> b.

(** The cells of a column, and the cells of a multi-valued column once
    its strings are split at [", "] and the lists are exploded. *)
Definition cells (d : DataFrame) (x : string) : list value :=
  match getitem d x with Ok c => values c | Raise _ => [] end.

Definition split_cells (d : DataFrame) (x : string) : list value :=
  match getitem d x with
  | Ok col =>
      match normalised (Some ", ") col with
      | Ok c => exploded_cells c
      | Raise _ => []
      end
  | Raise _ => []
  end.

(** A column of the file that the one-to-many split takes: clean text of
    type [object] with at least two values, some of them repeated. *)
Definition categorical (csv : DataFrame) (x : string) : Prop :=
  exists col n,
    getitem csv x = Ok col /\ dtype_of col = object /\ clean_text col
    /\ nunique col = Ok n /\ 2 <= n /\ n <> nrows csv.

(** A column of the file that the many-to-many split takes: text and
    nulls, not all null, with a value that is repeated. *)
Definition multivalued (csv : DataFrame) (x : string) : Prop :=
  exists col n,
    getitem csv x = Ok col
    /\ Forall (fun v => text_cell v = true) (values col)
    /\ isnull_all col = false
    /\ nunique col = Ok n /\ n <> nrows csv.

(** A file the script can normalise. *)
Definition catalogue (csv : DataFrame) : Prop :=
  NoDup (labels csv) /\ aligned csv /\ 2 <= nrows csv
  /\ has_column "show_id" csv = true
  /\ fresh_labels ["id_parent"; "type_id"; "rating_id"] csv
  /\ suffix_free ("id" :: "type_id" :: "rating_id" :: labels csv)
  /\ hashable_frame csv
  /\ categorical csv "type" /\ categorical csv "rating"
  /\ Forall (multivalued csv) ["country"; "director"; "cast"; "listed_in"].

(** The table [df] of the script between two splits, when the columns
    [gone] have been split off and the foreign keys [added] put in: it has
    the rows of the file in their order. *)
Definition stage_table (csv d : DataFrame) (gone added : list string) : Prop :=
  NoDup (labels d) /\ aligned d /\ nrows d = nrows csv
  /\ getitem d "id" = Ok (mkSeries "id" int64 (ids (nrows csv)))
  /\ hashable_frame d
  /\ (forall x, x ∈ labels d -> x ∈ labels csv \/ x = "id" \/ x ∈ added)
  /\ (forall x, x ∉ "show_id" :: "id" :: gone ++ added ->
                getitem d x = getitem csv x).

(* ===================================================================== *)
(** * Reasoning about statement sequences                                 *)
(* ===================================================================== *)

Lemma res_bind_ok {A B} (m : res A) (k : A -> res B) (b : B) :
  res_bind m k = Ok b -> exists a, m = Ok a /\ k a = Ok b.
Proof. destruct m; simpl; [eauto | discriminate]. Qed.

Lemma bind_ok {A B} (m : M A) (k : A -> M B) h h' (b : B) :
  bind m k h = (h', Ok b) ->
  exists a h1, m h = (h1, Ok a) /\ k a h1 = (h', Ok b).
Proof.
  unfold bind. destruct (m h) as [h1 [a | e]]; intros H.
  - eauto.
  - inversion H.
Qed.

Lemma lift_ok {A} (r : res A) h h' (a : A) :
  lift r h = (h', Ok a) -> r = Ok a /\ h' = h.
Proof. unfold lift. intros H. inversion H. auto. Qed.

Lemma ret_ok {A} (a b : A) h h' :
  ret a h = (h', Ok b) -> a = b /\ h' = h.
Proof. unfold ret. intros H. inversion H. auto. Qed.

Lemma raise_if_ok (c : bool) e h h' u :
  raise_if c e h = (h', Ok u) -> c = false /\ h' = h.
Proof.
  unfold raise_if, raise, ret. destruct c; intros H; inversion H. auto.
Qed.

Lemma load_frame_ok df h h' d :
  load_frame df h = (h', Ok d) -> h !! df = Some (PyDataFrame d) /\ h' = h.
Proof.
  unfold load_frame. destruct (h !! df) as [[d0|]|]; intros H; inversion H.
  auto.
Qed.

Lemma store_frame_ok df d h h' u :
  store_frame df d h = (h', Ok u) -> h' = <[df := PyDataFrame d]> h.
Proof. unfold store_frame. intros H. inversion H. reflexivity. Qed.

(** Peel one statement off a sequence that is known to return: [a] names
    what the statement returned, [E] what is known of it. *)
Ltac step H a E :=
  let h1 := fresh "h" in
  lazymatch type of H with
  | bind _ _ _ = _ =>
      apply bind_ok in H as (a & h1 & E & H);
      lazymatch type of E with
      | raise_if _ _ _ = _ => apply raise_if_ok in E as [E ->]
      | lift _ _ = _ => apply lift_ok in E as [E ->]
      | load_frame _ _ = _ => apply load_frame_ok in E as [E ->]
      | store_frame _ _ _ = _ => apply store_frame_ok in E
      | _ => idtac
      end
  end.

(** The same for a check, whose unit result needs no name. *)
Ltac check H E :=
  let u := fresh "u" in step H u E; clear u.

Ltac res_step H :=
  let a := fresh "y" in
  let H1 := fresh "R" in
  apply res_bind_ok in H as (a & H1 & H).

Tactic Notation "res_inv" hyp(H) "as" ident(a) ident(E) :=
  apply res_bind_ok in H as (a & E & H).

(* ===================================================================== *)
(** * The string methods on small inputs                                  *)
(* ===================================================================== *)

Example split_comma : split "," "US, UK" = Ok ["US"; " UK"].
Proof. reflexivity. Qed.

Example split_two_chars : split ", " "Anna, Ben, Anna" = Ok ["Anna"; "Ben"; "Anna"].
Proof. reflexivity. Qed.

Example split_trailing : split "," "a," = Ok ["a"; EmptyString].
Proof. reflexivity. Qed.

Example split_of_empty : split "," EmptyString = Ok [EmptyString].
Proof. reflexivity. Qed.

Example strip_both : strip "  UK " = "UK".
Proof. reflexivity. Qed.

Example str_of_tuple : str (VTuple ["a"; "b"]) = "('a', 'b')".
Proof. reflexivity. Qed.

Example str_of_negative : str (VInt (-12)) = "-12".
Proof. reflexivity. Qed.

(* ===================================================================== *)
(** * What the two functions do on the tables above                       *)
(* ===================================================================== *)

(** C1.  The child of a one-to-many split is claimed to have the row count
    of its input, also when the key column holds both a missing value and
    the text "Unknown".  On [rated] (4 rows) the parent table is built
    before the missing value is replaced, so it gets two rows that both
    read "Unknown" (ids 1 and 2); the join then matches rows 1 and 2 of the
    input with both of them and the child has 6 rows. *)
Theorem split_with_foreign_key_row_count_unknown :
  snd (split_with_foreign_key 0 "rating" (bound rated)) =
    Ok (mkFrame 6
          [ mkSeries "id" int64 (ints [1; 1; 2; 2; 3; 4])%Z;
            mkSeries "rating_id" int64 (ints [1; 2; 1; 2; 3; 3])%Z ],
        mkFrame 3
          [ mkSeries "rating" string_dtype [VStr "Unknown"; VStr "Unknown"; VStr "PG"];
            mkSeries "id" int64 (ints [1; 2; 3])%Z ])
  /\ nrows rated = 4.
Proof. split; [vm_compute; reflexivity | reflexivity]. Qed.

(** C2.  Neither function is claimed to change the table the caller passed
    in.  [split_with_foreign_key] assigns the filled column to the caller's
    own object: after the call on [partly_typed], the missing type of row 2
    of the caller's table reads "Unknown". *)
Theorem split_with_foreign_key_mutates_input :
  let after :=
    mkFrame 4
      [ mkSeries "id" int64 (ints [1; 2; 3; 4])%Z;
        mkSeries "type" object
          [VStr "Movie"; VStr "Unknown"; VStr "Movie"; VStr "TV Show"] ] in
  (bound partly_typed) !! 0 = Some (PyDataFrame partly_typed)
  /\ fst (split_with_foreign_key 0 "type" (bound partly_typed)) !! 0 =
       Some (PyDataFrame after)
  /\ after <> partly_typed
  /\ (exists child parent,
        snd (split_with_foreign_key 0 "type" (bound partly_typed)) = Ok (child, parent)).
Proof.
  intros after.
  split; [vm_compute; reflexivity |]. split; [vm_compute; reflexivity |].
  split; [discriminate |].
  eexists _, _. vm_compute. reflexivity.
Qed.

(** C3.  With separator "," and a row without country, the junction table
    is claimed to hold a row that points to the "Unknown" entry of the
    right table.  On [titles] the explode step gives title 2 a single row
    with a null country and the right table gets exactly one "Unknown"
    entry (id 3), as claimed; but the exploded rows keep the null while the
    right table now reads "Unknown", so the join drops the row: the
    junction has no row for title 2 and none with country id 3. *)
Theorem split_many_to_many_null_row_lost :
  let junction :=
    mkFrame 4
      [ mkSeries "title_id" int64 (ints [1; 1; 3; 4])%Z;
        mkSeries "country_id" int64 (ints [1; 2; 1; 1])%Z ] in
  (* steps 1 and 2 *)
  (lists <- apply (mkSeries "country" object
                     [VStr "US, UK"; VNull; VStr "US"; VStr "US"])
                  (split_and_strip ",") ;;
   exploded <- explode (setitem titles "country" lists) "country" ;;
   Ok (rows exploded))%res =
    Ok [ [VInt 1; VStr "Movie"; VStr "US"]; [VInt 1; VStr "Movie"; VStr "UK"];
         [VInt 2; VStr "TV Show"; VNull]; [VInt 3; VStr "Movie"; VStr "US"];
         [VInt 4; VStr "Movie"; VStr "US"] ]
  (* the call *)
  /\ snd (split_many_to_many 0 "id" "country" (Some ",") (bound titles)) =
    Ok (mkFrame 4
          [ mkSeries "id" int64 (ints [1; 2; 3; 4])%Z;
            mkSeries "type" object
              [VStr "Movie"; VStr "TV Show"; VStr "Movie"; VStr "Movie"] ],
        mkFrame 3
          [ mkSeries "country" string_dtype [VStr "US"; VStr "UK"; VStr "Unknown"];
            mkSeries "id" int64 (ints [1; 2; 3])%Z ],
        junction)
  /\ rows junction =
       [ [VInt 1; VInt 1]; [VInt 1; VInt 2]; [VInt 3; VInt 1]; [VInt 4; VInt 1] ]
  /\ ~ [VInt 2; VInt 3] ∈ rows junction
  /\ forall r, r ∈ rows junction -> nth 1 r VNull <> VInt 3.
Proof.
  intros junction.
  assert (rows junction =
            [ [VInt 1; VInt 1]; [VInt 1; VInt 2]; [VInt 3; VInt 1]; [VInt 4; VInt 1] ])
    as Hrows by (vm_compute; reflexivity).
  split; [vm_compute; reflexivity |].
  split; [vm_compute; reflexivity |]. split; [exact Hrows |].
  rewrite Hrows. split.
  - intros H. repeat (apply elem_of_cons in H as [H | H]; [discriminate H |]).
    by apply elem_of_nil in H.
  - intros r H.
    repeat (apply elem_of_cons in H as [-> | H]; [discriminate |]).
    by apply elem_of_nil in H.
Qed.

(** C5.  The child is claimed to be the input with the key column replaced
    by one column [{key_col}_id] that holds, in every row, the parent id of
    that row's key.  On [rated] the parent has two "Unknown" entries (the
    defect of C1): titles 1 and 2 each appear twice in the child, once with
    [rating_id] 1 and once with 2.  And the name itself comes from renaming
    [id_parent], a label the join produces only when the input already has
    a column [id]: on [shows], which has none, the new column is called
    [id]. *)
Theorem split_with_foreign_key_child :
  (exists child parent,
     snd (split_with_foreign_key 0 "rating" (bound rated)) = Ok (child, parent)
     /\ rows child =
          [ [VInt 1; VInt 1]; [VInt 1; VInt 2]; [VInt 2; VInt 1]; [VInt 2; VInt 2];
            [VInt 3; VInt 3]; [VInt 4; VInt 3] ]
     /\ rows parent =
          [ [VStr "Unknown"; VInt 1]; [VStr "Unknown"; VInt 2]; [VStr "PG"; VInt 3] ])
  /\ snd (split_with_foreign_key 0 "type" (bound shows)) =
       Ok (mkFrame 4
             [ mkSeries "title" object [VStr "A"; VStr "B"; VStr "C"; VStr "D"];
               mkSeries "id" int64 (ints [1; 2; 1; 1])%Z ],
           mkFrame 2
             [ mkSeries "type" string_dtype [VStr "Movie"; VStr "TV Show"];
               mkSeries "id" int64 (ints [1; 2])%Z ]).
Proof.
  split.
  - exists (mkFrame 6
              [ mkSeries "id" int64 (ints [1; 1; 2; 2; 3; 4])%Z;
                mkSeries "rating_id" int64 (ints [1; 2; 1; 2; 3; 3])%Z ]),
           (mkFrame 3
              [ mkSeries "rating" string_dtype
                  [VStr "Unknown"; VStr "Unknown"; VStr "PG"];
                mkSeries "id" int64 (ints [1; 2; 3])%Z ]).
    split; [| split]; vm_compute; reflexivity.
  - vm_compute. reflexivity.
Qed.

(** C8.  A key column of containers is claimed to be refused with the
    error of line 40.  On [tagged] the uniqueness test of line 35 hashes
    the lists first and the call ends there with [TypeError]. *)
Theorem split_with_foreign_key_on_lists :
  split_with_foreign_key 0 "tags" (bound tagged) =
    (bound tagged, Raise (TypeError "unhashable type: 'list'"))
  /\ TypeError "unhashable type: 'list'" <> multivalued_error "tags".
Proof. split; [vm_compute; reflexivity | discriminate]. Qed.

(** C9.  Without a separator, a right column that already holds lists is
    claimed to be accepted.  On [tagged] the uniqueness test of line 98
    hashes the lists and the call raises [TypeError]. *)
Theorem split_many_to_many_on_lists :
  split_many_to_many 0 "id" "tags" None (bound tagged) =
    (bound tagged, Raise (TypeError "unhashable type: 'list'")).
Proof. vm_compute. reflexivity. Qed.

(* ===================================================================== *)
(** * The store after a call                                              *)
(* ===================================================================== *)

Lemma read_only_bind {A B} (m : M A) (k : A -> M B) :
  read_only m -> (forall a, read_only (k a)) -> read_only (bind m k).
Proof.
  intros Hm Hk h. unfold bind. specialize (Hm h).
  destruct (m h) as [h1 [a | e]]; simpl in *; subst; [apply Hk | reflexivity].
Qed.

Lemma read_only_lift {A} (r : res A) : read_only (lift r).
Proof. intros h. reflexivity. Qed.

Lemma read_only_ret {A} (a : A) : read_only (ret a).
Proof. intros h. reflexivity. Qed.

Lemma read_only_raise_if c e : read_only (raise_if c e).
Proof. intros h. unfold raise_if. destruct c; reflexivity. Qed.

Lemma read_only_load df : read_only (load_frame df).
Proof.
  intros h. unfold load_frame. destruct (h !! df) as [[d|]|]; reflexivity.
Qed.

Create HintDb ro.
#[local] Hint Resolve read_only_lift read_only_ret read_only_raise_if
  read_only_load : ro.

(** [split_many_to_many] leaves every object of the store as it was,
    whether it returns or raises. *)
Lemma split_many_to_many_store df left_col right_col sep h :
  fst (split_many_to_many df left_col right_col sep h) = h.
Proof.
  revert h. change (read_only (split_many_to_many df left_col right_col sep)).
  unfold split_many_to_many.
  repeat (first [ apply read_only_bind; [ | intros ? ] | solve [ auto with ro ]
                | destruct sep ]).
Qed.

(** [split_with_foreign_key], when it returns, has replaced the key column
    of the caller's table by its filled version. *)
Lemma split_with_foreign_key_store df key_col h h' d out :
  h !! df = Some (PyDataFrame d) ->
  split_with_foreign_key df key_col h = (h', Ok out) ->
  exists col,
    getitem d key_col = Ok col
    /\ h' = <[df := PyDataFrame (setitem d key_col (fillna Unknown col))]> h.
Proof.
  intros Hd H. unfold split_with_foreign_key in H.
  step H d0 Ed. rewrite Hd in Ed. injection Ed as <-.
  check H E1. check H E2. check H E3. step H col Ecol.
  check H E4. check H E5. step H n En. check H E6. step H n1 En1.
  check H E7. check H E8.
  step H p0 Ep0. step H p1 Ep1. step H u Est.
  exists col. split; [assumption |].
  step H pcol Epcol. step H d1 Ed1. step H merged Em. step H child Ec.
  apply ret_ok in H as [_ ->]. exact Est.
Qed.

Lemma getitem_has_column d key c :
  getitem d key = Ok c -> has_column key d = true.
Proof.
  unfold getitem, has_column, labels. intros H.
  destruct (List.find _ _) as [c0|] eqn:F; [| discriminate].
  apply find_some in F as [Hin Hn].
  apply bool_decide_eq_true in Hn. apply bool_decide_eq_true.
  subst key. apply list_elem_of_In, in_map, Hin.
Qed.

(* ===================================================================== *)
(** * Containers and the uniqueness tests                                 *)
(* ===================================================================== *)

Lemma hash_all_ok (l : list value) u :
  hash_all l = Ok u -> forall v, v ∈ l -> hashable v = true.
Proof.
  induction l as [| x l IH]; intros H v Hv; simpl in H.
  - by apply elem_of_nil in Hv.
  - destruct (hashable x) eqn:Hx; [| discriminate].
    apply elem_of_cons in Hv as [-> | Hv]; [exact Hx | by apply IH].
Qed.

(** A call of [split_many_to_many] that returns has hashed every cell of
    the right column of the caller's table: the column holds no list and
    no set, with or without a separator. *)
Lemma split_many_to_many_hashes_right_column
      df left_col right_col sep h h' d rcol out :
  h !! df = Some (PyDataFrame d) ->
  getitem d right_col = Ok rcol ->
  split_many_to_many df left_col right_col sep h = (h', Ok out) ->
  forall v, v ∈ values rcol -> hashable v = true.
Proof.
  intros Hd Hrcol H. unfold split_many_to_many in H.
  step H d0 Ed. rewrite Hd in Ed. injection Ed as <-.
  check H E1. check H E2. check H E3. check H E4.
  step H lcol Elcol. check H E5. step H rcol0 Ercol. check H E6.
  rewrite Hrcol in Ercol. injection Ercol as <-.
  step H n En. unfold nunique in En. res_inv En as u Eu.
  by apply hash_all_ok with (u := u).
Qed.

Lemma append_inj_r (s a b : string) : s +:+ a = s +:+ b -> a = b.
Proof.
  induction s as [| c s IH]; simpl; intros H; [exact H |].
  injection H as H. by apply IH.
Qed.

Lemma column_msg_inj col r1 r2 : column_msg col r1 = column_msg col r2 -> r1 = r2.
Proof.
  unfold column_msg. intros H.
  by do 3 apply append_inj_r in H.
Qed.

Lemma raise_column_msg_neq {A} col r1 r2 :
  r1 <> r2 ->
  @Raise A (ValueError (column_msg col r1)) <> Raise (ValueError (column_msg col r2)).
Proof. intros Hne H. apply Hne, (column_msg_inj col). congruence. Qed.

(** When the first cell of the key column is a list or a set,
    [split_with_foreign_key] never ends in the error of line 40: an earlier
    check raises, or the uniqueness test of line 35 does with
    [TypeError]. *)
Lemma multivalued_error_not_for_lists h df d key_col col :
  h !! df = Some (PyDataFrame d) ->
  getitem d key_col = Ok col ->
  hashable (nth 0 (values col) VNull) = false ->
  snd (split_with_foreign_key df key_col h) <> Raise (multivalued_error key_col).
Proof.
  intros Hd Hcol Hfirst.
  pose proof (getitem_has_column _ _ _ Hcol) as Hhas.
  unfold split_with_foreign_key, multivalued_error, bind, load_frame,
    raise_if, raise, ret, lift.
  rewrite Hd.
  destruct (empty d); cbn [snd negb]; [discriminate |].
  destruct (nrows d <? 2); cbn [snd negb]; [discriminate |].
  rewrite Hhas, Hcol. cbn [snd negb].
  destruct (bool_decide (dtype_of col = object)); cbn [snd negb];
    [| by apply raise_column_msg_neq].
  destruct (isnull_all col); cbn [snd negb]; [by apply raise_column_msg_neq |].
  unfold nunique. destruct (values col) as [| v vs]; [discriminate Hfirst |].
  cbn [nth] in Hfirst. cbn [hash_all res_bind]. rewrite Hfirst.
  cbn [snd res_bind]. discriminate.
Qed.

(* ===================================================================== *)
(** * Validation of the left key column                                   *)
(* ===================================================================== *)

(** C10.  A table whose left key column holds only nulls is refused by
    [split_many_to_many]: the call raises one of the validation errors,
    returns no table and leaves the store as it was; when the shape and
    column checks pass, the error is the one of line 95, "contains only
    null values". *)
Theorem split_many_to_many_null_left_key
        h df d left_col right_col sep lcol :
  h !! df = Some (PyDataFrame d) ->
  getitem d left_col = Ok lcol ->
  isnull_all lcol = true ->
  exists e,
    split_many_to_many df left_col right_col sep h = (h, Raise e)
    /\ e ∈ null_left_key_errors left_col right_col
    /\ (empty d = false -> 2 <= nrows d -> has_column right_col d = true ->
        e = ValueError (column_msg left_col "contains only null values.")).
Proof.
  intros Hd Hcol Hnull.
  pose proof (getitem_has_column _ _ _ Hcol) as Hleft.
  unfold split_many_to_many, null_left_key_errors, bind, load_frame, raise_if,
    raise, ret, lift.
  rewrite Hd.
  destruct (empty d) eqn:He.
  { eexists. split; [reflexivity |]. split; [set_solver | discriminate]. }
  destruct (nrows d <? 2) eqn:Hn.
  { eexists. split; [reflexivity |]. split; [set_solver |].
    intros _ H2 _. apply Nat.ltb_lt in Hn. lia. }
  rewrite Hleft. simpl.
  destruct (has_column right_col d) eqn:Hr; simpl.
  - rewrite Hcol, Hnull.
    eexists. split; [reflexivity |]. split; [set_solver | reflexivity].
  - eexists. split; [reflexivity |]. split; [set_solver | discriminate].
Qed.

(** The theorem at a table of two rows whose key column is all null. *)
Lemma split_many_to_many_null_left_key_witness :
  exists e,
    split_many_to_many 0 "id" "country" (Some ", ")
      (bound (mkFrame 2 [ mkSeries "id" object [VNull; VNull];
                          mkSeries "country" object [VStr "US"; VStr "US"] ]))
    = (bound (mkFrame 2 [ mkSeries "id" object [VNull; VNull];
                          mkSeries "country" object [VStr "US"; VStr "US"] ]),
       Raise e)
    /\ e ∈ null_left_key_errors "id" "country"
    /\ (true = true -> 2 <= 2 -> true = true ->
        e = ValueError (column_msg "id" "contains only null values.")).
Proof.
  destruct (split_many_to_many_null_left_key
              (bound (mkFrame 2 [ mkSeries "id" object [VNull; VNull];
                                  mkSeries "country" object [VStr "US"; VStr "US"] ]))
              0 _ "id" "country" (Some ", ") (mkSeries "id" object [VNull; VNull])
              eq_refl eq_refl eq_refl) as (e & H1 & H2 & H3).
  exists e. split; [exact H1 |]. split; [exact H2 |].
  intros _ _ _. apply H3; [reflexivity | simpl; lia | reflexivity].
Defined.

(* ===================================================================== *)
(** * Labels and suffixes                                                 *)
(* ===================================================================== *)

Lemma list_ascii_of_string_app (s t : string) :
  list_ascii_of_string (s +:+ t) = list_ascii_of_string s ++ list_ascii_of_string t.
Proof. induction s as [| c s IH]; simpl; [reflexivity | by rewrite IH]. Qed.

Lemma backwards_app (s t : string) :
  backwards (s +:+ t) = backwards t ++ backwards s.
Proof. unfold backwards. rewrite list_ascii_of_string_app. apply rev_app_distr. Qed.

(** Decide a goal whose hypothesis [H] equates two labels that end
    differently. *)
Ltac suffix_clash H :=
  apply (f_equal backwards) in H;
  repeat rewrite backwards_app in H;
  vm_compute in H; simpl in H; discriminate H.

Lemma suffix_x_y (a b : string) : a +:+ "_x" <> b +:+ "_y".
Proof. intros H. suffix_clash H. Qed.

Lemma suffix_left_right (a b : string) : a +:+ "_left" <> b +:+ "_right".
Proof. intros H. suffix_clash H. Qed.

(** ** Selecting columns by label *)

Lemma filter_name_in (cols : list Series) (k : string) (c : Series) :
  c ∈ List.filter (fun c' => bool_decide (name c' = k)) cols <->
  c ∈ cols /\ name c = k.
Proof.
  rewrite !list_elem_of_In, filter_In, bool_decide_eq_true. reflexivity.
Qed.

(** With unique labels, the columns that carry a label are at most one. *)
Lemma filter_name_unique (cols : list Series) (c : Series) :
  NoDup (map name cols) -> c ∈ cols ->
  List.filter (fun c' => bool_decide (name c' = name c)) cols = [c].
Proof.
  induction cols as [| c0 cols IH]; intros Hnd Hin.
  - by apply elem_of_nil in Hin.
  - simpl in Hnd. apply NoDup_cons in Hnd as [Hnot Hnd].
    apply elem_of_cons in Hin as [-> | Hin]; simpl.
    + rewrite bool_decide_eq_true_2 by reflexivity. f_equal.
      destruct (List.filter _ cols) as [| c1 rest] eqn:F; [reflexivity |].
      exfalso. apply Hnot.
      assert (c1 ∈ List.filter (fun c' => bool_decide (name c' = name c0)) cols)
        as H1 by (rewrite F; left).
      apply filter_name_in in H1 as [H1 <-].
      apply list_elem_of_In, in_map, list_elem_of_In, H1.
    + rewrite bool_decide_eq_false_2; [by apply IH |].
      intros Heq. apply Hnot. rewrite Heq.
      apply list_elem_of_In, in_map, list_elem_of_In, Hin.
Qed.

Lemma select_names cols keys cs :
  select cols keys = Ok cs -> NoDup (map name cols) -> map name cs = keys.
Proof.
  revert cs. induction keys as [| k keys IH]; intros cs H Hnd; simpl in H.
  - by injection H as <-.
  - destruct (List.filter _ cols) as [| c found] eqn:F; [discriminate |].
    res_step H. injection H as <-.
    assert (c ∈ List.filter (fun c' => bool_decide (name c' = k)) cols)
      as Hc by (rewrite F; left).
    apply filter_name_in in Hc as [Hc Hk]. subst k.
    rewrite (filter_name_unique cols c Hnd Hc) in F. injection F as <-.
    simpl. f_equal. by apply IH.
Qed.

Lemma select_in cols keys cs c :
  select cols keys = Ok cs -> c ∈ cs -> c ∈ cols.
Proof.
  revert cs. induction keys as [| k keys IH]; intros cs H Hin; simpl in H.
  - injection H as <-. by apply elem_of_nil in Hin.
  - destruct (List.filter _ cols) as [| c0 found] eqn:F; [discriminate |].
    res_step H. injection H as <-.
    change (c ∈ (c0 :: found) ++ y) in Hin.
    apply elem_of_app in Hin as [Hin | Hin]; [| by eapply IH].
    rewrite <- F in Hin. by apply filter_name_in in Hin as [Hin _].
Qed.

Lemma select_has cols keys cs k :
  select cols keys = Ok cs -> k ∈ keys -> k ∈ map name cols.
Proof.
  revert cs. induction keys as [| k0 keys IH]; intros cs H Hin; simpl in H.
  - by apply elem_of_nil in Hin.
  - destruct (List.filter _ cols) as [| c0 found] eqn:F; [discriminate |].
    res_step H.
    apply elem_of_cons in Hin as [-> | Hin]; [| by eapply IH].
    assert (c0 ∈ List.filter (fun c' => bool_decide (name c' = k0)) cols)
      as Hc by (rewrite F; left).
    apply filter_name_in in Hc as [Hc <-].
    apply list_elem_of_In, in_map, list_elem_of_In, Hc.
Qed.

(** Selecting two labels from columns with unique labels gives the two
    columns that carry them. *)
Lemma select_two cols (a b : Series) cs :
  NoDup (map name cols) -> a ∈ cols -> b ∈ cols ->
  select cols [name a; name b] = Ok cs -> cs = [a; b].
Proof.
  intros Hnd Ha Hb H. simpl in H.
  rewrite (filter_name_unique cols a Hnd Ha) in H.
  rewrite (filter_name_unique cols b Hnd Hb) in H.
  simpl in H. by injection H as <-.
Qed.

Lemma getitem_in d key c : getitem d key = Ok c -> c ∈ columns d /\ name c = key.
Proof.
  unfold getitem. destruct (List.find _ _) as [c0|] eqn:F; [| discriminate].
  intros H. injection H as <-. apply find_some in F as [Hin Hn].
  apply bool_decide_eq_true in Hn. split; [by apply list_elem_of_In | done].
Qed.

Lemma has_column_getitem d key :
  has_column key d = true -> exists c, getitem d key = Ok c.
Proof.
  unfold has_column, getitem, labels. intros H.
  apply bool_decide_eq_true, list_elem_of_In, in_map_iff in H as (c & Hn & Hin).
  destruct (List.find _ _) as [c0|] eqn:F; [eauto |].
  exfalso. apply (find_none _ _ F) in Hin.
  apply bool_decide_eq_false in Hin. by apply Hin.
Qed.

(** ** The labels a merge produces *)

Lemma renamer_nil suffix x : renamer [] suffix x = x.
Proof. unfold renamer. by rewrite bool_decide_eq_false_2 by apply not_elem_of_nil. Qed.

Lemma map_renamer_nil suffix l : map (renamer [] suffix) l = l.
Proof.
  induction l as [| x l IH]; simpl; [reflexivity |].
  by rewrite renamer_nil, IH.
Qed.

Lemma elem_of_shared left right x :
  x ∈ shared left right <-> x ∈ left /\ x ∈ right.
Proof.
  unfold shared. rewrite list_elem_of_In, filter_In, bool_decide_eq_true.
  by rewrite <- list_elem_of_In.
Qed.

Lemma elem_of_difference others to_rename x :
  x ∈ difference others to_rename <-> x ∈ others /\ x ∉ to_rename.
Proof.
  unfold difference.
  rewrite list_elem_of_In, filter_In, negb_true_iff, bool_decide_eq_false.
  by rewrite <- list_elem_of_In.
Qed.

Lemma filter_nil_none {A} (f : A -> bool) (l : list A) x :
  List.filter f l = [] -> x ∈ l -> f x = false.
Proof.
  intros F Hin. destruct (f x) eqn:Hf; [| reflexivity].
  assert (In x (List.filter f l)) as H
    by (apply filter_In; split; [by apply list_elem_of_In | done]).
  rewrite F in H. destruct H.
Qed.

Lemma items_overlap_ok left right lsuffix rsuffix ll rl :
  items_overlap_with_suffix left right lsuffix rsuffix = Ok (ll, rl) ->
  ll = map (renamer (shared left right) lsuffix) left
  /\ rl = map (renamer (shared left right) rsuffix) right
  /\ (shared left right = [] \/
      duplicated_by_suffix ll left = []
      /\ duplicated_by_suffix rl right = []
      /\ (forall x, x ∈ ll -> x ∉ difference right (shared left right))
      /\ (forall x, x ∈ rl -> x ∉ difference left (shared left right))).
Proof.
  unfold items_overlap_with_suffix. fold (shared left right).
  intros H.
  destruct (shared left right) as [| t0 t] eqn:T.
  - injection H as <- <-. rewrite !map_renamer_nil. auto.
  - destruct (_ && _); [discriminate |].
    match type of H with
    | match ?d with _ => _ end = _ => destruct d as [| d0 ds] eqn:D; [| discriminate]
    end.
    injection H as <- <-.
    apply app_eq_nil in D as [D1 D].
    apply app_eq_nil in D as [D2 D].
    apply app_eq_nil in D as [D3 D4].
    split; [reflexivity |]. split; [reflexivity |]. right.
    split; [exact D1 |]. split; [exact D2 |]. split.
    + intros x Hx Hd. pose proof (filter_nil_none _ _ x D3 Hx) as F.
      simpl in F. by rewrite bool_decide_eq_true_2 in F.
    + intros x Hx Hd. pose proof (filter_nil_none _ _ x D4 Hx) as F.
      simpl in F. by rewrite bool_decide_eq_true_2 in F.
Qed.

(** When the old labels are unique and no suffix made a duplicate, the new
    labels are unique. *)
Lemma duplicated_by_suffix_from (sn so new old : list string) :
  map fst
    (List.filter (fun x => fst (snd x) && negb (snd (snd x)))
       (combine new (combine (duplicated sn new) (duplicated so old)))) = [] ->
  length new = length old ->
  NoDup old -> (forall z, z ∈ old -> z ∉ so) ->
  NoDup new /\ (forall z, z ∈ new -> z ∉ sn).
Proof.
  revert sn so old. induction new as [| x new IH]; intros sn so old H Hlen Hnd Hso.
  - split; [constructor | intros z Hz; by apply elem_of_nil in Hz].
  - destruct old as [| y old]; [discriminate |].
    simpl in Hlen. injection Hlen as Hlen.
    apply NoDup_cons in Hnd as [Hy Hnd].
    simpl in H.
    rewrite (bool_decide_eq_false_2 (y ∈ so)) in H by (apply Hso; left).
    destruct (bool_decide (x ∈ sn)) eqn:Hx; simpl in H; [discriminate |].
    apply bool_decide_eq_false in Hx.
    destruct (IH (x :: sn) (y :: so) old H Hlen Hnd) as [Hnew Hsn].
    { intros z Hz Hin. apply elem_of_cons in Hin as [-> | Hin]; [done |].
      apply (Hso z); [by right | done]. }
    split.
    + apply NoDup_cons. split; [| exact Hnew].
      intros Hin. apply (Hsn x Hin). left.
    + intros z Hz. apply elem_of_cons in Hz as [-> | Hz]; [exact Hx |].
      intros Hin. apply (Hsn z Hz). by right.
Qed.

Lemma duplicated_by_suffix_NoDup (new old : list string) :
  duplicated_by_suffix new old = [] -> length new = length old ->
  NoDup old -> NoDup new.
Proof.
  intros H Hlen Hnd.
  apply (duplicated_by_suffix_from [] [] new old H Hlen Hnd).
  intros z _. apply not_elem_of_nil.
Qed.

Lemma elem_of_map_renamer t suffix l x :
  x ∈ map (renamer t suffix) l ->
  (exists a, a ∈ l /\ a ∈ t /\ x = a +:+ suffix) \/ (x ∈ l /\ x ∉ t).
Proof.
  rewrite list_elem_of_In, in_map_iff. intros (a & <- & Ha).
  apply list_elem_of_In in Ha. unfold renamer.
  destruct (bool_decide (a ∈ t)) eqn:Ht.
  - apply bool_decide_eq_true in Ht. left. eauto.
  - apply bool_decide_eq_false in Ht. right. auto.
Qed.

(** The labels of a merge are unique when those of both sides are and the
    two suffixes cannot produce the same label. *)
Lemma items_overlap_NoDup left right lsuffix rsuffix ll rl :
  NoDup left -> NoDup right ->
  (forall x y, x ∈ shared left right -> y ∈ shared left right ->
               x +:+ lsuffix <> y +:+ rsuffix) ->
  items_overlap_with_suffix left right lsuffix rsuffix = Ok (ll, rl) ->
  NoDup (ll ++ rl).
Proof.
  intros Hl Hr Hsuf H.
  apply items_overlap_ok in H as (-> & -> & [T | (D1 & D2 & D3 & D4)]).
  - rewrite T, !map_renamer_nil. apply NoDup_app.
    split; [exact Hl |]. split; [| exact Hr].
    intros x Hx Hx'.
    assert (x ∈ shared left right) as Hs by (by apply elem_of_shared).
    rewrite T in Hs. by apply elem_of_nil in Hs.
  - apply NoDup_app. split; [| split].
    + apply (duplicated_by_suffix_NoDup _ left); [exact D1 | apply length_map | exact Hl].
    + intros x Hx Hx'.
      apply elem_of_map_renamer in Hx as [(a & Ha & Hat & ->) | [Hx Hxt]];
        apply elem_of_map_renamer in Hx' as [(b & Hb & Hbt & Hx') | [Hx' Hxt']].
      * by apply (Hsuf a b).
      * apply (D3 (a +:+ lsuffix)).
        -- apply list_elem_of_In, in_map_iff. exists a.
           split; [| by apply list_elem_of_In].
           unfold renamer. by rewrite bool_decide_eq_true_2.
        -- by apply elem_of_difference.
      * subst x. apply (D4 (b +:+ rsuffix)).
        -- apply list_elem_of_In, in_map_iff. exists b.
           split; [| by apply list_elem_of_In].
           unfold renamer. by rewrite bool_decide_eq_true_2.
        -- by apply elem_of_difference.
      * apply Hxt. by apply elem_of_shared.
    + apply (duplicated_by_suffix_NoDup _ right); [exact D2 | apply length_map | exact Hr].
Qed.

(** ** The shape of a merge *)

Lemma zip_with_relabel_map (f : string -> string) (g : Series -> Series)
      (cols : list Series) :
  zip_with relabel (map f (map name cols)) (map g cols) =
  map (fun c => relabel (f (name c)) (g c)) cols.
Proof. induction cols as [| c cols IH]; simpl; [reflexivity | by rewrite IH]. Qed.

(** The columns of a merge: those of the left table at the left positions
    of the join, then those of the right table at the right positions,
    each under its new label. *)
Lemma merge_ok left right on lsuffix rsuffix m :
  merge left right on lsuffix rsuffix = Ok m ->
  exists lk rk,
    getitem left on = Ok lk /\ getitem right on = Ok rk
    /\ (exists new, items_overlap_with_suffix (labels left)
                      (map name (right_columns right on)) lsuffix rsuffix = Ok new)
    /\ let t := shared (labels left) (map name (right_columns right on)) in
       let pairs := inner_join 0 (values lk) (values rk) in
       m = mkFrame (length pairs)
             (map (fun c => relabel (renamer t lsuffix (name c))
                                    (take (map fst pairs) c)) (columns left)
              ++ map (fun c => relabel (renamer t rsuffix (name c))
                                       (take (map snd pairs) c))
                     (right_columns right on)).
Proof.
  unfold merge. fold (right_columns right on). intros H.
  res_inv H as lk Elk. res_inv H as rk Erk.
  res_inv H as u1 E1. res_inv H as u2 E2. res_inv H as u3 E3.
  res_inv H as new Enew. destruct new as [ll rl].
  exists lk, rk. split; [assumption |]. split; [assumption |].
  split; [eauto |]. cbv zeta.
  injection H as <-. simpl.
  apply items_overlap_ok in Enew as (-> & -> & _).
  unfold labels. by rewrite !zip_with_relabel_map.
Qed.

Lemma merge_labels left right on lsuffix rsuffix m :
  merge left right on lsuffix rsuffix = Ok m ->
  exists ll rl,
    items_overlap_with_suffix (labels left) (map name (right_columns right on))
      lsuffix rsuffix = Ok (ll, rl)
    /\ labels m = ll ++ rl.
Proof.
  intros H. apply merge_ok in H as (lk & rk & _ & _ & [[ll rl] Hnew] & ->).
  exists ll, rl. split; [exact Hnew |].
  apply items_overlap_ok in Hnew as (-> & -> & _).
  unfold labels. simpl. rewrite map_app, !map_map. reflexivity.
Qed.

Lemma NoDup_names_filter (f : Series -> bool) (cols : list Series) :
  NoDup (map name cols) -> NoDup (map name (List.filter f cols)).
Proof.
  induction cols as [| c cols IH]; simpl; intros Hnd; [constructor |].
  apply NoDup_cons in Hnd as [Hc Hnd]. destruct (f c); simpl; [| by apply IH].
  apply NoDup_cons. split; [| by apply IH].
  intros Hin. apply Hc.
  apply list_elem_of_In, in_map_iff in Hin as (c' & Hn & Hin).
  apply filter_In in Hin as [Hin _].
  apply list_elem_of_In, in_map_iff. eauto.
Qed.

Lemma merge_NoDup left right on lsuffix rsuffix m :
  NoDup (labels left) -> NoDup (labels right) ->
  (forall x y, x +:+ lsuffix <> y +:+ rsuffix) ->
  merge left right on lsuffix rsuffix = Ok m ->
  NoDup (labels m).
Proof.
  intros Hl Hr Hsuf H.
  apply merge_labels in H as (ll & rl & Hnew & ->).
  eapply items_overlap_NoDup; [exact Hl | | | exact Hnew].
  - by apply NoDup_names_filter.
  - intros x y _ _. apply Hsuf.
Qed.

(** ** The positions of an inner join *)

Lemma positions_spec a j0 rk j :
  j ∈ positions a j0 rk ->
  j0 <= j /\ j < j0 + length rk /\ nth (j - j0) rk VNull = a.
Proof.
  revert j0. induction rk as [| b rk IH]; intros j0 H; simpl in H.
  - by apply elem_of_nil in H.
  - assert (j ∈ positions a (S j0) rk ->
            j0 <= j /\ j < j0 + length (b :: rk) /\ nth (j - j0) (b :: rk) VNull = a)
      as Hrec.
    { intros H'. apply IH in H' as (H1 & H2 & H3). simpl.
      split; [lia |]. split; [lia |].
      replace (j - j0) with (S (j - S j0)) by lia. exact H3. }
    destruct (bool_decide (a = b)) eqn:Hab; [| by apply Hrec].
    apply elem_of_cons in H as [-> | H]; [| by apply Hrec].
    apply bool_decide_eq_true in Hab. simpl.
    split; [lia |]. split; [lia |]. by rewrite Nat.sub_diag.
Qed.

(** Every pair of the join is in range on both sides and joins two equal
    keys. *)
Lemma inner_join_spec i0 lk rk i j :
  (i, j) ∈ inner_join i0 lk rk ->
  i0 <= i /\ i < i0 + length lk /\ j < length rk
  /\ nth (i - i0) lk VNull = nth j rk VNull.
Proof.
  revert i0. induction lk as [| a lk IH]; intros i0 H; simpl in H.
  - by apply elem_of_nil in H.
  - apply elem_of_app in H as [H | H].
    + apply list_elem_of_In, in_map_iff in H as (j' & Heq & Hj).
      injection Heq as <- <-.
      apply list_elem_of_In, positions_spec in Hj as (_ & H2 & H3).
      simpl in *. rewrite Nat.sub_0_r in H3. rewrite Nat.sub_diag.
      split; [lia |]. split; [lia |]. split; [lia | by rewrite H3].
    + apply IH in H as (H1 & H2 & H3 & H4). simpl.
      split; [lia |]. split; [lia |]. split; [exact H3 |].
      replace (i - i0) with (S (i - S i0)) by lia. exact H4.
Qed.

(** ** Taking rows, and dropping duplicate rows *)

Lemma take_values_in idx c v :
  (forall i, i ∈ idx -> i < length (values c)) ->
  v ∈ values (take idx c) -> v ∈ values c.
Proof.
  intros Hidx Hv. simpl in Hv.
  apply list_elem_of_In, in_map_iff in Hv as (i & <- & Hi).
  apply list_elem_of_In, nth_In, Hidx, list_elem_of_In, Hi.
Qed.

Lemma first_occurrences_range seen i0 l i :
  i ∈ first_occurrences seen i0 l -> i0 <= i /\ i < i0 + length l.
Proof.
  revert seen i0. induction l as [| r l IH]; intros seen i0 H; simpl in H.
  - by apply elem_of_nil in H.
  - destruct (bool_decide (r ∈ seen)).
    + apply IH in H. simpl. lia.
    + apply elem_of_cons in H as [-> | H]; [simpl; lia |].
      apply IH in H. simpl. lia.
Qed.

(** The rows at the positions kept are pairwise different, and none of
    them was seen before. *)
Lemma first_occurrences_NoDup seen i0 (l : list (list value)) :
  NoDup (map (fun i => nth (i - i0) l []) (first_occurrences seen i0 l))
  /\ forall i, i ∈ first_occurrences seen i0 l -> nth (i - i0) l [] ∉ seen.
Proof.
  revert seen i0. induction l as [| r l IH]; intros seen i0;
    cbn [first_occurrences].
  - split; [constructor | intros i Hi; by apply elem_of_nil in Hi].
  - assert (forall s i, i ∈ first_occurrences s (S i0) l ->
                        nth (i - i0) (r :: l) [] = nth (i - S i0) l []) as Hshift.
    { intros s i Hi. apply first_occurrences_range in Hi.
      replace (i - i0) with (S (i - S i0)) by lia. reflexivity. }
    destruct (bool_decide (r ∈ seen)) eqn:Hr.
    + destruct (IH seen (S i0)) as [Hnd Hseen]. split.
      * erewrite map_ext_in; [exact Hnd |].
        intros i Hi. eapply Hshift, list_elem_of_In, Hi.
      * intros i Hi. erewrite Hshift by exact Hi. by apply Hseen.
    + apply bool_decide_eq_false in Hr.
      destruct (IH (r :: seen) (S i0)) as [Hnd Hseen]. split.
      * cbn [map]. rewrite Nat.sub_diag. change (nth 0 (r :: l) []) with r.
        apply NoDup_cons. split.
        -- intros Hin. apply list_elem_of_In, in_map_iff in Hin as (i & Heq & Hi).
           apply list_elem_of_In in Hi.
           erewrite Hshift in Heq by exact Hi.
           apply (Hseen i Hi). rewrite Heq. left.
        -- erewrite map_ext_in; [exact Hnd |].
           intros i Hi. eapply Hshift, list_elem_of_In, Hi.
      * intros i Hi. apply elem_of_cons in Hi as [-> | Hi].
        -- by rewrite Nat.sub_diag.
        -- erewrite Hshift by exact Hi.
           intros Hin. apply (Hseen i Hi). by right.
Qed.

Lemma drop_duplicates_ok df e :
  drop_duplicates df = Ok e ->
  (empty df = true /\ e = df)
  \/ (empty df = false /\ e = take_rows (first_occurrences [] 0 (rows df)) df).
Proof.
  unfold drop_duplicates. destruct (empty df).
  - intros H. injection H as <-. auto.
  - intros H. res_inv H as u Eu. injection H as <-. auto.
Qed.

Lemma labels_take_rows idx df : labels (take_rows idx df) = labels df.
Proof. unfold labels. simpl. rewrite map_map. reflexivity. Qed.

Lemma drop_duplicates_labels df e :
  drop_duplicates df = Ok e -> labels e = labels df.
Proof.
  intros H. apply drop_duplicates_ok in H as [[_ ->] | [_ ->]];
    [reflexivity | apply labels_take_rows].
Qed.

Lemma rows_length df : length (rows df) = nrows df.
Proof. unfold rows. by rewrite length_map, length_seq. Qed.

Lemma nth_rows df i : i < nrows df -> nth i (rows df) [] = row df i.
Proof.
  intros Hi. unfold rows.
  rewrite (nth_indep _ [] (row df 0)) by (by rewrite length_map, length_seq).
  rewrite (map_nth (row df)), seq_nth by exact Hi. reflexivity.
Qed.

Lemma rows_take_rows idx df :
  rows (take_rows idx df) = map (row df) idx.
Proof.
  apply (nth_ext _ _ [] []).
  - by rewrite rows_length, length_map.
  - intros k Hk. rewrite rows_length in Hk. simpl in Hk.
    rewrite nth_rows by exact Hk.
    rewrite (nth_indep _ [] (row df 0)) by (by rewrite length_map).
    rewrite (map_nth (row df)).
    unfold row. simpl. rewrite map_map. apply map_ext. intros c. simpl.
    rewrite (nth_indep _ VNull (nth 0 (values c) VNull)) by (by rewrite length_map).
    by rewrite (map_nth (fun i => nth i (values c) VNull)).
Qed.

(** After [drop_duplicates] no two rows of a table with at least one
    column are equal. *)
Lemma drop_duplicates_NoDup df e :
  drop_duplicates df = Ok e -> columns df <> [] -> NoDup (rows e).
Proof.
  intros H Hcols. apply drop_duplicates_ok in H as [[He ->] | [_ ->]].
  - unfold empty in He. apply orb_true_iff in He as [He | He].
    + apply Nat.eqb_eq in He. unfold rows. rewrite He. constructor.
    + apply Nat.eqb_eq in He. destruct (columns df); [done | discriminate].
  - rewrite rows_take_rows.
    destruct (first_occurrences_NoDup [] 0 (rows df)) as [Hnd _].
    erewrite map_ext_in; [exact Hnd |].
    intros i Hi. apply list_elem_of_In, first_occurrences_range in Hi.
    rewrite rows_length in Hi. cbv beta. rewrite Nat.sub_0_r.
    symmetry. apply nth_rows. lia.
Qed.

Lemma rows_rename df mapper : rows (rename df mapper) = rows df.
Proof.
  unfold rows, rename. simpl. apply map_ext. intros i.
  unfold row. simpl. rewrite map_map. reflexivity.
Qed.

Lemma aligned_take_rows idx df : aligned (take_rows idx df).
Proof.
  unfold aligned. simpl. apply Forall_forall. intros c Hc.
  apply list_elem_of_In, in_map_iff in Hc as (c0 & <- & _).
  simpl. by rewrite length_map.
Qed.

Lemma drop_duplicates_aligned df e :
  drop_duplicates df = Ok e -> aligned df \/ 0 < nrows df -> columns df <> [] ->
  aligned e.
Proof.
  intros H Hal Hcols. apply drop_duplicates_ok in H as [[He ->] | [_ ->]].
  - destruct Hal as [Hal | Hn]; [exact Hal |].
    unfold empty in He. apply orb_true_iff in He as [He | He];
      apply Nat.eqb_eq in He; [lia |].
    destruct (columns df); [done | discriminate].
  - apply aligned_take_rows.
Qed.

(** ** Assigning and converting columns *)

Lemma nrows_setitem df key s : nrows (setitem df key s) = nrows df.
Proof. unfold setitem. by destruct (has_column key df). Qed.

Lemma labels_setitem df key s :
  labels (setitem df key s) =
  if has_column key df then labels df else labels df ++ [key].
Proof.
  unfold setitem, labels. destruct (has_column key df); simpl.
  - rewrite map_map. apply map_ext_in. intros c _.
    destruct (bool_decide (name c = key)) eqn:Hc; [| reflexivity].
    by apply bool_decide_eq_true in Hc.
  - by rewrite map_app.
Qed.

Lemma find_name_none (cols : list Series) key :
  key ∉ map name cols ->
  List.find (fun c => bool_decide (name c = key)) cols = None.
Proof.
  intros Hk. destruct (List.find _ cols) as [c|] eqn:F; [| reflexivity].
  apply find_some in F as [Hin Hn]. apply bool_decide_eq_true in Hn.
  exfalso. apply Hk. subst key. by apply list_elem_of_In, in_map.
Qed.

Lemma getitem_setitem_eq df key s :
  getitem (setitem df key s) key = Ok (mkSeries key (dtype_of s) (values s)).
Proof.
  unfold setitem, getitem. destruct (has_column key df) eqn:Hk; simpl.
  - apply bool_decide_eq_true in Hk. unfold labels in Hk.
    induction (columns df) as [| c cols IH]; [by apply elem_of_nil in Hk |].
    simpl. destruct (bool_decide (name c = key)) eqn:Hc; simpl.
    + by rewrite bool_decide_eq_true_2.
    + rewrite Hc. apply IH. simpl in Hk. apply elem_of_cons in Hk as [Hk | Hk]; [| done].
      apply bool_decide_eq_false in Hc. by subst.
  - apply bool_decide_eq_false in Hk. unfold labels in Hk.
    induction (columns df) as [| c cols IH]; simpl.
    + by rewrite bool_decide_eq_true_2.
    + rewrite bool_decide_eq_false_2.
      * apply IH. intros Hin. apply Hk. simpl. by right.
      * intros Hc. apply Hk. simpl. subst. left.
Qed.

Lemma getitem_setitem_ne df key s k :
  key <> k -> getitem (setitem df key s) k = getitem df k.
Proof.
  intros Hne. unfold setitem, getitem. destruct (has_column key df); simpl.
  - induction (columns df) as [| c cols IH]; [reflexivity |]. simpl.
    destruct (bool_decide (name c = key)) eqn:Hc; simpl.
    + apply bool_decide_eq_true in Hc.
      rewrite !bool_decide_eq_false_2 by congruence.
      destruct (List.find _ (map _ cols)), (List.find _ cols); congruence.
    + destruct (bool_decide (name c = k)); [reflexivity |].
      destruct (List.find _ (map _ cols)), (List.find _ cols); congruence.
  - induction (columns df) as [| c cols IH]; simpl.
    + by rewrite bool_decide_eq_false_2.
    + destruct (bool_decide (name c = k)); [reflexivity |].
      destruct (List.find _ (cols ++ _)), (List.find _ cols); congruence.
Qed.

Lemma aligned_setitem df key s :
  aligned df -> length (values s) = nrows df -> aligned (setitem df key s).
Proof.
  unfold aligned, setitem. intros Hal Hs.
  destruct (has_column key df); simpl.
  - apply Forall_forall. intros c Hc.
    apply list_elem_of_In, in_map_iff in Hc as (c0 & <- & Hc0).
    destruct (bool_decide (name c0 = key)); [exact Hs |].
    rewrite Forall_forall in Hal. by apply Hal, list_elem_of_In.
  - apply Forall_app. split; [exact Hal |]. by constructor.
Qed.

Lemma aligned_getitem df key c :
  aligned df -> getitem df key = Ok c -> length (values c) = nrows df.
Proof.
  intros Hal H. apply getitem_in in H as [Hin _].
  unfold aligned in Hal. rewrite Forall_forall in Hal. by apply Hal.
Qed.

Lemma astype_ok df key e :
  astype df key = Ok e ->
  has_column key df = true /\ nrows e = nrows df /\ labels e = labels df
  /\ (aligned df -> aligned e)
  /\ (forall k, k <> key -> getitem e k = getitem df k).
Proof.
  unfold astype. destruct (has_column key df); [| discriminate].
  intros H. injection H as <-. split; [reflexivity |]. split; [reflexivity |].
  split; [| split].
  - unfold labels. simpl. rewrite map_map. apply map_ext. intros c.
    by destruct (bool_decide (name c = key)).
  - unfold aligned. simpl. intros Hal. apply Forall_forall. intros c Hc.
    apply list_elem_of_In, in_map_iff in Hc as (c0 & <- & Hc0).
    rewrite Forall_forall in Hal. apply list_elem_of_In, Hal in Hc0.
    destruct (bool_decide (name c0 = key)); [| exact Hc0].
    simpl. by rewrite length_map.
  - intros k Hk. unfold getitem. simpl.
    induction (columns df) as [| c cols IH]; [reflexivity |]. simpl.
    destruct (bool_decide (name c = key)) eqn:Hc; simpl.
    + apply bool_decide_eq_true in Hc.
      rewrite !bool_decide_eq_false_2 by congruence.
      destruct (List.find _ (map _ cols)), (List.find _ cols); congruence.
    + destruct (bool_decide (name c = k)); [reflexivity |].
      destruct (List.find _ (map _ cols)), (List.find _ cols); congruence.
Qed.

Lemma fillna_ids v n :
  map (fun x => if isnull x then v else x) (ids n) = ids n.
Proof. unfold ids. rewrite map_map. reflexivity. Qed.

(** ** Exploding a column *)

Lemma explode_positions_length i l :
  length (explode_positions i l) = length (concat (map explode_cell l)).
Proof.
  revert i. induction l as [| v l IH]; intros i; simpl; [reflexivity |].
  by rewrite !length_app, repeat_length, IH.
Qed.

Lemma explode_ok df column e :
  explode df column = Ok e ->
  NoDup (labels df) /\ labels e = labels df /\ (e = df \/ aligned e).
Proof.
  unfold explode. destruct (bool_decide (NoDup (labels df))) eqn:Hnd;
    [| discriminate]. apply bool_decide_eq_true in Hnd. simpl.
  intros H. res_inv H as c Ec. split; [exact Hnd |].
  destruct (dtype_of c); try (injection H as <-; auto).
  split.
  - unfold labels. simpl. rewrite map_map. apply map_ext. intros c'.
    destruct (bool_decide (name c' = column)) eqn:Hc; [| reflexivity].
    apply bool_decide_eq_true in Hc. apply getitem_in in Ec as [_ Ec].
    simpl. congruence.
  - right. unfold aligned. simpl. apply Forall_forall. intros c' Hc'.
    apply list_elem_of_In, in_map_iff in Hc' as (c0 & <- & _).
    destruct (bool_decide (name c0 = column)); simpl.
    + by rewrite explode_positions_length.
    + by rewrite length_map.
Qed.

(* ===================================================================== *)
(** * What a call that returns has computed                               *)
(* ===================================================================== *)

Lemma split_with_foreign_key_ok df key_col h h' child parent :
  split_with_foreign_key df key_col h = (h', Ok (child, parent)) ->
  exists d col merged,
    h !! df = Some (PyDataFrame d)
    /\ 2 <= nrows d
    /\ getitem d key_col = Ok col
    /\ parent_of d key_col parent
    /\ merge (setitem d key_col (fillna Unknown col)) parent key_col
         EmptyString "_parent" = Ok merged
    /\ drop (rename merged [("id_parent", key_col +:+ "_id")]) key_col = Ok child.
Proof.
  intros H. unfold split_with_foreign_key in H.
  step H d Ed. check H E1. check H E2. check H E3. step H col Ecol.
  check H E4. check H E5. step H n En. check H E6. step H n1 En1.
  check H E7. check H E8.
  step H p0 Ep0. res_inv Ep0 as p00 Ep00. step H p1 Ep1. step H u Est. subst.
  step H pcol Epcol. step H d1 Ed1. step H merged Em. step H c Ec.
  apply ret_ok in H as [H _]. injection H as <- <-.
  rewrite lookup_insert_eq in Ed1. injection Ed1 as <-.
  exists d, col, merged. split; [exact Ed |]. split.
  { apply Nat.ltb_ge in E2. exact E2. }
  split; [exact Ecol |]. split; [| by split].
  exists p00, p0, p1, pcol. by repeat split.
Qed.

Lemma split_many_to_many_ok df left_col right_col sep h h' left right junction :
  split_many_to_many df left_col right_col sep h = (h', Ok (left, right, junction)) ->
  exists d d1,
    h !! df = Some (PyDataFrame d)
    /\ 2 <= nrows d
    /\ nrows d1 = nrows d /\ labels d1 = labels d
    /\ many_to_many_steps d1 left_col right_col left right junction.
Proof.
  intros H. unfold split_many_to_many in H.
  step H d Ed. check H E1. check H E2. check H E3. check H E4.
  step H lcol Elcol. check H E5. step H rcol Ercol. check H E6.
  step H n En. check H E7.
  step H d1 Ed1.
  assert (nrows d1 = nrows d /\ labels d1 = labels d) as [Hn Hl].
  { destruct sep as [s|].
    - step Ed1 new Enew. apply ret_ok in Ed1 as [<- _].
      rewrite nrows_setitem, labels_setitem.
      apply negb_false_iff in E4. by rewrite E4.
    - apply ret_ok in Ed1 as [<- _]. done. }
  assert (h0 = h) as ->.
  { destruct sep as [s|].
    - step Ed1 new Enew. by apply ret_ok in Ed1 as [_ ->].
    - by apply ret_ok in Ed1 as [_ ->]. }
  step H e Ee. step H left0 El. res_inv El as l0 El0.
  step H r0 Er. res_inv Er as r00 Er00. step H r1 Er1. step H rvals Erv.
  step H j Ej. res_inv Ej as m1 Em1. res_inv Ej as m2 Em2.
  res_inv Ej as p Ep. res_inv Ej as j0 Ej0. injection Ej as <-.
  apply ret_ok in H as [H _]. injection H as <- <- <-.
  exists d, d1. split; [exact Ed |]. split.
  { apply Nat.ltb_ge in E2. exact E2. }
  split; [exact Hn |]. split; [exact Hl |].
  by econstructor.
Qed.

(* ===================================================================== *)
(** * Dense ids                                                           *)
(* ===================================================================== *)

Lemma getitem_list_ok d keys e :
  getitem_list d keys = Ok e ->
  exists cs, select (columns d) keys = Ok cs /\ e = mkFrame (nrows d) cs.
Proof.
  unfold getitem_list. intros H. res_inv H as cs Ecs. injection H as <-. eauto.
Qed.

Lemma select_nonempty cols k keys cs :
  select cols (k :: keys) = Ok cs -> cs <> [].
Proof.
  simpl. destruct (List.filter _ cols) as [| c found]; [discriminate |].
  intros H. res_inv H as rest Er. injection H as <-. discriminate.
Qed.

Lemma index_plus_1_values df : values (index_plus_1 df) = ids (nrows df).
Proof. reflexivity. Qed.

Lemma ids_length n : length (ids n) = n.
Proof. unfold ids. by rewrite length_map, length_seq. Qed.

(** An entity table built by the two functions: [key] deduplicated, then
    numbered. *)
Lemma numbered_aligned (t : DataFrame) :
  aligned t -> aligned (setitem t "id" (index_plus_1 t)).
Proof.
  intros Hal. apply aligned_setitem; [exact Hal |].
  by rewrite index_plus_1_values, ids_length.
Qed.

Lemma parent_dense d key_col parent :
  2 <= nrows d -> parent_of d key_col parent -> dense_ids parent.
Proof.
  intros Hn (p00 & p0 & p1 & pcol & Hsel & Hdd & Hast & Hpcol & ->).
  apply getitem_list_ok in Hsel as (cs & Hcs & ->).
  pose proof (select_nonempty _ _ _ _ Hcs) as Hne.
  assert (aligned p0) as Hp0.
  { eapply drop_duplicates_aligned; [exact Hdd | right; simpl; lia | exact Hne]. }
  apply astype_ok in Hast as (_ & Hn1 & _ & Hal1 & _).
  pose proof (numbered_aligned p1 (Hal1 Hp0)) as Hq.
  pose proof (aligned_getitem _ _ _ Hq Hpcol) as Hlen.
  unfold dense_ids. split.
  - rewrite !nrows_setitem. destruct (decide (key_col = "id")) as [-> | Hk].
    + rewrite getitem_setitem_eq in Hpcol. injection Hpcol as <-.
      rewrite getitem_setitem_eq. eexists. split; [reflexivity |].
      simpl. apply fillna_ids.
    + rewrite getitem_setitem_ne by exact Hk.
      rewrite getitem_setitem_eq. eexists. split; reflexivity.
  - apply aligned_setitem; [exact Hq |].
    simpl. rewrite length_map. exact Hlen.
Qed.

(** ** The labels on the way to the junction table *)

Lemma names_right_columns df on :
  map name (right_columns df on) =
  List.filter (fun x => negb (bool_decide (x = on))) (labels df).
Proof.
  unfold right_columns, labels.
  induction (columns df) as [| c cols IH]; simpl; [reflexivity |].
  destruct (bool_decide (name c = on)); simpl; by rewrite IH.
Qed.

Lemma NoDup_filter_bool {A} (f : A -> bool) (l : list A) :
  NoDup l -> NoDup (List.filter f l).
Proof.
  induction l as [| x l IH]; simpl; intros Hnd; [constructor |].
  apply NoDup_cons in Hnd as [Hx Hnd]. destruct (f x); [| by apply IH].
  apply NoDup_cons. split; [| by apply IH].
  intros Hin. apply Hx. apply list_elem_of_In, filter_In in Hin as [Hin _].
  by apply list_elem_of_In.
Qed.

Lemma shared_nil_r (l : list string) : shared l [] = [].
Proof.
  unfold shared. induction l as [| x l IH]; simpl; [reflexivity |].
  destruct (bool_decide (x ∈ [])) eqn:E; [| exact IH].
  apply bool_decide_eq_true in E. by apply elem_of_nil in E.
Qed.

Section Steps.

Context {d1 : DataFrame} {left_col right_col : string}
        {left right junction : DataFrame}.
Hypothesis steps : many_to_many_steps d1 left_col right_col left right junction.

Lemma steps_labels_unique : NoDup (labels d1).
Proof. destruct steps. by apply explode_ok in Hexplode as [H _]. Qed.

(** The left table has the labels of the input but the right column. *)
Lemma steps_labels_left :
  labels left =
  List.filter (fun c => negb (bool_decide (c = right_col))) (labels d1).
Proof.
  pose proof steps_labels_unique as Hnd. destruct steps.
  apply getitem_list_ok in Hselect_left as (cs & Hcs & ->).
  rewrite (drop_duplicates_labels _ _ Hleft). unfold labels. simpl.
  exact (select_names _ _ _ Hcs Hnd).
Qed.

(** The right table has the right column and the ids, or the ids alone
    when the right column is itself called [id]. *)
Lemma steps_labels_right :
  labels right = if bool_decide (right_col = "id") then ["id"]
                 else [right_col; "id"].
Proof.
  pose proof steps_labels_unique as Hnd. destruct steps.
  apply explode_ok in Hexplode as (_ & Hle & _).
  apply getitem_list_ok in Hselect_right as (cs & Hcs & ->).
  assert (labels r0 = [right_col]) as Hr0.
  { rewrite (drop_duplicates_labels _ _ Hdistinct). unfold labels. simpl.
    apply (select_names _ _ _ Hcs). fold (labels exploded). by rewrite Hle. }
  apply astype_ok in Hastype as (Hhas & _ & Hl1 & _).
  subst right. rewrite labels_setitem.
  assert (has_column right_col r1 = true) as ->.
  { unfold has_column in *. by rewrite Hl1. }
  rewrite Hl1, labels_setitem. unfold has_column. rewrite Hr0.
  destruct (decide (right_col = "id")) as [-> | Hne].
  - rewrite bool_decide_eq_true_2 by left. by rewrite bool_decide_eq_true_2.
  - rewrite bool_decide_eq_false_2.
    + by rewrite bool_decide_eq_false_2.
    + intros Hin. apply list_elem_of_singleton in Hin. congruence.
Qed.

Lemma steps_labels_m1_unique (m1 : DataFrame) exploded :
  explode d1 right_col = Ok exploded ->
  merge exploded left left_col "_x" "_y" = Ok m1 -> NoDup (labels m1).
Proof.
  intros He Hm. pose proof steps_labels_unique as Hnd.
  apply explode_ok in He as (_ & Hle & _).
  eapply merge_NoDup; [| | apply suffix_x_y | exact Hm].
  - by rewrite Hle.
  - rewrite steps_labels_left. by apply NoDup_filter_bool.
Qed.

Lemma steps_labels_right_unique : NoDup (labels right).
Proof.
  rewrite steps_labels_right.
  destruct (bool_decide (right_col = "id")) eqn:Hr.
  - apply NoDup_singleton.
  - apply bool_decide_eq_false in Hr. apply NoDup_cons. split.
    + intros Hin. apply list_elem_of_singleton in Hin. congruence.
    + apply NoDup_singleton.
Qed.

(** A label of the first merge is one of the two column arguments or
    carries a suffix. *)
Lemma steps_labels_m1 (m1 : DataFrame) exploded x :
  explode d1 right_col = Ok exploded ->
  merge exploded left left_col "_x" "_y" = Ok m1 ->
  x ∈ labels m1 ->
  x = left_col \/ x = right_col
  \/ (exists a, x = a +:+ "_x") \/ (exists a, x = a +:+ "_y").
Proof.
  intros He Hm Hx.
  apply explode_ok in He as (_ & Hle & _).
  apply merge_labels in Hm as (ll & rl & Hnew & Hm). rewrite Hm in Hx.
  apply items_overlap_ok in Hnew as (-> & -> & _).
  rewrite names_right_columns, steps_labels_left, Hle in Hx.
  set (others := List.filter _ (List.filter _ (labels d1))) in Hx.
  assert (forall y, y ∈ labels d1 -> y ∉ others -> y = left_col \/ y = right_col)
    as Hcase.
  { intros y Hy Hny.
    destruct (decide (y = right_col)) as [-> | H1]; [by right |].
    destruct (decide (y = left_col)) as [-> | H2]; [by left |].
    exfalso. apply Hny. unfold others.
    apply list_elem_of_In, filter_In. split.
    - apply filter_In. split; [by apply list_elem_of_In |].
      by rewrite bool_decide_eq_false_2.
    - by rewrite bool_decide_eq_false_2. }
  assert (forall y, y ∈ others -> y ∈ labels d1) as Hsub.
  { intros y Hy. unfold others in Hy.
    apply list_elem_of_In, filter_In in Hy as [Hy _].
    apply filter_In in Hy as [Hy _]. by apply list_elem_of_In. }
  apply elem_of_app in Hx as [Hx | Hx];
    apply elem_of_map_renamer in Hx as [(a & _ & _ & ->) | [Hx Hnt]]; eauto.
  - destruct (Hcase x Hx) as [-> | ->]; auto.
    intros Hin. apply Hnt. apply elem_of_shared. split; [exact Hx | exact Hin].
  - exfalso. apply Hnt. apply elem_of_shared. split; [by apply Hsub | exact Hx].
Qed.

(** A call that returns was not given a right column called [id]: the
    ids would overwrite it, the second merge would add no suffix and
    the projection would find neither [id_left] nor [id_right]. *)
Lemma steps_right_col_not_id : right_col <> "id".
Proof.
  intros Hid. pose proof steps_labels_right as Hlr.
  rewrite bool_decide_eq_true_2 in Hlr by exact Hid.
  destruct steps.
  pose proof (steps_labels_m1 m1 exploded) as Hcases.
  apply merge_labels in Hmerge2 as (ll & rl & Hnew & Hm2).
  rewrite names_right_columns, Hlr in Hnew. subst right_col. simpl in Hnew.
  apply items_overlap_ok in Hnew as (-> & -> & _).
  rewrite shared_nil_r, map_renamer_nil in Hm2. simpl in Hm2.
  rewrite app_nil_r in Hm2.
  apply getitem_list_ok in Hproject as (cs & Hcs & _).
  assert ("id_left" ∈ labels m1) as H1.
  { rewrite <- Hm2. apply (select_has _ _ _ _ Hcs). left. }
  assert ("id_right" ∈ labels m1) as H2.
  { rewrite <- Hm2. apply (select_has _ _ _ _ Hcs). right. left. }
  apply Hcases in H1 as [H1 | [H1 | [[a H1] | [a H1]]]]; try done;
    try (symmetry in H1; suffix_clash H1).
  apply Hcases in H2 as [H2 | [H2 | [[a H2] | [a H2]]]]; try done;
    try (symmetry in H2; suffix_clash H2).
  congruence.
Qed.

(** The right table has dense ids. *)
Lemma steps_right_dense : 2 <= nrows d1 -> dense_ids right.
Proof.
  intros Hn. pose proof steps_right_col_not_id as Hne. destruct steps.
  apply explode_ok in Hexplode as (_ & _ & Hshape).
  apply getitem_list_ok in Hselect_right as (cs & Hcs & ->).
  pose proof (select_nonempty _ _ _ _ Hcs) as Hcs_ne.
  assert (aligned r0) as Hr0.
  { eapply drop_duplicates_aligned; [exact Hdistinct | | exact Hcs_ne].
    destruct Hshape as [-> | Hal]; [right; simpl; lia | left].
    unfold aligned in *. simpl. rewrite Forall_forall in *.
    intros c Hc. apply Hal. eapply select_in; [exact Hcs | exact Hc]. }
  pose proof (numbered_aligned r0 Hr0) as Hq.
  apply astype_ok in Hastype as (_ & Hn1 & _ & Hal1 & Hget).
  pose proof (aligned_getitem _ _ _ (Hal1 Hq) Hgetitem) as Hlen.
  subst right. unfold dense_ids. split.
  - rewrite nrows_setitem, Hn1, nrows_setitem.
    rewrite getitem_setitem_ne by exact Hne.
    rewrite Hget by congruence. rewrite getitem_setitem_eq.
    eexists. split; reflexivity.
  - apply aligned_setitem; [by apply Hal1 |].
    simpl. rewrite length_map. exact Hlen.
Qed.

(** The junction table has two columns, [title_id] and the right
    column's name followed by [_id]. *)
Lemma steps_junction_labels :
  labels junction = ["title_id"; right_col +:+ "_id"].
Proof.
  pose proof steps_labels_unique as Hnd.
  pose proof steps_labels_right_unique as Hndr.
  destruct steps.
  pose proof (steps_labels_m1_unique m1 exploded Hexplode Hmerge1) as Hnd1.
  assert (NoDup (labels m2)) as Hnd2.
  { eapply merge_NoDup; [exact Hnd1 | exact Hndr | apply suffix_left_right
                         | exact Hmerge2]. }
  apply getitem_list_ok in Hproject as (cs & Hcs & ->).
  apply (select_names _ _ _ Hcs) in Hnd2.
  subst junction. apply drop_duplicates_labels in Hdedup.
  unfold labels in *. simpl in *. rewrite map_map. simpl.
  rewrite <- (map_map name), Hdedup, Hnd2. reflexivity.
Qed.

End Steps.

(** C4.  The [id] column of the parent table of [split_with_foreign_key]
    and of the right table of [split_many_to_many] is exactly 1, 2, ..., N,
    where N is the number of rows of that table (and every column of the
    table has N cells): no gap, no duplicate. *)
Theorem entity_ids_dense :
  (forall df key_col h h' child parent,
      split_with_foreign_key df key_col h = (h', Ok (child, parent)) ->
      dense_ids parent)
  /\ (forall df left_col right_col sep h h' left right junction,
         split_many_to_many df left_col right_col sep h
         = (h', Ok (left, right, junction)) ->
         dense_ids right).
Proof.
  split.
  - intros df key_col h h' child parent H.
    apply split_with_foreign_key_ok in H as (d & col & merged & _ & Hn & _ & Hp & _).
    by eapply parent_dense.
  - intros df left_col right_col sep h h' left right junction H.
    apply split_many_to_many_ok in H as (d & d1 & _ & Hn & Hn1 & _ & Hsteps).
    apply (steps_right_dense Hsteps). lia.
Qed.

(** The theorem on [titles]: the parent of the split on [type] and the
    right table of the split on [country]. *)
Lemma entity_ids_dense_witness :
  dense_ids (mkFrame 2
               [ mkSeries "type" string_dtype [VStr "Movie"; VStr "TV Show"];
                 mkSeries "id" int64 (ints [1; 2])%Z ])
  /\ dense_ids (mkFrame 3
                  [ mkSeries "country" string_dtype
                      [VStr "US"; VStr "UK"; VStr "Unknown"];
                    mkSeries "id" int64 (ints [1; 2; 3])%Z ]).
Proof.
  destruct entity_ids_dense as [H1 H2]. split.
  - eapply (H1 0 "type" (bound titles)). vm_compute. reflexivity.
  - eapply (H2 0 "id" "country" (Some ",") (bound titles)). vm_compute. reflexivity.
Defined.



(* ===================================================================== *)
(** * The keys of the junction table                                      *)
(* ===================================================================== *)

Lemma join_fst_range lk rk i :
  i ∈ map fst (inner_join 0 lk rk) -> i < length lk.
Proof.
  intros H. apply list_elem_of_In, in_map_iff in H as ([i' j] & <- & H).
  apply list_elem_of_In, inner_join_spec in H. simpl. lia.
Qed.

Lemma join_snd_range lk rk j :
  j ∈ map snd (inner_join 0 lk rk) -> j < length rk.
Proof.
  intros H. apply list_elem_of_In, in_map_iff in H as ([i j'] & <- & H).
  apply list_elem_of_In, inner_join_spec in H. simpl. lia.
Qed.

(** A left key that survives an inner join is a key of the right table. *)
Lemma join_left_key_in lk rk v :
  v ∈ map (fun i => nth i lk VNull) (map fst (inner_join 0 lk rk)) -> v ∈ rk.
Proof.
  rewrite map_map. intros H.
  apply list_elem_of_In, in_map_iff in H as ([i j] & <- & H).
  apply list_elem_of_In, inner_join_spec in H as (_ & _ & Hj & Heq).
  simpl. rewrite Nat.sub_0_r in Heq. rewrite Heq.
  by apply list_elem_of_In, nth_In.
Qed.

Section MergeColumns.

Context {left right : DataFrame} {on lsuffix rsuffix : string}
        {m : DataFrame} {lk rk : Series}.
Hypothesis Hmerge : merge left right on lsuffix rsuffix = Ok m.
Hypothesis Hlk : getitem left on = Ok lk.
Hypothesis Hrk : getitem right on = Ok rk.

Local Abbreviation t := (shared (labels left) (map name (right_columns right on))).
Local Abbreviation pairs := (inner_join 0 (values lk) (values rk)).

Lemma merge_columns :
  m = mkFrame (length pairs)
        (map (fun c => relabel (renamer t lsuffix (name c))
                               (take (map fst pairs) c)) (columns left)
         ++ map (fun c => relabel (renamer t rsuffix (name c))
                                  (take (map snd pairs) c))
                (right_columns right on)).
Proof.
  destruct (merge_ok _ _ _ _ _ _ Hmerge) as (lk' & rk' & Hlk' & Hrk' & _ & Hm).
  rewrite Hlk in Hlk'. rewrite Hrk in Hrk'.
  injection Hlk' as <-. injection Hrk' as <-. exact Hm.
Qed.

Lemma merge_nrows : nrows m = length pairs.
Proof. by rewrite merge_columns. Qed.

Lemma merge_left_column c :
  c ∈ columns left ->
  relabel (renamer t lsuffix (name c)) (take (map fst pairs) c) ∈ columns m.
Proof.
  intros Hc. rewrite merge_columns. simpl. apply elem_of_app. left.
  apply list_elem_of_In.
  apply (in_map (fun c => relabel (renamer t lsuffix (name c))
                                  (take (map fst pairs) c))).
  by apply list_elem_of_In.
Qed.

Lemma merge_right_column c :
  c ∈ columns right -> name c <> on ->
  relabel (renamer t rsuffix (name c)) (take (map snd pairs) c) ∈ columns m.
Proof.
  intros Hc Hn. rewrite merge_columns. simpl. apply elem_of_app. right.
  apply list_elem_of_In.
  apply (in_map (fun c => relabel (renamer t rsuffix (name c))
                                  (take (map snd pairs) c))).
  unfold right_columns. apply filter_In. split; [by apply list_elem_of_In |].
  by rewrite bool_decide_eq_false_2.
Qed.

Lemma merge_aligned : aligned m.
Proof.
  rewrite merge_columns. unfold aligned. simpl.
  apply Forall_app. split; apply Forall_forall; intros c Hc;
    apply list_elem_of_In, in_map_iff in Hc as (c0 & <- & _);
    simpl; by rewrite !length_map.
Qed.

End MergeColumns.

Section JunctionKeys.

Context {d1 : DataFrame} {right_col : string}
        {left right junction : DataFrame}.
Hypothesis steps : many_to_many_steps d1 "id" right_col left right junction.
Hypothesis Hrows : 2 <= nrows d1.

(** The projected table, before duplicates are dropped: the left keys
    that found a partner in the left table, and the ids of the right
    table. *)
Lemma steps_projection :
  exists (x y lkey rkey : Series) (p j : DataFrame),
    drop_duplicates p = Ok j
    /\ junction = rename j [("id_right", right_col +:+ "_id");
                             ("id_left", "title_id")]
    /\ p = mkFrame (nrows p) [x; y] /\ aligned p
    /\ name x = "id_left" /\ name y = "id_right"
    /\ getitem left "id" = Ok lkey
    /\ (forall v, v ∈ values x -> v ∈ values lkey)
    /\ getitem right "id" = Ok rkey
    /\ (forall v, v ∈ values y -> v ∈ values rkey).
Proof.
  pose proof (steps_right_col_not_id steps) as Hne.
  destruct (steps_right_dense steps Hrows) as [(idc & Hidc & Hidv) Hral].
  pose proof (steps_labels_right steps) as Hlr.
  rewrite bool_decide_eq_false_2 in Hlr by exact Hne.
  pose proof (steps_labels_left steps) as Hll.
  pose proof (steps_labels_right_unique steps) as Hndr.
  destruct steps.
  pose proof (steps_labels_m1_unique steps m1 exploded Hexplode Hmerge1) as Hnd1.
  assert (NoDup (labels m2)) as Hnd2.
  { eapply merge_NoDup; [exact Hnd1 | exact Hndr | apply suffix_left_right
                         | exact Hmerge2]. }
  destruct (merge_ok _ _ _ _ _ _ Hmerge1) as (lk1 & rk1 & Hlk1 & Hrk1 & _ & _).
  destruct (merge_ok _ _ _ _ _ _ Hmerge2) as (lk2 & rk2 & Hlk2 & Hrk2 & _ & _).
  (* the key column of the first merge keeps its label *)
  pose proof (getitem_in _ _ _ Hlk1) as [Hlk1_in Hlk1_name].
  pose proof (merge_left_column Hmerge1 Hlk1 Hrk1 lk1 Hlk1_in) as Hc1.
  rewrite Hlk1_name in Hc1.
  assert (renamer (shared (labels exploded) (map name (right_columns left "id")))
                  "_x" "id" = "id") as Hkeep.
  { unfold renamer. rewrite bool_decide_eq_false_2; [reflexivity |].
    intros Hin. apply elem_of_shared in Hin as [_ Hin].
    rewrite names_right_columns in Hin.
    apply list_elem_of_In, filter_In in Hin as [_ Hin].
    by rewrite bool_decide_eq_true_2 in Hin. }
  rewrite Hkeep in Hc1.
  set (c1 := relabel "id" (take (map fst (inner_join 0 (values lk1) (values rk1))) lk1))
    in Hc1.
  (* the second merge finds [id] on both sides *)
  assert (map name (right_columns right right_col) = ["id"]) as Hrc.
  { rewrite names_right_columns, Hlr. simpl.
    rewrite bool_decide_eq_true_2 by reflexivity. simpl.
    by rewrite bool_decide_eq_false_2 by congruence. }
  assert ("id" ∈ shared (labels m1) (map name (right_columns right right_col)))
    as Hshared.
  { apply elem_of_shared. split; [| rewrite Hrc; left].
    apply list_elem_of_In. apply (in_map name) with (x := c1).
    by apply list_elem_of_In. }
  pose proof (merge_left_column Hmerge2 Hlk2 Hrk2 c1 Hc1) as Hx.
  pose proof (getitem_in _ _ _ Hidc) as [Hidc_in Hidc_name].
  assert (name idc <> right_col) as Hidc_ne by congruence.
  pose proof (merge_right_column Hmerge2 Hlk2 Hrk2 idc Hidc_in Hidc_ne) as Hy.
  rewrite Hidc_name in Hy. simpl in Hx.
  unfold renamer in Hx, Hy. rewrite bool_decide_eq_true_2 in Hx, Hy by exact Hshared.
  set (x := relabel _ _) in Hx. set (y := relabel _ _) in Hy.
  (* the projection picks these two columns *)
  apply getitem_list_ok in Hproject as (cs & Hcs & Hp).
  apply (select_two _ x y _ Hnd2 Hx Hy) in Hcs.
  pose proof (merge_nrows Hmerge2 Hlk2 Hrk2) as Hn2.
  pose proof (merge_aligned Hmerge1 Hlk1 Hrk1) as Hal1.
  pose proof (merge_nrows Hmerge1 Hlk1 Hrk1) as Hn1.
  exists x, y, rk1, idc, p, j.
  split; [exact Hdedup |]. split; [exact Hjunction |].
  split; [by subst p cs |]. split.
  { subst p cs. unfold aligned. simpl. rewrite Hn2.
    repeat constructor; simpl; by rewrite !length_map. }
  split; [reflexivity |]. split; [reflexivity |].
  split; [exact Hrk1 |]. split; [| split; [exact Hidc |]].
  - intros v Hv. apply (join_left_key_in (values lk1)).
    change (v ∈ values c1).
    apply (take_values_in (map fst (inner_join 0 (values lk2) (values rk2))) c1 v);
      [| exact Hv].
    intros i Hi. apply join_fst_range in Hi.
    rewrite (aligned_getitem _ _ _ Hal1 Hlk2), Hn1 in Hi.
    unfold c1. simpl. by rewrite !length_map.
  - intros v Hv.
    apply (take_values_in (map snd (inner_join 0 (values lk2) (values rk2))) idc v);
      [| exact Hv].
    intros i Hi. apply join_snd_range in Hi.
    rewrite (aligned_getitem _ _ _ Hral Hrk2) in Hi.
    by rewrite Hidv, ids_length.
Qed.

(** With a left key column called [id], the junction table is sound. *)
Lemma steps_junction_sound : junction_sound "id" right_col left right junction.
Proof.
  destruct steps_projection
    as (x & y & lkey & rkey & p & j & Hdd & -> & Hp & Hal & Hx & Hy
        & Hlkey & Hxin & Hrkey & Hyin).
  assert (columns p <> []) as Hne by (rewrite Hp; discriminate).
  pose proof (drop_duplicates_NoDup _ _ Hdd Hne) as Hnd.
  pose proof (drop_duplicates_aligned _ _ Hdd (or_introl Hal) Hne) as Halj.
  assert (exists x' y', columns j = [x'; y']
            /\ name x' = "id_left" /\ name y' = "id_right"
            /\ (forall v, v ∈ values x' -> v ∈ values x)
            /\ (forall v, v ∈ values y' -> v ∈ values y))
    as (x' & y' & Hj & Hx' & Hy' & Hx'in & Hy'in).
  { apply drop_duplicates_ok in Hdd as [[_ ->] | [_ ->]].
    - exists x, y. rewrite Hp. simpl. by repeat split.
    - rewrite Hp. simpl. eexists _, _. split; [reflexivity |].
      split; [exact Hx |]. split; [exact Hy |].
      unfold aligned in Hal. rewrite Hp in Hal. simpl in Hal.
      apply Forall_cons in Hal as [Hlx Hal].
      apply Forall_cons in Hal as [Hly _].
      split; intros v Hv;
        (eapply take_values_in; [| exact Hv]); intros i Hi;
        apply first_occurrences_range in Hi; rewrite rows_length in Hi;
        simpl in Hi; lia. }
  unfold aligned in Halj. rewrite Hj in Halj.
  apply Forall_cons in Halj as [Hlx Halj].
  apply Forall_cons in Halj as [Hly _].
  exists (relabel "title_id" x'), (relabel (right_col +:+ "_id") y'), lkey, rkey.
  split.
  { unfold rename. simpl. rewrite Hj. simpl. rewrite Hx', Hy'. reflexivity. }
  split; [reflexivity |]. split; [reflexivity |].
  split; [exact Hlx |]. split; [exact Hly |].
  split; [by rewrite rows_rename |].
  split; [exact Hlkey |]. split; [| split; [exact Hrkey |]].
  - intros v Hv. by apply Hxin, Hx'in.
  - intros v Hv. by apply Hyin, Hy'in.
Qed.

End JunctionKeys.





(* ===================================================================== *)
(** * The one-to-many split of a text column                              *)
(* ===================================================================== *)

Lemma getitem_select d key col :
  NoDup (labels d) -> getitem d key = Ok col ->
  getitem_list d [key] = Ok (mkFrame (nrows d) [col]).
Proof.
  intros Hnd H. apply getitem_in in H as [Hin <-].
  unfold getitem_list. simpl.
  by rewrite (filter_name_unique _ _ Hnd Hin).
Qed.



Lemma kept_range n col k : k ∈ kept n col -> k < n.
Proof.
  unfold kept. intros H. apply first_occurrences_range in H.
  rewrite rows_length in H. simpl in H. lia.
Qed.


(** Every row is equal to one that was seen before or to one that is
    kept. *)
Lemma first_occurrences_cover seen i0 (l : list (list value)) r :
  r ∈ l ->
  r ∈ seen \/ r ∈ map (fun i => nth (i - i0) l []) (first_occurrences seen i0 l).
Proof.
  revert seen i0. induction l as [| r0 l IH]; intros seen i0 Hr.
  - by apply elem_of_nil in Hr.
  - assert (forall s, map (fun i => nth (i - i0) (r0 :: l) [])
                        (first_occurrences s (S i0) l)
                    = map (fun i => nth (i - S i0) l [])
                        (first_occurrences s (S i0) l)) as Hshift.
    { intros s. apply map_ext_in. intros i Hi.
      apply list_elem_of_In, first_occurrences_range in Hi.
      replace (i - i0) with (S (i - S i0)) by lia. reflexivity. }
    cbn [first_occurrences].
    destruct (bool_decide (r0 ∈ seen)) eqn:Hseen.
    + apply bool_decide_eq_true in Hseen. rewrite Hshift.
      apply elem_of_cons in Hr as [-> | Hr]; [by left | by apply IH].
    + cbn [map]. rewrite Nat.sub_diag, Hshift. change (nth 0 (r0 :: l) []) with r0.
      apply elem_of_cons in Hr as [-> | Hr]; [right; left |].
      destruct (IH (r0 :: seen) (S i0) Hr) as [H | H].
      * apply elem_of_cons in H as [-> | H]; [right; left | by left].
      * right. by right.
Qed.

Lemma rows_single n col :
  rows (mkFrame n [col]) = map (fun i => [nth i (values col) VNull]) (seq 0 n).
Proof. reflexivity. Qed.

Lemma kept_rows n col :
  map (fun k => nth (k - 0) (rows (mkFrame n [col])) []) (kept n col)
  = map (fun v => [v]) (map (fun k => nth k (values col) VNull) (kept n col)).
Proof.
  rewrite map_map. apply map_ext_in. intros k Hk.
  apply list_elem_of_In, kept_range in Hk.
  rewrite Nat.sub_0_r. by rewrite nth_rows.
Qed.

(** The cells kept of a column are pairwise different and every cell of
    the column is among them. *)
Lemma kept_NoDup n col :
  NoDup (map (fun k => nth k (values col) VNull) (kept n col)).
Proof.
  apply (NoDup_fmap_1 (fun v : value => [v])).
  change (NoDup (map (fun v => [v])
                   (map (fun k => nth k (values col) VNull) (kept n col)))).
  rewrite <- kept_rows. apply first_occurrences_NoDup.
Qed.

Lemma kept_cover n col v :
  length (values col) = n -> v ∈ values col ->
  v ∈ map (fun k => nth k (values col) VNull) (kept n col).
Proof.
  intros Hlen Hv.
  assert ([v] ∈ rows (mkFrame n [col])) as Hrow.
  { rewrite rows_single.
    apply list_elem_of_In, (In_nth _ _ VNull) in Hv as (i & Hi & <-).
    apply list_elem_of_In, in_map_iff. exists i. split; [reflexivity |].
    apply in_seq. lia. }
  destruct (first_occurrences_cover [] 0 _ _ Hrow) as [H | H].
  - by apply elem_of_nil in H.
  - fold (kept n col) in H. rewrite kept_rows in H.
    apply list_elem_of_In, in_map_iff in H as (v' & Heq & H).
    injection Heq as ->. by apply list_elem_of_In.
Qed.

Lemma coalesce_NoDup (l : list value) :
  NoDup l -> ~ (VNull ∈ l /\ Unknown ∈ l) -> NoDup (map coalesce l).
Proof.
  induction l as [| v l IH]; intros Hnd Hnot; [constructor |].
  apply NoDup_cons in Hnd as [Hv Hnd]. simpl. apply NoDup_cons. split.
  - intros Hin. apply list_elem_of_In, in_map_iff in Hin as (w & Heq & Hw).
    apply list_elem_of_In in Hw.
    destruct (decide (w = v)) as [-> | Hne]; [done |].
    apply Hnot. unfold coalesce in Heq.
    destruct (isnull w) eqn:Hnw, (isnull v) eqn:Hnv.
    + destruct w, v; done.
    + destruct w; try done. subst v. split; [by right | left].
    + destruct v; try done. subst w. split; [left | by right].
    + congruence.
  - apply IH; [exact Hnd |]. intros [H1 H2]. apply Hnot. split; by right.
Qed.

(** ** A join in which every left key has exactly one partner *)

Lemma positions_none a j0 rk : a ∉ rk -> positions a j0 rk = [].
Proof.
  revert j0. induction rk as [| b rk IH]; intros j0 Ha; [reflexivity |].
  simpl. rewrite bool_decide_eq_false_2.
  - apply IH. intros H. apply Ha. by right.
  - intros ->. apply Ha. left.
Qed.

Lemma positions_one a j0 rk :
  NoDup rk -> a ∈ rk ->
  exists j, positions a j0 rk = [j + j0] /\ j < length rk /\ nth j rk VNull = a.
Proof.
  revert j0. induction rk as [| b rk IH]; intros j0 Hnd Ha.
  - by apply elem_of_nil in Ha.
  - apply NoDup_cons in Hnd as [Hb Hnd]. simpl.
    destruct (decide (a = b)) as [-> | Hne].
    + rewrite bool_decide_eq_true_2 by reflexivity.
      rewrite positions_none by exact Hb.
      exists 0. simpl. split; [reflexivity |]. split; [lia | reflexivity].
    + rewrite bool_decide_eq_false_2 by exact Hne.
      apply elem_of_cons in Ha as [-> | Ha]; [done |].
      destruct (IH (S j0) Hnd Ha) as (j & Hp & Hj & Hnth).
      exists (S j). simpl. split; [| split; [lia | exact Hnth]].
      rewrite Hp. f_equal. lia.
Qed.

(** When the right keys are pairwise different and every left key is
    among them, the join keeps every left row once, in order, next to the
    right row that has its key. *)
Lemma inner_join_total i0 lk rk :
  NoDup rk -> (forall a, a ∈ lk -> a ∈ rk) ->
  map fst (inner_join i0 lk rk) = seq i0 (length lk)
  /\ Forall2 (fun a j => j < length rk /\ nth j rk VNull = a)
             lk (map snd (inner_join i0 lk rk)).
Proof.
  intros Hnd. revert i0. induction lk as [| a lk IH]; intros i0 Hin.
  - split; [reflexivity | constructor].
  - destruct (positions_one a 0 rk Hnd) as (j & Hp & Hj & Hnth); [apply Hin; left |].
    destruct (IH (S i0)) as [Hfst Hsnd]; [intros b Hb; apply Hin; by right |].
    simpl. rewrite Hp. simpl. rewrite Hfst. split; [reflexivity |].
    constructor; [| exact Hsnd]. rewrite Nat.add_0_r. auto.
Qed.

Lemma take_seq (c : Series) n :
  length (values c) = n -> take (seq 0 n) c = c.
Proof.
  intros Hlen. destruct c as [nm dt vs]. unfold take. simpl in *. f_equal.
  subst n. apply (nth_ext _ _ VNull VNull).
  - by rewrite length_map, length_seq.
  - intros k Hk. rewrite length_map, length_seq in Hk.
    rewrite (nth_indep _ VNull (nth 0 vs VNull)) by (by rewrite length_map, length_seq).
    rewrite (map_nth (fun i => nth i vs VNull)). by rewrite seq_nth.
Qed.

Lemma ids_nth n j : j < n -> nth j (ids n) VNull = VInt (Z.of_nat (S j)).
Proof.
  intros Hj. unfold ids.
  rewrite (nth_indep _ VNull (VInt (Z.of_nat 0))) by (by rewrite length_map, length_seq).
  rewrite (map_nth (fun i => VInt (Z.of_nat i))). by rewrite seq_nth.
Qed.


Lemma append_empty_r (s : string) : s +:+ EmptyString = s.
Proof.
  induction s as [| c s IH]; [reflexivity |].
  change (String c (s +:+ EmptyString) = String c s). by f_equal.
Qed.

Lemma append_id_neq (s : string) : s +:+ "_id" <> s.
Proof.
  intros H. apply (f_equal (fun x => length (list_ascii_of_string x))) in H.
  rewrite list_ascii_of_string_app, length_app in H. simpl in H. lia.
Qed.

(** The columns that stay when the key column is assigned and later
    dropped are those of the input. *)
Lemma filter_after_setitem cols key (new : Series) :
  name new = key ->
  List.filter (fun c => negb (bool_decide (name c = key)))
    (map (fun c => if bool_decide (name c = key) then new else c) cols)
  = List.filter (fun c => negb (bool_decide (name c = key))) cols.
Proof.
  intros Hnew. induction cols as [| c cols IH]; [reflexivity |]. simpl.
  destruct (bool_decide (name c = key)) eqn:Hc; simpl.
  - by rewrite bool_decide_eq_true_2.
  - rewrite Hc. simpl. by rewrite IH.
Qed.

Section TextColumn.

Context {d : DataFrame} {key_col : string} {col : Series}.
Hypothesis Hlabels : NoDup (labels d).
Hypothesis Haligned : aligned d.
Hypothesis Hid : has_column "id" d = true.
Hypothesis Hkey : key_col <> "id".
Hypothesis Hcol : getitem d key_col = Ok col.
Hypothesis Htext : Forall (fun v => text_cell v = true) (values col).
Hypothesis Hunknown : ~ (VNull ∈ values col /\ Unknown ∈ values col).

(** The keys of the parent table. *)
Local Abbreviation pk :=
  (map coalesce (map (fun k => nth k (values col) VNull) (kept (nrows d) col))).

Lemma parent_keys_NoDup : NoDup pk.
Proof.
  apply coalesce_NoDup; [apply kept_NoDup |].
  intros [H1 H2]. apply Hunknown.
  assert (forall v, v ∈ map (fun k => nth k (values col) VNull) (kept (nrows d) col)
                    -> v ∈ values col) as Hsub.
  { intros v Hv. apply list_elem_of_In, in_map_iff in Hv as (k & <- & Hk).
    apply list_elem_of_In, kept_range in Hk.
    apply list_elem_of_In, nth_In.
    by rewrite (aligned_getitem _ _ _ Haligned Hcol). }
  split; by apply Hsub.
Qed.

Lemma parent_keys_cover a : a ∈ map coalesce (values col) -> a ∈ pk.
Proof.
  intros Ha. apply list_elem_of_In, in_map_iff in Ha as (v & <- & Hv).
  apply list_elem_of_In, in_map. apply list_elem_of_In.
  apply kept_cover; [by apply (aligned_getitem _ _ _ Haligned Hcol) |].
  by apply list_elem_of_In.
Qed.


End TextColumn.


(* ===================================================================== *)
(** * Running a statement sequence                                        *)
(* ===================================================================== *)

Lemma bind_raise_if {B} (c : bool) e (k : unit -> M B) h :
  bind (raise_if c e) k h = if c then (h, Raise e) else k tt h.
Proof. unfold bind, raise_if, raise, ret. by destruct c. Qed.

Lemma bind_lift {A B} (r : res A) (k : A -> M B) h :
  bind (lift r) k h =
  match r with Ok a => k a h | Raise e => (h, Raise e) end.
Proof. unfold bind, lift. by destruct r. Qed.

Lemma bind_load {B} df (k : DataFrame -> M B) h :
  bind (load_frame df) k h =
  match h !! df with
  | Some (PyDataFrame d) => k d h
  | _ => (h, Raise (TypeError "Input must be a pandas DataFrame."))
  end.
Proof. unfold bind, load_frame. by destruct (h !! df) as [[d|]|]. Qed.

Lemma bind_store {B} df d (k : unit -> M B) h :
  bind (store_frame df d) k h = k tt (<[df := PyDataFrame d]> h).
Proof. reflexivity. Qed.

(** One statement of a sequence: rewrite it to what it does. *)
Ltac exec :=
  first [ rewrite bind_raise_if | rewrite bind_lift | rewrite bind_load
        | rewrite bind_store ].

(** The same, then follow both outcomes of a check with [tac] closing the
    one that raises. *)
Ltac exec_if c tac := rewrite bind_raise_if; destruct c eqn:?; [tac |].
Ltac exec_res r tac := rewrite bind_lift; destruct r eqn:?; [| tac].

(* ===================================================================== *)
(** * What split_with_foreign_key does to the store                       *)
(* ===================================================================== *)

(** Whatever the outcome, [split_with_foreign_key] leaves the store as it
    was or has written exactly one thing: the caller's table with the
    nulls of its key column filled.  No other object changes. *)
Theorem split_with_foreign_key_writes df key_col h :
  (fst (split_with_foreign_key df key_col h) = h
   \/ exists d col,
       h !! df = Some (PyDataFrame d) /\ getitem d key_col = Ok col
       /\ fst (split_with_foreign_key df key_col h)
          = <[df := PyDataFrame (setitem d key_col (fillna Unknown col))]> h)
  /\ forall l, l <> df ->
       fst (split_with_foreign_key df key_col h) !! l = h !! l.
Proof.
  assert (fst (split_with_foreign_key df key_col h) = h
   \/ exists d col,
       h !! df = Some (PyDataFrame d) /\ getitem d key_col = Ok col
       /\ fst (split_with_foreign_key df key_col h)
          = <[df := PyDataFrame (setitem d key_col (fillna Unknown col))]> h)
    as Hcases.
  { unfold split_with_foreign_key. cbv zeta.
    rewrite bind_load. destruct (h !! df) as [[d|]|] eqn:Hd; [| by left..].
    exec_if (empty d) ltac:(by left).
    exec_if (nrows d <? 2) ltac:(by left).
    exec_if (negb (has_column key_col d)) ltac:(by left).
    exec_res (getitem d key_col) ltac:(by left). rename a into col.
    exec_if (negb (bool_decide (dtype_of col = object))) ltac:(by left).
    exec_if (isnull_all col) ltac:(by left).
    exec_res (nunique col) ltac:(by left).
    exec_if (a =? nrows d) ltac:(by left).
    rewrite bind_lift.
    exec_if (a =? 1) ltac:(by left).
    exec_if (is_list_set_tuple (nth 0 (values col) VNull)) ltac:(by left).
    rewrite bind_lift.
    destruct (res_bind (getitem_list d [key_col]) _) as [p0|] eqn:Hp0; [| by left].
    exec_res (astype p0 key_col) ltac:(by left). rename a0 into p1.
    rewrite bind_store. right. exists d, col. split; [reflexivity |].
    split; [first [reflexivity | assumption] |].
    rewrite bind_lift.
    destruct (getitem (setitem p1 "id" (index_plus_1 p1)) key_col); [| reflexivity].
    rewrite bind_load, lookup_insert_eq.
    rewrite bind_lift. destruct (merge _ _ _ _ _); [| reflexivity].
    rewrite bind_lift. destruct (drop _ _); reflexivity. }
  split; [exact Hcases |].
  intros l Hl. destruct Hcases as [-> | (d & col & _ & _ & ->)]; [reflexivity |].
  by rewrite lookup_insert_ne.
Qed.

(* ===================================================================== *)
(** * Refused and accepted inputs                                         *)
(* ===================================================================== *)

Lemma distinct_nonempty seen v l : v ∉ seen -> distinct seen (v :: l) <> [].
Proof. intros Hv. simpl. by rewrite bool_decide_eq_false_2. Qed.

(** A column that is not all null has at least one distinct value. *)
Lemma nunique_pos col n : isnull_all col = false -> nunique col = Ok n -> 1 <= n.
Proof.
  unfold isnull_all, nunique. intros Hnull H. res_inv H as u Hu.
  injection H as <-.
  destruct (List.filter _ (values col)) as [| v l] eqn:F.
  - exfalso. apply not_true_iff_false in Hnull. apply Hnull.
    apply forallb_forall. intros v Hv.
    destruct (isnull v) eqn:Hn; [reflexivity |].
    assert (In v (List.filter (fun v => negb (isnull v)) (values col))) as Hin
      by (apply filter_In; by rewrite Hn).
    rewrite F in Hin. destruct Hin.
  - pose proof (distinct_nonempty [] v l (not_elem_of_nil v)) as Hne.
    destruct (distinct [] (v :: l)); [done | simpl; lia].
Qed.

(** Every call of [split_with_foreign_key] either raises and leaves the
    store as it was, or was given a table that passes all the checks of
    lines 23-40: at least two rows, a key column of type [object] whose
    cells can all be hashed, with at least two distinct values but not as
    many as there are rows, and whose first cell is no container.  So a
    call that returns, or that has written to the caller's table, was made
    on such a table. *)
Theorem split_with_foreign_key_refuses_or_accepts df key_col h :
  (exists e, split_with_foreign_key df key_col h = (h, Raise e))
  \/ (exists d, h !! df = Some (PyDataFrame d) /\ accepted d key_col).
Proof.
  unfold split_with_foreign_key. cbv zeta.
  rewrite bind_load. destruct (h !! df) as [[d|]|] eqn:Hd; [| left; eauto..].
  exec_if (empty d) ltac:(left; eauto).
  exec_if (nrows d <? 2) ltac:(left; eauto).
  exec_if (negb (has_column key_col d)) ltac:(left; eauto).
  exec_res (getitem d key_col) ltac:(left; eauto). rename a into col.
  exec_if (negb (bool_decide (dtype_of col = object))) ltac:(left; eauto).
  exec_if (isnull_all col) ltac:(left; eauto).
  exec_res (nunique col) ltac:(left; eauto). rename a into n.
  exec_if (n =? nrows d) ltac:(left; eauto).
  rewrite bind_lift.
  exec_if (n =? 1) ltac:(left; eauto).
  exec_if (is_list_set_tuple (nth 0 (values col) VNull)) ltac:(left; eauto).
  right. exists d. split; [reflexivity |]. exists col, n.
  repeat match goal with
         | H : negb _ = false |- _ => apply negb_false_iff in H
         | H : bool_decide _ = true |- _ => apply bool_decide_eq_true in H
         | H : (_ <? _) = false |- _ => apply Nat.ltb_ge in H
         | H : (_ =? _) = false |- _ => apply Nat.eqb_neq in H
         end.
  pose proof (nunique_pos col n) as Hpos.
  repeat split; try assumption; try reflexivity.
  specialize (Hpos ltac:(assumption) ltac:(assumption)). lia.
Qed.

(** A table with fewer than two rows is refused by both functions with one
    of the two shape messages, before any column is looked at (the column
    arguments may name columns that do not exist), and the store stays as
    it was. *)
Theorem too_few_rows_refused h df d :
  h !! df = Some (PyDataFrame d) -> nrows d < 2 ->
  (forall key_col, exists msg,
      split_with_foreign_key df key_col h = (h, Raise (ValueError msg))
      /\ msg ∈ shape_messages)
  /\ (forall left_col right_col sep, exists msg,
         split_many_to_many df left_col right_col sep h = (h, Raise (ValueError msg))
         /\ msg ∈ shape_messages).
Proof.
  intros Hd Hn. apply Nat.ltb_lt in Hn. unfold shape_messages.
  split; [intros key_col; unfold split_with_foreign_key
         | intros left_col right_col sep; unfold split_many_to_many];
    cbv zeta; rewrite bind_load, Hd, bind_raise_if;
    (destruct (empty d); [eexists; split; [reflexivity | set_solver] |]);
    rewrite bind_raise_if, Hn; eexists; (split; [reflexivity | set_solver]).
Qed.

Lemma too_few_rows_refused_witness :
  let one_row := mkFrame 1 [ mkSeries "type" object [VStr "Movie"] ] in
  (forall key_col, exists msg,
      split_with_foreign_key 0 key_col (bound one_row)
      = (bound one_row, Raise (ValueError msg))
      /\ msg ∈ shape_messages)
  /\ (forall left_col right_col sep, exists msg,
         split_many_to_many 0 left_col right_col sep (bound one_row)
         = (bound one_row, Raise (ValueError msg))
         /\ msg ∈ shape_messages).
Proof.
  intros one_row.
  apply (too_few_rows_refused (bound one_row) 0 one_row); [reflexivity | simpl; lia].
Defined.

(** On a table with at least two rows, a column argument that names no
    column is refused with a message that names it; [split_many_to_many]
    looks for the left column first. *)
Theorem missing_column_refused h df d :
  h !! df = Some (PyDataFrame d) -> empty d = false -> 2 <= nrows d ->
  (forall key_col, has_column key_col d = false ->
     split_with_foreign_key df key_col h
     = (h, Raise (ValueError (column_msg key_col "not found in DataFrame."))))
  /\ (forall left_col right_col sep, has_column left_col d = false ->
        split_many_to_many df left_col right_col sep h
        = (h, Raise (ValueError (column_msg left_col "not found in DataFrame."))))
  /\ (forall left_col right_col sep,
        has_column left_col d = true -> has_column right_col d = false ->
        split_many_to_many df left_col right_col sep h
        = (h, Raise (ValueError (column_msg right_col "not found in DataFrame.")))).
Proof.
  intros Hd He Hn. apply Nat.ltb_ge in Hn.
  split; [| split].
  - intros key_col Hk. unfold split_with_foreign_key. cbv zeta.
    rewrite bind_load, Hd, bind_raise_if, He, bind_raise_if, Hn, bind_raise_if, Hk.
    reflexivity.
  - intros left_col right_col sep Hk. unfold split_many_to_many. cbv zeta.
    rewrite bind_load, Hd, bind_raise_if, He, bind_raise_if, Hn, bind_raise_if, Hk.
    reflexivity.
  - intros left_col right_col sep Hl Hr. unfold split_many_to_many. cbv zeta.
    rewrite bind_load, Hd, bind_raise_if, He, bind_raise_if, Hn, bind_raise_if, Hl.
    simpl. rewrite bind_raise_if, Hr. reflexivity.
Qed.

Lemma missing_column_refused_witness :
  split_with_foreign_key 0 "genre" (bound titles)
  = (bound titles, Raise (ValueError (column_msg "genre" "not found in DataFrame.")))
  /\ split_many_to_many 0 "key" "country" None (bound titles)
     = (bound titles, Raise (ValueError (column_msg "key" "not found in DataFrame.")))
  /\ split_many_to_many 0 "id" "genre" None (bound titles)
     = (bound titles, Raise (ValueError (column_msg "genre" "not found in DataFrame."))).
Proof.
  destruct (missing_column_refused (bound titles) 0 titles eq_refl eq_refl)
    as (H1 & H2 & H3); [simpl; lia |].
  split; [apply H1; reflexivity |].
  split; [apply H2; reflexivity | apply H3; reflexivity].
Defined.

(* ===================================================================== *)
(** * The column names a many-to-many split works with                    *)
(* ===================================================================== *)

Section KeyLabels.

Context {d1 : DataFrame} {left_col right_col : string}
        {left right junction : DataFrame}.
Hypothesis steps : many_to_many_steps d1 left_col right_col left right junction.

(** Where a label [id_left] or [id_right] of the second merge comes from:
    from a column [id] both sides have, which on the left side can only be
    the left key, or from a column of the input that already had that
    name, which after the first merge can only be one of the two column
    arguments. *)
Lemma steps_key_label_origin (m1 m2 : DataFrame) exploded x :
  explode d1 right_col = Ok exploded ->
  merge exploded left left_col "_x" "_y" = Ok m1 ->
  merge m1 right right_col "_left" "_right" = Ok m2 ->
  x ∈ labels m2 -> x = "id_left" \/ x = "id_right" ->
  left_col = "id" \/ x = left_col \/ x = right_col.
Proof.
  intros He Hm1 Hm2 Hx Hname.
  pose proof (steps_right_col_not_id steps) as Hne.
  pose proof (steps_labels_right steps) as Hlr.
  rewrite bool_decide_eq_false_2 in Hlr by exact Hne.
  pose proof (steps_labels_m1 steps m1 exploded) as Hcases.
  apply merge_labels in Hm2 as (ll & rl & Hnew & Hl2).
  rewrite names_right_columns, Hlr in Hnew. simpl in Hnew.
  rewrite bool_decide_eq_true_2 in Hnew by reflexivity.
  rewrite bool_decide_eq_false_2 in Hnew by congruence.
  simpl in Hnew.
  apply items_overlap_ok in Hnew as (-> & -> & _).
  assert (forall a, a ∈ shared (labels m1) ["id"] -> left_col = "id") as Hboth.
  { intros a Ha. apply elem_of_shared in Ha as [Ha Hid].
    apply list_elem_of_singleton in Hid. subst a.
    destruct (Hcases "id" He Hm1 Ha) as [H | [H | [[a H] | [a H]]]];
      [congruence | congruence | suffix_clash H | suffix_clash H]. }
  assert (x ∈ labels m1 -> left_col = "id" \/ x = left_col \/ x = right_col)
    as Hold.
  { intros Hin.
    destruct (Hcases x He Hm1 Hin) as [H | [H | [[a H] | [a H]]]]; auto;
      destruct Hname as [-> | ->]; suffix_clash H. }
  rewrite Hl2 in Hx.
  apply elem_of_app in Hx as [Hx | Hx];
    apply elem_of_map_renamer in Hx as [(a & _ & Ha & _) | [Hx _]];
    eauto.
  apply list_elem_of_singleton in Hx. subst x.
  destruct Hname as [H | H]; discriminate H.
Qed.

Lemma steps_left_col :
  left_col = "id"
  \/ (left_col = "id_left" /\ right_col = "id_right")
  \/ (left_col = "id_right" /\ right_col = "id_left").
Proof.
  pose proof steps_key_label_origin as Horigin.
  destruct steps.
  pose proof (fun x => Horigin m1 m2 exploded x Hexplode Hmerge1 Hmerge2) as Hfrom.
  clear Horigin. rename Hfrom into Horigin.
  apply getitem_list_ok in Hproject as (cs & Hcs & _).
  assert ("id_left" ∈ labels m2) as H1.
  { apply (select_has _ _ _ _ Hcs). left. }
  assert ("id_right" ∈ labels m2) as H2.
  { apply (select_has _ _ _ _ Hcs). right. left. }
  destruct (Horigin _ H1 (or_introl eq_refl)) as [H | [H | H]]; [by left | |];
    (destruct (Horigin _ H2 (or_intror eq_refl)) as [H' | [H' | H']];
     [by left | |]); subst; try discriminate; auto.
Qed.

End KeyLabels.

(** A call of [split_many_to_many] that returns was given the left key
    column [id] (or the pair of names [id_left], [id_right], the labels
    the second merge would otherwise have to produce), and a right column
    that is not called [id]: the projection of line 135 on the fixed labels
    [id_left] and [id_right] raises KeyError for every other choice of
    column names. *)
Theorem split_many_to_many_column_names
        df left_col right_col sep h h' left right junction :
  split_many_to_many df left_col right_col sep h = (h', Ok (left, right, junction)) ->
  right_col <> "id"
  /\ (left_col = "id"
      \/ (left_col = "id_left" /\ right_col = "id_right")
      \/ (left_col = "id_right" /\ right_col = "id_left")).
Proof.
  intros H.
  apply split_many_to_many_ok in H as (d & d1 & _ & _ & _ & _ & Hsteps).
  split.
  - exact (steps_right_col_not_id Hsteps).
  - exact (steps_left_col Hsteps).
Qed.

Lemma split_many_to_many_column_names_witness :
  "country" <> "id"
  /\ ("id" = "id"
      \/ ("id" = "id_left" /\ "country" = "id_right")
      \/ ("id" = "id_right" /\ "country" = "id_left")).
Proof.
  eapply (split_many_to_many_column_names 0 "id" "country" (Some ", ")
            (bound titles)).
  vm_compute. reflexivity.
Defined.

(* ===================================================================== *)
(** * The separator                                                       *)
(* ===================================================================== *)

Lemma bind_bind {A B C} (m : M A) (k1 : A -> M B) (k2 : B -> M C) h :
  bind (bind m k1) k2 h = bind m (fun a => bind (k1 a) k2) h.
Proof. unfold bind. destruct (m h) as [h1 [a | e]]; reflexivity. Qed.

(** Run the statements again, with the outcome of every test known. *)
Ltac replay :=
  repeat first
    [ rewrite bind_load | rewrite bind_raise_if | rewrite bind_lift
    | match goal with E : ?c = _ |- context [?c] => rewrite E end ].

(** The call stops here, and does so whatever the separator. *)
Ltac refused :=
  eexists; split;
  [ reflexivity
  | right; intros sep; unfold split_many_to_many; cbv zeta; replay;
    reflexivity ].

Lemma map_res_split_empty vs v :
  v ∈ vs -> is_str v = true ->
  map_res (split_and_strip EmptyString) vs = Raise (ValueError "empty separator").
Proof.
  intros Hin Hv. induction vs as [| x vs IH]; [by apply elem_of_nil in Hin |].
  destruct x as [| s | z | l | l | l]; try reflexivity;
    (apply elem_of_cons in Hin as [-> | Hin]; [discriminate Hv |]);
    simpl; rewrite (IH Hin); reflexivity.
Qed.

(** With the empty string as separator and a string anywhere in the right
    column, [split_many_to_many] raises and leaves the store as it was:
    either with the ValueError of [str.split] (line 106), or with an error
    of the validation, which the call raises for every separator. *)
Theorem split_many_to_many_empty_separator df left_col right_col h d rcol v :
  h !! df = Some (PyDataFrame d) -> getitem d right_col = Ok rcol ->
  v ∈ values rcol -> is_str v = true ->
  exists e,
    split_many_to_many df left_col right_col (Some EmptyString) h = (h, Raise e)
    /\ (e = ValueError "empty separator"
        \/ forall sep, split_many_to_many df left_col right_col sep h = (h, Raise e)).
Proof.
  intros Hd Hr Hin Hv.
  assert (apply rcol (split_and_strip EmptyString)
          = Raise (ValueError "empty separator")) as Hsplit.
  { unfold apply. by rewrite (map_res_split_empty _ _ Hin Hv). }
  unfold split_many_to_many at 1. cbv zeta. rewrite bind_load, Hd.
  exec_if (empty d) refused.
  exec_if (nrows d <? 2) refused.
  exec_if (negb (has_column left_col d)) refused.
  exec_if (negb (has_column right_col d)) refused.
  rewrite bind_lift.
  destruct (getitem d left_col) as [lcol | e0] eqn:Hl; [| refused].
  exec_if (isnull_all lcol) refused.
  rewrite bind_lift, Hr.
  exec_if (isnull_all rcol) refused.
  rewrite bind_lift.
  destruct (nunique rcol) as [n | e0] eqn:Hn; [| refused].
  exec_if (n =? nrows d) refused.
  rewrite bind_bind, bind_lift, Hsplit.
  eexists. split; [reflexivity | by left].
Qed.

Lemma split_many_to_many_empty_separator_witness :
  exists e,
    split_many_to_many 0 "id" "country" (Some EmptyString) (bound titles)
    = (bound titles, Raise e)
    /\ (e = ValueError "empty separator"
        \/ forall sep,
             split_many_to_many 0 "id" "country" sep (bound titles)
             = (bound titles, Raise e)).
Proof.
  eapply (split_many_to_many_empty_separator 0 "id" "country" (bound titles)
            titles _ (VStr "US")).
  - reflexivity.
  - vm_compute. reflexivity.
  - simpl. set_solver.
  - reflexivity.
Defined.

(* ===================================================================== *)
(** * The general lemmas on the tables above                              *)
(* ===================================================================== *)

Lemma split_with_foreign_key_store_partly_typed :
  exists col,
    getitem partly_typed "type" = Ok col
    /\ bound (mkFrame 4
                [ mkSeries "id" int64 (ints [1; 2; 3; 4])%Z;
                  mkSeries "type" object
                    [VStr "Movie"; VStr "Unknown"; VStr "Movie"; VStr "TV Show"] ])
       = <[0 := PyDataFrame (setitem partly_typed "type" (fillna Unknown col))]>
           (bound partly_typed).
Proof.
  eapply (split_with_foreign_key_store 0 "type" (bound partly_typed)).
  - reflexivity.
  - vm_compute. reflexivity.
Defined.

Lemma multivalued_error_not_for_lists_tagged :
  snd (split_with_foreign_key 0 "tags" (bound tagged))
  <> Raise (multivalued_error "tags").
Proof.
  eapply (multivalued_error_not_for_lists (bound tagged) 0 tagged "tags").
  - reflexivity.
  - vm_compute. reflexivity.
  - reflexivity.
Defined.

Lemma split_many_to_many_hashes_right_column_titles :
  Forall (fun v => hashable v = true)
         [VStr "US, UK"; VNull; VStr "US"; VStr "US"].
Proof.
  apply Forall_forall.
  eapply (split_many_to_many_hashes_right_column 0 "id" "country" (Some ", ")
            (bound titles) _ titles
            (mkSeries "country" object [VStr "US, UK"; VNull; VStr "US"; VStr "US"])).
  - reflexivity.
  - vm_compute. reflexivity.
  - vm_compute. reflexivity.
Defined.

(* ===================================================================== *)
(** * Splitting and stripping a cell (line 106)                           *)
(* ===================================================================== *)

Lemma split_from_nonempty sep skip cur s : split_from sep skip cur s <> [].
Proof.
  revert skip cur. induction s as [| c s IH]; intros skip cur;
    cbn [split_from]; [discriminate |].
  destruct skip as [| k]; [| apply IH].
  destruct (String.prefix sep (String c s)); [discriminate | apply IH].
Qed.

(** Passing over the rest of a separator that was matched. *)
Lemma split_from_skip sep t rest cur :
  split_from sep (String.length t) cur (t +:+ rest) = split_from sep 0 cur rest.
Proof.
  induction t as [| c t IH]; simpl.
  - destruct rest; reflexivity.
  - exact IH.
Qed.

Lemma prefix_append sep s :
  String.prefix sep s = true -> exists rest, s = sep +:+ rest.
Proof.
  revert s. induction sep as [| a sep IH]; intros s H.
  - by exists s.
  - destruct s as [| c s]; [discriminate |]. cbn [String.prefix] in H.
    destruct (ascii_dec a c) as [-> | _]; [| discriminate].
    apply IH in H as [rest ->]. by exists rest.
Qed.

Lemma concat_cons sep x l :
  l <> [] -> String.concat sep (x :: l) = x +:+ sep +:+ String.concat sep l.
Proof. destruct l; [done | reflexivity]. Qed.

Lemma append_assoc (a b c : string) : (a +:+ b) +:+ c = a +:+ (b +:+ c).
Proof.
  induction a as [| x a IH]; [reflexivity |].
  change (String x ((a +:+ b) +:+ c) = String x (a +:+ (b +:+ c))). by f_equal.
Qed.

Lemma split_from_join sep n : forall s cur,
  String.length s <= n -> sep <> EmptyString ->
  String.concat sep (split_from sep 0 cur s) = cur +:+ s.
Proof.
  induction n as [| n IH]; intros s cur Hn Hsep.
  - destruct s; [simpl; by rewrite append_empty_r | simpl in Hn; lia].
  - destruct s as [| c s]; [simpl; by rewrite append_empty_r |].
    cbn [split_from].
    destruct (String.prefix sep (String c s)) eqn:Hp.
    + apply prefix_append in Hp as [rest Hrest].
      destruct sep as [| a sep]; [done |].
      simpl in Hrest. injection Hrest as -> ->.
      cbn [String.length].
      replace (S (String.length sep) - 1) with (String.length sep) by lia.
      rewrite split_from_skip.
      rewrite concat_cons by apply split_from_nonempty.
      rewrite IH; [reflexivity | | done].
      simpl in Hn.
      assert (String.length (sep +:+ rest) = String.length sep + String.length rest) as Hl.
      { clear. induction sep as [| x sep IH]; simpl; [reflexivity | by rewrite IH]. }
      lia.
    + rewrite IH; [| simpl in Hn; lia | done].
      rewrite append_assoc. reflexivity.
Qed.

(** [sep.join(s.split(sep))] is [s]: splitting loses nothing but the
    separators. *)
Theorem split_join sep s l :
  split sep s = Ok l -> l <> [] /\ String.concat sep l = s.
Proof.
  unfold split. destruct sep as [| a sep]; [discriminate |].
  intros H. injection H as <-. split.
  - apply split_from_nonempty.
  - by rewrite (split_from_join _ (String.length s)).
Qed.

Lemma split_join_witness :
  ["Thriller"; "Dramas"; "Comedies"] <> []
  /\ String.concat ", " ["Thriller"; "Dramas"; "Comedies"]
     = "Thriller, Dramas, Comedies".
Proof.
  apply (split_join ", " "Thriller, Dramas, Comedies"). reflexivity.
Defined.

Lemma rstrip_rstrip s : rstrip (rstrip s) = rstrip s.
Proof.
  induction s as [| c s IH]; [reflexivity |].
  cbn [rstrip]. destruct (rstrip s) as [| a r] eqn:Hr.
  - destruct (is_space c) eqn:Hc; [reflexivity |].
    cbn [rstrip]. by rewrite Hc.
  - cbn [rstrip]. cbn [rstrip] in IH. 
    destruct (rstrip r) as [| b r'] eqn:Hr'.
    + destruct (is_space a); [discriminate |]. by rewrite IH.
    + by rewrite IH.
Qed.

Lemma lstrip_head s :
  match lstrip s with
  | String c _ => is_space c = false
  | EmptyString => True
  end.
Proof.
  induction s as [| c s IH]; simpl; [exact I |].
  destruct (is_space c) eqn:Hc; [exact IH | exact Hc].
Qed.

Lemma lstrip_rstrip s :
  match s with String c _ => is_space c = false | EmptyString => True end ->
  lstrip (rstrip s) = rstrip s.
Proof.
  destruct s as [| c s]; [reflexivity |]. intros Hc.
  cbn [rstrip]. destruct (rstrip s); rewrite ?Hc; simpl; by rewrite Hc.
Qed.

(** What [strip] returns has no white space left at either end: stripping
    it again on the left, on the right or on both sides changes nothing. *)
Theorem strip_stripped s :
  lstrip (strip s) = strip s /\ rstrip (strip s) = strip s
  /\ strip (strip s) = strip s.
Proof.
  assert (lstrip (strip s) = strip s) as Hl.
  { unfold strip. apply lstrip_rstrip, lstrip_head. }
  assert (rstrip (strip s) = strip s) as Hr.
  { unfold strip. apply rstrip_rstrip. }
  split; [exact Hl |]. split; [exact Hr |].
  unfold strip at 1. by rewrite Hl, Hr.
Qed.

(** With a separator that is not empty, the function applied to the cells
    of the right column never raises: a cell that is not a string is
    passed on as it is; a string becomes a list that is not empty, whose
    pieces joined with the separator are the pieces of the string and have
    no white space at either end. *)
Theorem split_and_strip_total sep x :
  sep <> EmptyString ->
  exists y,
    split_and_strip sep x = Ok y
    /\ (is_str x = false -> y = x)
    /\ (forall s, x = VStr s ->
          exists pieces,
            String.concat sep pieces = s
            /\ y = VList (map strip pieces)
            /\ map strip pieces <> []
            /\ Forall (fun p => strip p = p) (map strip pieces)).
Proof.
  intros Hsep.
  destruct x as [| s | z | l | l | l];
    try (eexists; split; [reflexivity |]; split; [done | discriminate]).
  unfold split_and_strip.
  destruct (split sep s) as [pieces | e] eqn:Hs.
  - apply split_join in Hs as [Hne Hjoin].
    eexists. split; [reflexivity |]. split; [discriminate |].
    intros s' [= <-]. exists pieces. split; [exact Hjoin |].
    split; [reflexivity |]. split.
    + destruct pieces; [done | discriminate].
    + apply Forall_forall. intros p Hp.
      apply list_elem_of_In, in_map_iff in Hp as (q & <- & _).
      apply strip_stripped.
  - unfold split in Hs. destruct sep; [done | discriminate].
Qed.

Lemma split_and_strip_total_witness :
  exists y,
    split_and_strip ", " (VStr "United States,  India , ") = Ok y
    /\ (is_str (VStr "United States,  India , ") = false
        -> y = VStr "United States,  India , ")
    /\ (forall s, VStr "United States,  India , " = VStr s ->
          exists pieces,
            String.concat ", " pieces = s
            /\ y = VList (map strip pieces)
            /\ map strip pieces <> []
            /\ Forall (fun p => strip p = p) (map strip pieces)).
Proof.
  apply (split_and_strip_total ", " (VStr "United States,  India , ")).
  discriminate.
Defined.

(* ===================================================================== *)
(** * The tables of the one-to-many split, for any key column             *)
(* ===================================================================== *)

Lemma first_occurrences_distinct seen i0 (l : list value) :
  map (fun i => nth (i - i0) l VNull)
      (first_occurrences (map (fun v => [v]) seen) i0 (map (fun v => [v]) l))
  = distinct seen l.
Proof.
  revert seen i0. induction l as [| v l IH]; intros seen i0; [reflexivity |].
  cbn [map first_occurrences distinct].
  assert (bool_decide ([v] ∈ map (fun v => [v]) seen) = bool_decide (v ∈ seen))
    as ->.
  { apply bool_decide_ext. rewrite !list_elem_of_In, in_map_iff. split.
    - intros (w & Hw & Hin). by injection Hw as ->.
    - intros Hin. eauto. }
  assert (forall s,
            map (fun i => nth (i - i0) (v :: l) VNull)
                (first_occurrences s (S i0) (map (fun v => [v]) l))
            = map (fun i => nth (i - S i0) l VNull)
                  (first_occurrences s (S i0) (map (fun v => [v]) l))) as Hshift.
  { intros s. apply map_ext_in. intros i Hi.
    apply list_elem_of_In, first_occurrences_range in Hi as [Hi _].
    replace (i - i0) with (S (i - S i0)) by lia. reflexivity. }
  destruct (bool_decide (v ∈ seen)).
  - rewrite Hshift. apply IH.
  - cbn [map]. rewrite Nat.sub_diag. cbn [nth]. f_equal.
    rewrite Hshift. apply (IH (v :: seen)).
Qed.

Lemma map_nth_seq_all (vs : list value) :
  map (fun i => [nth i vs VNull]) (seq 0 (length vs)) = map (fun v => [v]) vs.
Proof.
  apply (nth_ext _ _ [] []).
  - by rewrite !length_map, length_seq.
  - intros k Hk. rewrite length_map, length_seq in Hk.
    rewrite (nth_indep _ [] [nth 0 vs VNull]) by (by rewrite length_map, length_seq).
    rewrite (map_nth (fun i => [nth i vs VNull])), seq_nth by exact Hk.
    rewrite (nth_indep _ [] [VNull]) by (by rewrite length_map).
    by rewrite (map_nth (fun v => [v])).
Qed.

(** The cells that [drop_duplicates] keeps of a column are its distinct
    cells in order of first occurrence. *)
Lemma kept_distinct n col :
  length (values col) = n ->
  map (fun k => nth k (values col) VNull) (kept n col) = distinct [] (values col).
Proof.
  intros <-. unfold kept. rewrite rows_single, map_nth_seq_all.
  rewrite <- (first_occurrences_distinct [] 0).
  apply map_ext. intros i. by rewrite Nat.sub_0_r.
Qed.

(** The parent of a key column that is not called [id]. *)
Lemma parent_of_entity d key_col col parent :
  NoDup (labels d) -> aligned d -> 2 <= nrows d -> key_col <> "id" ->
  getitem d key_col = Ok col ->
  parent_of d key_col parent ->
  parent = entity key_col (values col).
Proof.
  intros Hnd Hal Hn Hid Hcol (p00 & p0 & p1 & pcol & Hsel & Hdd & Hast & Hpcol & ->).
  rewrite (getitem_select _ _ _ Hnd Hcol) in Hsel. injection Hsel as <-.
  pose proof (aligned_getitem _ _ _ Hal Hcol) as Hlen.
  pose proof (getitem_in _ _ _ Hcol) as [_ Hname].
  apply drop_duplicates_ok in Hdd as [[He _] | [_ ->]].
  { unfold empty in He. simpl in He.
    apply orb_true_iff in He as [He | He]; [| discriminate].
    apply Nat.eqb_eq in He. lia. }
  fold (kept (nrows d) col) in Hast.
  unfold astype, has_column, labels in Hast. simpl in Hast.
  rewrite Hname in Hast.
  rewrite bool_decide_eq_true_2 in Hast by left.
  rewrite bool_decide_eq_true_2 in Hast by reflexivity.
  injection Hast as <-.
  assert (bool_decide ("id" ∈ [key_col]) = false) as Hno.
  { apply bool_decide_eq_false. intros H.
    apply list_elem_of_singleton in H. congruence. }
  set (p1 := mkFrame _ _) in *.
  assert (setitem p1 "id" (index_plus_1 p1) =
          mkFrame (length (kept (nrows d) col))
            [ astype_string (take (kept (nrows d) col) col);
              mkSeries "id" int64 (ids (length (kept (nrows d) col))) ]) as Hq.
  { unfold setitem, has_column, labels. simpl. rewrite Hname, Hno. reflexivity. }
  rewrite Hq in *. clear Hq p1.
  unfold getitem in Hpcol. simpl in Hpcol. rewrite Hname in Hpcol.
  rewrite bool_decide_eq_true_2 in Hpcol by reflexivity.
  injection Hpcol as <-.
  unfold setitem, has_column, labels. simpl. rewrite Hname.
  rewrite bool_decide_eq_true_2 by left. simpl.
  rewrite bool_decide_eq_true_2 by reflexivity.
  rewrite bool_decide_eq_false_2 by congruence.
  unfold entity. cbv zeta.
  rewrite <- (kept_distinct (nrows d) col Hlen). rewrite !length_map.
  do 3 f_equal. rewrite !map_map. apply map_ext. intros k.
  unfold key_text. by destruct (nth k (values col) VNull).
Qed.

Lemma filter_map_take idx key (cols : list Series) :
  List.filter (fun c => negb (bool_decide (name c = key))) (map (take idx) cols)
  = map (take idx) (List.filter (fun c => negb (bool_decide (name c = key))) cols).
Proof.
  induction cols as [| c cols IH]; [reflexivity |]. simpl.
  destruct (bool_decide (name c = key)); simpl; by rewrite IH.
Qed.

Lemma rename_label_other (old new x : string) :
  x <> old -> rename_label [(old, new)] x = x.
Proof.
  intros Hne. unfold rename_label. simpl.
  by rewrite bool_decide_eq_false_2 by congruence.
Qed.

Section AnyKeyColumn.

Context {d : DataFrame} {key_col : string} {col : Series}.
Hypothesis Hlabels : NoDup (labels d).
Hypothesis Haligned : aligned d.
Hypothesis Hkey : key_col <> "id".
Hypothesis Hfresh : has_column "id_parent" d = false.
Hypothesis Hcol : getitem d key_col = Ok col.

(** On a table with unique labels and none called [id_parent], for a key
    column that is not called [id], a call of [split_with_foreign_key]
    that returns gives the entity table of the key column as parent and,
    as child, the rows of the input joined with the parent on the key with
    nulls replaced: the columns of the input but the key, and the id of
    the matching parent row. *)
Lemma split_with_foreign_key_returns df h h' child parent :
  h !! df = Some (PyDataFrame d) ->
  split_with_foreign_key df key_col h = (h', Ok (child, parent)) ->
  parent = entity key_col (values col)
  /\ child = child_table d key_col col.
Proof.
  intros Hd H.
  apply split_with_foreign_key_ok in H
    as (d0 & col0 & merged & Hd0 & Hn & Hcol0 & Hparent & Hmerge & Hdrop).
  rewrite Hd in Hd0. injection Hd0 as <-.
  rewrite Hcol in Hcol0. injection Hcol0 as <-.
  pose proof (parent_of_entity _ _ _ _ Hlabels Haligned Hn Hkey Hcol Hparent)
    as ->.
  split; [reflexivity |].
  pose proof (getitem_in _ _ _ Hcol) as [Hcol_in Hname].
  pose proof (getitem_has_column _ _ _ Hcol) as Hhas.
  set (keys := map key_text (distinct [] (values col))) in *.
  set (d' := setitem d key_col (fillna Unknown col)) in *.
  assert (columns d' =
          map (fun c => if bool_decide (name c = key_col)
                        then mkSeries key_col (dtype_of col) (map coalesce (values col))
                        else c) (columns d)) as Hcols'.
  { unfold d', setitem. by rewrite Hhas. }
  assert (labels d' = labels d) as Hl'.
  { unfold d'. by rewrite labels_setitem, Hhas. }
  (* the two key columns *)
  assert (getitem d' key_col
          = Ok (mkSeries key_col (dtype_of col) (map coalesce (values col)))) as Hlk
    by apply getitem_setitem_eq.
  assert (getitem (entity key_col (values col)) key_col
          = Ok (mkSeries key_col string_dtype keys)) as Hrk.
  { unfold getitem, entity. simpl. by rewrite bool_decide_eq_true_2. }
  assert (right_columns (entity key_col (values col)) key_col
          = [mkSeries "id" int64 (ids (length keys))]) as Hright.
  { unfold right_columns, entity. simpl.
    rewrite bool_decide_eq_true_2 by reflexivity.
    rewrite bool_decide_eq_false_2 by congruence. simpl.
    unfold keys. by rewrite !length_map. }
  (* the merged table *)
  pose proof (merge_columns Hmerge Hlk Hrk) as Hm.
  rewrite Hright in Hm. cbn [values map name] in Hm.
  set (pairs := inner_join 0 (map coalesce (values col)) keys) in *.
  set (t := shared (labels d') ["id"]) in *.
  assert (renamer t "_parent" "id"
          = if has_column "id" d then "id_parent" else "id") as Hren.
  { unfold renamer, t, has_column. rewrite <- Hl'.
    destruct (bool_decide ("id" ∈ labels d')) eqn:Hid.
    - apply bool_decide_eq_true in Hid. rewrite bool_decide_eq_true_2; [done |].
      apply elem_of_shared. split; [exact Hid | left].
    - apply bool_decide_eq_false in Hid. rewrite bool_decide_eq_false_2; [done |].
      intros Hin. apply elem_of_shared in Hin as [Hin _]. by apply Hid. }
  rewrite Hren in Hm. subst merged.
  (* renaming and dropping *)
  unfold drop in Hdrop.
  destruct (has_column key_col _); [| discriminate]. injection Hdrop as <-.
  unfold child_table. fold keys. fold pairs. cbv zeta.
  unfold rename. cbn [nrows columns]. f_equal.
  rewrite map_app, List.filter_app. f_equal.
  - rewrite !map_map.
    rewrite <- (filter_after_setitem (columns d) key_col
                  (mkSeries key_col (dtype_of col) (map coalesce (values col))))
      by reflexivity.
    rewrite <- Hcols', <- filter_map_take. f_equal.
    apply map_ext_in. intros c Hc.
    assert (name c <> "id_parent") as Hne.
    { intros Heq. apply bool_decide_eq_false in Hfresh. apply Hfresh.
      rewrite <- Hl', <- Heq. by apply list_elem_of_In, in_map. }
    cbn [name relabel dtype_of values].
    assert (renamer t EmptyString (name c) = name c) as ->.
    { unfold renamer. destruct (bool_decide _); [apply append_empty_r | done]. }
    rewrite rename_label_other by exact Hne. by destruct c.
  - cbn [map List.filter relabel take name dtype_of values].
    assert (rename_label [("id_parent", key_col +:+ "_id")]
              (if has_column "id" d then "id_parent" else "id")
            = foreign_key_label d key_col) as ->.
    { unfold foreign_key_label. destruct (has_column "id" d); reflexivity. }
    assert (foreign_key_label d key_col <> key_col) as Hfk.
    { unfold foreign_key_label. destruct (has_column "id" d);
        [apply append_id_neq | congruence]. }
    rewrite bool_decide_eq_false_2 by exact Hfk. cbn [negb].
    unfold relabel, take. cbn [name dtype_of values].
    do 2 f_equal. rewrite map_map. apply map_ext_in. intros [i j] Hp.
    apply list_elem_of_In in Hp. unfold pairs in Hp.
    apply inner_join_spec in Hp as (_ & _ & Hj & _).
    cbn [snd]. apply ids_nth. exact Hj.
Qed.

End AnyKeyColumn.

(* ===================================================================== *)
(** * Calls that return                                                   *)
(* ===================================================================== *)

Lemma nunique_hash_all col n : nunique col = Ok n -> hash_all (values col) = Ok tt.
Proof.
  unfold nunique. destruct (hash_all (values col)) as [[] | e]; [done | discriminate].
Qed.

Lemma hash_all_forall (l : list value) :
  Forall (fun v => hashable v = true) l -> hash_all l = Ok tt.
Proof.
  induction 1 as [| v l Hv _ IH]; [reflexivity |].
  simpl. by rewrite Hv.
Qed.

Lemma hash_all_coalesce (l : list value) :
  hash_all l = Ok tt -> hash_all (map coalesce l) = Ok tt.
Proof.
  intros H. apply hash_all_forall, Forall_forall. intros v Hv.
  apply list_elem_of_In, in_map_iff in Hv as (w & <- & Hw).
  unfold coalesce. destruct (isnull w); [reflexivity |].
  eapply hash_all_ok; [exact H | by apply list_elem_of_In].
Qed.

Lemma hash_all_key_text (l : list value) : hash_all (map key_text l) = Ok tt.
Proof.
  apply hash_all_forall, Forall_forall. intros v Hv.
  apply list_elem_of_In, in_map_iff in Hv as (w & <- & _).
  unfold key_text. by destruct (isnull w).
Qed.

Lemma drop_duplicates_returns df :
  hash_all (concat (map values (columns df))) = Ok tt ->
  exists e, drop_duplicates df = Ok e.
Proof.
  intros H. unfold drop_duplicates. destruct (empty df); [eauto |].
  rewrite H. simpl. eauto.
Qed.

Lemma merge_returns left right on lsuffix rsuffix lk rk new_labels :
  getitem left on = Ok lk -> getitem right on = Ok rk ->
  maybe_coerce_merge_keys lk rk = Ok tt ->
  hash_all (values lk) = Ok tt -> hash_all (values rk) = Ok tt ->
  items_overlap_with_suffix (labels left) (map name (right_columns right on))
    lsuffix rsuffix = Ok new_labels ->
  exists m, merge left right on lsuffix rsuffix = Ok m.
Proof.
  intros Hlk Hrk Hco Hhl Hhr Hnew. unfold merge.
  rewrite Hlk, Hrk. cbn [res_bind]. rewrite Hco. cbn [res_bind].
  rewrite Hhl, Hhr. cbn [res_bind].
  unfold right_columns in Hnew. rewrite Hnew. cbn [res_bind]. eauto.
Qed.

(** Merging an object column with a ['string'] column is let through. *)
Lemma maybe_coerce_object_string lk rk :
  dtype_of lk = object -> dtype_of rk = string_dtype ->
  maybe_coerce_merge_keys lk rk = Ok tt.
Proof.
  intros Hl Hr. unfold maybe_coerce_merge_keys. rewrite Hl, Hr.
  destruct (_ || _); [reflexivity |].
  by rewrite bool_decide_eq_false_2.
Qed.

Lemma shared_id (ls : list string) :
  NoDup ls ->
  shared ls ["id"] = if bool_decide ("id" ∈ ls) then ["id"] else [].
Proof.
  unfold shared. induction ls as [| x ls IH]; intros Hnd; [reflexivity |].
  apply NoDup_cons in Hnd as [Hx Hnd]. simpl. rewrite (IH Hnd).
  destruct (decide (x = "id")) as [-> | Hne].
  - rewrite bool_decide_eq_true_2 by left.
    rewrite (bool_decide_eq_true_2 ("id" ∈ "id" :: ls)) by left.
    by rewrite bool_decide_eq_false_2.
  - rewrite bool_decide_eq_false_2.
    + destruct (bool_decide ("id" ∈ ls)) eqn:Hin.
      * apply bool_decide_eq_true in Hin.
        rewrite bool_decide_eq_true_2; [done | by right].
      * apply bool_decide_eq_false in Hin.
        rewrite bool_decide_eq_false_2; [done |].
        intros H. apply elem_of_cons in H as [H | H]; congruence.
    + intros H. apply list_elem_of_singleton in H. congruence.
Qed.

Lemma map_renamer_empty t (ls : list string) : map (renamer t EmptyString) ls = ls.
Proof.
  rewrite <- (map_id ls) at 2. apply map_ext. intros x. unfold renamer.
  destruct (bool_decide _); [apply append_empty_r | reflexivity].
Qed.

Lemma duplicated_by_suffix_same (ls : list string) : duplicated_by_suffix ls ls = [].
Proof.
  unfold duplicated_by_suffix.
  generalize (duplicated [] ls). intros bs. revert bs.
  induction ls as [| x ls IH]; intros bs; [reflexivity |].
  destruct bs as [| b bs]; [reflexivity |]. simpl.
  destruct b; simpl; apply IH.
Qed.

Lemma filter_none {A} (f : A -> bool) (l : list A) :
  (forall x, x ∈ l -> f x = false) -> List.filter f l = [].
Proof.
  induction l as [| x l IH]; intros H; [reflexivity |]. simpl.
  rewrite H by left. apply IH. intros y Hy. apply H. by right.
Qed.

(** The labels of the merge with the parent table never clash when the
    input has unique labels and none is called [id_parent]. *)
Lemma items_overlap_parent (ls : list string) :
  NoDup ls -> "id_parent" ∉ ls ->
  exists new_labels,
    items_overlap_with_suffix ls ["id"] EmptyString "_parent" = Ok new_labels.
Proof.
  intros Hnd Hfresh. unfold items_overlap_with_suffix.
  fold (shared ls ["id"]). rewrite (shared_id ls Hnd).
  destruct (bool_decide ("id" ∈ ls)) eqn:Hid; [| eauto].
  cbn [andb bool_decide]. rewrite (bool_decide_eq_false_2 ("_parent" = EmptyString))
    by discriminate.
  rewrite andb_false_r. rewrite map_renamer_empty, duplicated_by_suffix_same.
  assert (difference ["id"] ["id"] = []) as -> by reflexivity.
  rewrite (filter_none (fun x => bool_decide (x ∈ []))).
  2:{ intros x _. apply bool_decide_eq_false, not_elem_of_nil. }
  assert (map (renamer ["id"] "_parent") ["id"] = ["id_parent"]) as -> by reflexivity.
  rewrite (filter_none _ ["id_parent"]).
  2:{ intros x Hx. apply list_elem_of_singleton in Hx. subst x.
      apply bool_decide_eq_false. intros H.
      apply elem_of_difference in H as [H _]. by apply Hfresh. }
  eauto.
Qed.

Section AcceptedKeyColumn.

Context {d : DataFrame} {key_col : string} {col : Series}.
Hypothesis Hlabels : NoDup (labels d).
Hypothesis Haligned : aligned d.
Hypothesis Hkey : key_col <> "id".
Hypothesis Hfresh : has_column "id_parent" d = false.
Hypothesis Hcol : getitem d key_col = Ok col.

(** Nothing after the validation raises. *)
Lemma split_with_foreign_key_goes_through df h :
  h !! df = Some (PyDataFrame d) -> accepted d key_col ->
  exists child parent,
    split_with_foreign_key df key_col h
    = (<[df := PyDataFrame (setitem d key_col (fillna Unknown col))]> h,
       Ok (child, parent)).
Proof.
  intros Hd (col0 & n & He & Hn & Hcol0 & Hdt & Hnull & Hnu & Hn2 & Hnn & Hlst).
  rewrite Hcol in Hcol0. injection Hcol0 as <-.
  pose proof (getitem_has_column _ _ _ Hcol) as Hhas.
  pose proof (getitem_in _ _ _ Hcol) as [Hcol_in Hname].
  pose proof (nunique_hash_all _ _ Hnu) as Hhash.
  (* the parent table *)
  destruct (drop_duplicates_returns (mkFrame (nrows d) [col])) as [p0 Hp0].
  { simpl. by rewrite app_nil_r. }
  assert (labels p0 = [key_col]) as Hl0.
  { rewrite (drop_duplicates_labels _ _ Hp0). unfold labels. simpl. by rewrite Hname. }
  assert (exists p1, astype p0 key_col = Ok p1) as [p1 Hp1].
  { unfold astype, has_column. rewrite Hl0.
    rewrite bool_decide_eq_true_2 by left. eauto. }
  destruct (astype_ok _ _ _ Hp1) as (_ & _ & Hl1 & _).
  assert (exists pcol, getitem (setitem p1 "id" (index_plus_1 p1)) key_col = Ok pcol)
    as [pcol Hpcol].
  { apply has_column_getitem. unfold has_column. apply bool_decide_eq_true.
    rewrite labels_setitem, Hl1, Hl0.
    destruct (has_column "id" p1); [left | apply elem_of_app; left; left]. }
  set (parent := setitem (setitem p1 "id" (index_plus_1 p1)) key_col
                   (fillna Unknown pcol)).
  assert (parent_of d key_col parent) as Hparent.
  { exists (mkFrame (nrows d) [col]), p0, p1, pcol.
    split; [by apply getitem_select |]. by repeat split. }
  pose proof (parent_of_entity _ _ _ _ Hlabels Haligned Hn Hkey Hcol Hparent)
    as Hent.
  (* the merge *)
  set (d' := setitem d key_col (fillna Unknown col)).
  assert (labels d' = labels d) as Hl'.
  { unfold d'. by rewrite labels_setitem, Hhas. }
  assert (exists merged, merge d' parent key_col EmptyString "_parent" = Ok merged)
    as [merged Hmerge].
  { rewrite Hent.
    destruct (items_overlap_parent (labels d')) as [new_labels Hnew].
    - by rewrite Hl'.
    - rewrite Hl'. by apply bool_decide_eq_false in Hfresh.
    - eapply merge_returns.
      + apply getitem_setitem_eq.
      + unfold getitem, entity. simpl. by rewrite bool_decide_eq_true_2.
      + by apply maybe_coerce_object_string.
      + simpl. by apply hash_all_coalesce.
      + simpl. apply hash_all_key_text.
      + unfold right_columns, entity. simpl.
        rewrite bool_decide_eq_true_2 by reflexivity.
        rewrite bool_decide_eq_false_2 by congruence. exact Hnew. }
  (* the key column is still there to be dropped *)
  assert (exists child,
            drop (rename merged [("id_parent", key_col +:+ "_id")]) key_col = Ok child)
    as [child Hchild].
  { unfold drop.
    assert (has_column key_col (rename merged [("id_parent", key_col +:+ "_id")])
            = true) as ->; [| eauto].
    apply bool_decide_eq_true.
    destruct (merge_labels _ _ _ _ _ _ Hmerge) as (ll & rl & Hnew & Hlm).
    apply items_overlap_ok in Hnew as (-> & _ & _).
    rewrite map_renamer_empty, Hl' in Hlm.
    unfold rename, labels. simpl. rewrite map_map. simpl.
    rewrite <- (map_map name). fold (labels merged). rewrite Hlm.
    apply list_elem_of_In, in_map_iff. exists key_col. split.
    - apply rename_label_other. intros ->.
      apply bool_decide_eq_false in Hfresh. apply Hfresh.
      by apply bool_decide_eq_true in Hhas.
    - apply in_or_app. left. apply list_elem_of_In.
      by apply bool_decide_eq_true in Hhas. }
  (* the statements in turn *)
  exists child, parent. unfold split_with_foreign_key.
  rewrite bind_load, Hd, bind_raise_if, He, bind_raise_if.
  rewrite (proj2 (Nat.ltb_ge _ _) Hn).
  rewrite bind_raise_if, Hhas. cbn [negb].
  rewrite bind_lift, Hcol, bind_raise_if, Hdt.
  rewrite bool_decide_eq_true_2 by reflexivity. cbn [negb].
  rewrite bind_raise_if, Hnull, bind_lift, Hnu, bind_raise_if.
  rewrite (proj2 (Nat.eqb_neq _ _) Hnn).
  rewrite bind_lift. cbv beta iota. rewrite bind_raise_if.
  assert ((n =? 1) = false) as -> by (apply Nat.eqb_neq; lia).
  rewrite bind_raise_if, Hlst.
  rewrite bind_lift, (getitem_select _ _ _ Hlabels Hcol). cbn [res_bind].
  rewrite Hp0, bind_lift, Hp1. cbv beta iota zeta.
  rewrite bind_store, bind_lift, Hpcol, bind_load, lookup_insert_eq.
  fold d'. fold parent. rewrite bind_lift, Hmerge, bind_lift, Hchild.
  reflexivity.
Qed.


End AcceptedKeyColumn.


(** ** Every foreign key of the child exists in the parent *)

Lemma elem_of_ids n j : j < n -> VInt (Z.of_nat (S j)) ∈ ids n.
Proof.
  intros Hj. unfold ids. apply list_elem_of_In, in_map_iff.
  exists (S j). split; [reflexivity |]. apply in_seq. lia.
Qed.

(** The last column of the child table that [split_with_foreign_key]
    returns is the foreign key: it has one cell per row of the child, and
    every cell is a cell of the [id] column of the parent table. *)
Theorem split_with_foreign_key_references
        d key_col col df h h' child parent :
  NoDup (labels d) -> aligned d -> key_col <> "id" ->
  has_column "id_parent" d = false -> getitem d key_col = Ok col ->
  h !! df = Some (PyDataFrame d) ->
  split_with_foreign_key df key_col h = (h', Ok (child, parent)) ->
  exists others fk idcol,
    columns child = others ++ [fk]
    /\ name fk = foreign_key_label d key_col
    /\ length (values fk) = nrows child
    /\ getitem parent "id" = Ok idcol
    /\ values idcol = ids (nrows parent)
    /\ forall v, v ∈ values fk -> v ∈ values idcol.
Proof.
  intros Hnd Hal Hkey Hfresh Hcol Hd H.
  destruct (split_with_foreign_key_returns Hnd Hal Hkey Hfresh Hcol
              df h h' child parent Hd H) as [-> ->].
  unfold child_table, entity. cbv zeta.
  set (keys := distinct [] (values col)).
  set (pairs := inner_join 0 (map coalesce (values col)) (map key_text keys)).
  eexists _, _, (mkSeries "id" int64 (ids (length keys))).
  split; [reflexivity |]. split; [reflexivity |].
  split; [simpl; by rewrite length_map |].
  split.
  { unfold getitem. simpl. by rewrite bool_decide_eq_false_2. }
  split; [reflexivity |].
  intros v Hv. simpl in Hv. simpl.
  apply list_elem_of_In, in_map_iff in Hv as ([i j] & <- & Hp).
  apply list_elem_of_In in Hp. unfold pairs in Hp.
  apply inner_join_spec in Hp as (_ & _ & Hj & _).
  rewrite length_map in Hj. by apply elem_of_ids.
Qed.

Lemma split_with_foreign_key_references_shows :
  exists others fk idcol,
    [ mkSeries "title" object [VStr "A"; VStr "B"; VStr "C"; VStr "D"];
      mkSeries "id" int64 (ints [1; 2; 1; 1])%Z ] = others ++ [fk]
    /\ name fk = foreign_key_label shows "type"
    /\ length (values fk) = 4
    /\ getitem (mkFrame 2
                  [ mkSeries "type" string_dtype [VStr "Movie"; VStr "TV Show"];
                    mkSeries "id" int64 (ints [1; 2])%Z ]) "id" = Ok idcol
    /\ values idcol = ids 2
    /\ forall v, v ∈ values fk -> v ∈ values idcol.
Proof.
  assert (NoDup (labels shows)) as Hnd
    by (apply (bool_decide_unpack _); vm_compute; exact I).
  assert (aligned shows) as Hal by (repeat constructor).
  eapply (split_with_foreign_key_references shows "type" _ 0 (bound shows) _
            (mkFrame 4 _) (mkFrame 2 _) Hnd Hal ltac:(discriminate) eq_refl).
  - vm_compute. reflexivity.
  - reflexivity.
  - vm_compute. reflexivity.
Defined.

(* ===================================================================== *)
(** * The left and the right table of the many-to-many split              *)
(* ===================================================================== *)

(** What a call that returns has computed, with the table that step 1
    hands on. *)
Lemma split_many_to_many_input df left_col right_col sep h h' left right junction :
  split_many_to_many df left_col right_col sep h = (h', Ok (left, right, junction)) ->
  exists d rcol c d1,
    h !! df = Some (PyDataFrame d)
    /\ 2 <= nrows d
    /\ getitem d right_col = Ok rcol
    /\ normalised sep rcol = Ok c
    /\ d1 = match sep with Some _ => setitem d right_col c | None => d end
    /\ many_to_many_steps d1 left_col right_col left right junction.
Proof.
  intros H. unfold split_many_to_many in H.
  step H d Ed. check H E1. check H E2. check H E3. check H E4.
  step H lcol Elcol. check H E5. step H rcol Ercol. check H E6.
  step H n En. check H E7.
  step H d1 Ed1.
  assert (exists c, normalised sep rcol = Ok c
                    /\ d1 = match sep with Some _ => setitem d right_col c | None => d end
                    /\ h0 = h) as (c & Hc & Hd1 & ->).
  { destruct sep as [s|].
    - step Ed1 new Enew. apply ret_ok in Ed1 as [<- ->]. by exists new.
    - apply ret_ok in Ed1 as [<- ->]. by exists rcol. }
  step H e Ee. step H left0 El. res_inv El as l0 El0.
  step H r0 Er. res_inv Er as r00 Er00. step H r1 Er1. step H rvals Erv.
  step H j Ej. res_inv Ej as m1 Em1. res_inv Ej as m2 Em2.
  res_inv Ej as p Ep. res_inv Ej as j0 Ej0. injection Ej as <-.
  apply ret_ok in H as [H _]. injection H as <- <- <-.
  exists d, rcol, c, d1. split; [exact Ed |]. split.
  { apply Nat.ltb_ge in E2. exact E2. }
  split; [exact Ercol |]. split; [exact Hc |]. split; [exact Hd1 |].
  by econstructor.
Qed.

Lemma names_filter (p : string -> bool) (cols : list Series) :
  List.filter p (map name cols) = map name (List.filter (fun c => p (name c)) cols).
Proof.
  induction cols as [| c cols IH]; [reflexivity |]. simpl.
  destruct (p (name c)); simpl; by rewrite IH.
Qed.

(** Selecting the labels of some of the columns of a table with unique
    labels gives these columns. *)
Lemma select_map_name cols cs :
  NoDup (map name cols) -> (forall c, c ∈ cs -> c ∈ cols) ->
  select cols (map name cs) = Ok cs.
Proof.
  intros Hnd. induction cs as [| c cs IH]; intros Hin; [reflexivity |].
  simpl. rewrite (filter_name_unique cols c Hnd) by (apply Hin; left).
  rewrite IH by (intros c' Hc'; apply Hin; by right). reflexivity.
Qed.

Lemma select_all_but cols key :
  NoDup (map name cols) ->
  select cols (List.filter (fun x => negb (bool_decide (x = key))) (map name cols))
  = Ok (List.filter (fun c => negb (bool_decide (name c = key))) cols).
Proof.
  intros Hnd.
  rewrite (names_filter (fun x => negb (bool_decide (x = key)))).
  apply select_map_name; [exact Hnd |].
  intros c Hc. apply list_elem_of_In, filter_In in Hc as [Hc _].
  by apply list_elem_of_In.
Qed.

Lemma without_setitem d key s :
  has_column key d = true -> without (setitem d key s) key = without d key.
Proof.
  intros Hhas. unfold without, setitem. rewrite Hhas. simpl. f_equal.
  by apply filter_after_setitem.
Qed.

Lemma explode_cell_length v : 1 <= length (explode_cell v).
Proof.
  destruct v as [| s | z | l | l | l]; simpl; try lia;
    destruct l; simpl; lia.
Qed.

Lemma concat_explode_length (vs : list value) :
  length vs <= length (concat (map explode_cell vs)).
Proof.
  induction vs as [| v vs IH]; simpl; [lia |].
  rewrite length_app. pose proof (explode_cell_length v). lia.
Qed.

Lemma exploded_cells_length c : length (values c) <= length (exploded_cells c).
Proof.
  unfold exploded_cells. destruct (dtype_of c); try lia.
  apply concat_explode_length.
Qed.

Lemma find_replaced key (new : Series) (f : Series -> Series) cols :
  name new = key -> key ∈ map name cols ->
  List.find (fun c => bool_decide (name c = key))
    (map (fun c => if bool_decide (name c = key) then new else f c) cols)
  = Some new
  \/ exists c, c ∈ cols /\ name c <> key /\ name (f c) = key.
Proof.
  intros Hnew. induction cols as [| c cols IH]; intros Hin.
  - by apply elem_of_nil in Hin.
  - simpl. destruct (bool_decide (name c = key)) eqn:Hc.
    + left. by rewrite Hnew, bool_decide_eq_true_2.
    + apply bool_decide_eq_false in Hc.
      destruct (bool_decide (name (f c) = key)) eqn:Hfc.
      * apply bool_decide_eq_true in Hfc. right. exists c.
        split; [left | done].
      * simpl in Hin. apply elem_of_cons in Hin as [Hin | Hin]; [congruence |].
        destruct (IH Hin) as [H | (c' & Hc' & Hn & Hf)]; [by left |].
        right. exists c'. split; [by right | done].
Qed.

(** The exploded column and the number of rows of the exploded table. *)
Lemma explode_column df column e c :
  explode df column = Ok e -> aligned df -> getitem df column = Ok c ->
  exists ecol,
    getitem e column = Ok ecol
    /\ values ecol = exploded_cells c
    /\ nrows e = length (exploded_cells c)
    /\ labels e = labels df /\ NoDup (labels df).
Proof.
  intros H Hal Hc. pose proof (explode_ok _ _ _ H) as (Hnd & Hl & _).
  unfold explode in H. rewrite bool_decide_eq_true_2 in H by exact Hnd.
  simpl in H. rewrite Hc in H. simpl in H.
  pose proof (aligned_getitem _ _ _ Hal Hc) as Hlen.
  pose proof (getitem_in _ _ _ Hc) as [Hin Hname].
  unfold exploded_cells.
  destruct (dtype_of c) eqn:Hdt; try (injection H as <-; exists c; by repeat split).
  injection H as <-.
  exists (mkSeries (name c) object (concat (map explode_cell (values c)))).
  split; [| repeat split; try done; simpl; apply explode_positions_length].
  unfold getitem. simpl.
  destruct (find_replaced column
              (mkSeries (name c) object (concat (map explode_cell (values c))))
              (take (explode_positions 0 (values c))) (columns df))
    as [-> | (c' & _ & Hne & Heq)]; [exact Hname | | reflexivity | done].
  apply list_elem_of_In, in_map_iff. exists c. split; [exact Hname |].
  by apply list_elem_of_In.
Qed.

(** The right table, from the statements that build it. *)
Lemma right_chain_entity d1 right_col c exploded r00 r0 r1 rvals :
  aligned d1 -> 2 <= nrows d1 -> right_col <> "id" ->
  getitem d1 right_col = Ok c ->
  explode d1 right_col = Ok exploded ->
  getitem_list exploded [right_col] = Ok r00 ->
  drop_duplicates r00 = Ok r0 ->
  astype (setitem r0 "id" (index_plus_1 r0)) right_col = Ok r1 ->
  getitem r1 right_col = Ok rvals ->
  setitem r1 right_col (fillna Unknown rvals) = entity right_col (exploded_cells c).
Proof.
  intros Haligned Hrows Hne Hc Hexplode Hselect_right Hdistinct Hastype Hgetitem.
  destruct (explode_column _ _ _ _ Hexplode Haligned Hc)
    as (ecol & Hecol & Hvals & Hn & Hl & Hnd).
  pose proof (getitem_in _ _ _ Hecol) as [_ Hname].
  assert (NoDup (labels exploded)) as Hnde by (by rewrite Hl).
  rewrite (getitem_select _ _ _ Hnde Hecol) in Hselect_right.
  injection Hselect_right as <-.
  pose proof (exploded_cells_length c) as Hlen.
  rewrite (aligned_getitem _ _ _ Haligned Hc) in Hlen.
  apply drop_duplicates_ok in Hdistinct as [[He _] | [_ ->]].
  { unfold empty in He. simpl in He.
    apply orb_true_iff in He as [He | He]; [| discriminate].
    apply Nat.eqb_eq in He. lia. }
  fold (kept (nrows exploded) ecol) in Hastype.
  assert (bool_decide ("id" ∈ [right_col]) = false) as Hno.
  { apply bool_decide_eq_false. intros H.
    apply list_elem_of_singleton in H. congruence. }
  set (r0 := take_rows _ _) in *.
  assert (setitem r0 "id" (index_plus_1 r0) =
          mkFrame (length (kept (nrows exploded) ecol))
            [ take (kept (nrows exploded) ecol) ecol;
              mkSeries "id" int64 (ids (length (kept (nrows exploded) ecol))) ]) as Hq.
  { unfold setitem, has_column, labels. simpl. rewrite Hname, Hno. reflexivity. }
  rewrite Hq in Hastype. clear Hq r0.
  unfold astype, has_column, labels in Hastype. simpl in Hastype.
  rewrite Hname in Hastype.
  rewrite bool_decide_eq_true_2 in Hastype by left.
  rewrite bool_decide_eq_true_2 in Hastype by reflexivity.
  rewrite bool_decide_eq_false_2 in Hastype by congruence.
  injection Hastype as <-.
  unfold getitem in Hgetitem. simpl in Hgetitem. rewrite Hname in Hgetitem.
  rewrite bool_decide_eq_true_2 in Hgetitem by reflexivity.
  injection Hgetitem as <-.
  unfold setitem, has_column, labels. simpl. rewrite Hname.
  rewrite bool_decide_eq_true_2 by left. simpl.
  rewrite bool_decide_eq_true_2 by reflexivity.
  rewrite bool_decide_eq_false_2 by congruence.
  unfold entity. cbv zeta. rewrite <- Hvals.
  rewrite <- (kept_distinct (nrows exploded) ecol) by (by rewrite Hvals, Hn).
  rewrite !length_map.
  do 3 f_equal. rewrite !map_map. apply map_ext. intros k.
  unfold key_text. by destruct (nth k (values ecol) VNull).
Qed.

Section RightTable.

Context {d1 : DataFrame} {left_col right_col : string}
        {left right junction : DataFrame} {c : Series}.
Hypothesis steps : many_to_many_steps d1 left_col right_col left right junction.
Hypothesis Haligned : aligned d1.
Hypothesis Hrows : 2 <= nrows d1.
Hypothesis Hc : getitem d1 right_col = Ok c.


End RightTable.

Lemma aligned_normalised d right_col sep rcol c :
  aligned d -> getitem d right_col = Ok rcol -> normalised sep rcol = Ok c ->
  aligned (match sep with Some _ => setitem d right_col c | None => d end)
  /\ exists c',
       getitem (match sep with Some _ => setitem d right_col c | None => d end)
               right_col = Ok c'
       /\ exploded_cells c' = exploded_cells c.
Proof.
  intros Hal Hr Hc. destruct sep as [s|]; simpl in Hc.
  - unfold apply in Hc. res_inv Hc as vs Evs. injection Hc as <-.
    assert (length vs = length (values rcol)) as Hlen.
    { clear -Evs. revert vs Evs.
      induction (values rcol) as [| v l IH]; intros vs H; simpl in H.
      - by injection H as <-.
      - res_inv H as y Ey. res_inv H as ys Eys. injection H as <-.
        simpl. f_equal. by apply IH. }
    split.
    + apply aligned_setitem; [exact Hal |]. simpl.
      by rewrite Hlen, (aligned_getitem _ _ _ Hal Hr).
    + eexists. split; [apply getitem_setitem_eq | reflexivity].
  - injection Hc as <-. split; [exact Hal |]. eauto.
Qed.



(** The left table is the caller's table without the right column,
    deduplicated; the key column is one of its columns. *)
Lemma split_many_to_many_left_dedup
      d df left_col right_col sep h h' left right junction :
  h !! df = Some (PyDataFrame d) ->
  split_many_to_many df left_col right_col sep h = (h', Ok (left, right, junction)) ->
  drop_duplicates (without d right_col) = Ok left
  /\ columns (without d right_col) <> []
  /\ NoDup (labels d).
Proof.
  intros Hd H.
  pose proof (split_many_to_many_input _ _ _ _ _ _ _ _ _ H)
    as (d0 & rcol & c & d1 & Hd0 & Hn & Hr & Hc & Hd1 & Hsteps).
  rewrite Hd in Hd0. injection Hd0 as <-.
  pose proof (getitem_has_column _ _ _ Hr) as Hhas.
  assert (without d1 right_col = without d right_col) as Hw.
  { subst d1. destruct sep; [by apply without_setitem | reflexivity]. }
  assert (labels d1 = labels d) as Hl.
  { subst d1. destruct sep; [| reflexivity]. by rewrite labels_setitem, Hhas. }
  pose proof (steps_labels_unique Hsteps) as Hnd.
  destruct Hsteps.
  unfold getitem_list in Hselect_left.
  unfold labels in Hselect_left. rewrite (select_all_but _ _ Hnd) in Hselect_left.
  simpl in Hselect_left. injection Hselect_left as <-.
  fold (without d1 right_col) in Hleft. rewrite Hw in Hleft.
  split; [exact Hleft |]. split; [| by rewrite <- Hl].
  apply merge_ok in Hmerge1 as (lk & rk & _ & Hrk & _).
  apply getitem_in in Hrk as [Hrk _].
  intros Hnil. apply drop_duplicates_ok in Hleft as [[_ ->] | [_ ->]];
    cbn [take_rows columns] in Hrk; rewrite Hnil in Hrk;
    by apply elem_of_nil in Hrk.
Qed.

Lemma labels_without d key :
  labels (without d key)
  = List.filter (fun x => negb (bool_decide (x = key))) (labels d).
Proof.
  unfold without, labels. simpl.
  by rewrite (names_filter (fun x => negb (bool_decide (x = key)))).
Qed.

(** Every row of a table is a row of its deduplicated version. *)
Lemma drop_duplicates_cover t e r :
  drop_duplicates t = Ok e -> r ∈ rows t -> r ∈ rows e.
Proof.
  intros H Hr.
  apply drop_duplicates_ok in H as [[_ ->] | [_ ->]]; [exact Hr |].
  rewrite rows_take_rows.
  destruct (first_occurrences_cover [] 0 _ _ Hr) as [H0 | H0];
    [by apply elem_of_nil in H0 |].
  apply list_elem_of_In, in_map_iff in H0 as (i & <- & Hi).
  apply list_elem_of_In, in_map_iff. exists i. split; [| exact Hi].
  apply list_elem_of_In, first_occurrences_range in Hi as [_ Hi].
  rewrite rows_length in Hi. rewrite Nat.sub_0_r.
  symmetry. by apply nth_rows.
Qed.



(* ===================================================================== *)
(** * The splits in sequence (csv_to_database.py)                         *)
(* ===================================================================== *)

Lemma alloc_ok d h h' l :
  alloc d h = (h', Ok l) -> h !! l = None /\ h' = <[l := PyDataFrame d]> h.
Proof.
  unfold alloc. intros H. injection H as <- <-. split; [| reflexivity].
  apply not_elem_of_dom, is_fresh.
Qed.

Lemma getitem_unique d c :
  NoDup (labels d) -> c ∈ columns d -> getitem d (name c) = Ok c.
Proof.
  unfold getitem, labels. intros Hnd Hin.
  induction (columns d) as [| c0 cols IH]; [by apply elem_of_nil in Hin |].
  simpl in Hnd. apply NoDup_cons in Hnd as [Hc0 Hnd]. simpl.
  apply elem_of_cons in Hin as [-> | Hin].
  - by rewrite bool_decide_eq_true_2.
  - rewrite bool_decide_eq_false_2; [by apply IH |].
    intros Heq. apply Hc0. rewrite Heq.
    by apply list_elem_of_In, in_map, list_elem_of_In.
Qed.

Lemma getitem_functional d x c c' :
  getitem d x = Ok c -> getitem d x = Ok c' -> c = c'.
Proof. congruence. Qed.

Lemma column_from_trans a b c x :
  column_from a b x -> column_from b c x -> column_from a c x.
Proof.
  intros Hab Hbc ca Hca.
  destruct (Hab ca Hca) as (cb & Hcb & Hsub).
  destruct (Hbc cb Hcb) as (cc & Hcc & Hsub').
  exists cc. split; [exact Hcc |]. intros v Hv. by apply Hsub', Hsub.
Qed.

Lemma row_component t c i k :
  c ∈ columns t -> row t i = row t k ->
  nth i (values c) VNull = nth k (values c) VNull.
Proof.
  unfold row. intros Hc H.
  apply (proj1 map_ext_in_iff H c). by apply list_elem_of_In.
Qed.

Lemma aligned_without d key : aligned d -> aligned (without d key).
Proof.
  unfold aligned, without. simpl. rewrite !Forall_forall.
  intros Hal c Hc. apply Hal.
  apply list_elem_of_In, filter_In in Hc as [Hc _]. by apply list_elem_of_In.
Qed.

Lemma elem_of_without d key c :
  c ∈ columns (without d key) <-> c ∈ columns d /\ name c <> key.
Proof.
  unfold without. simpl.
  rewrite list_elem_of_In, filter_In, negb_true_iff, bool_decide_eq_false.
  by rewrite <- list_elem_of_In.
Qed.

(** ** What one call hands on to the next *)

(** The columns of a deduplicated table hold cells of the table, and every
    cell of the table is still there. *)
Lemma drop_duplicates_columns t e :
  drop_duplicates t = Ok e -> aligned t -> NoDup (labels t) ->
  forall x, column_from e t x /\ column_from t e x.
Proof.
  intros H Hal Hnd x.
  pose proof (drop_duplicates_labels _ _ H) as Hl.
  pose proof (fun r => drop_duplicates_cover _ _ r H) as Hcover.
  apply drop_duplicates_ok in H as [[_ ->] | [_ ->]].
  { split; intros c Hc; exists c; by split. }
  set (idx := first_occurrences [] 0 (rows t)) in *.
  assert (forall i, i ∈ idx -> i < nrows t) as Hidx.
  { intros i Hi. apply first_occurrences_range in Hi as [_ Hi].
    by rewrite rows_length in Hi. }
  unfold aligned in Hal. rewrite Forall_forall in Hal.
  split.
  - intros c' Hc'. apply getitem_in in Hc' as [Hc' Hname].
    simpl in Hc'. apply list_elem_of_In, in_map_iff in Hc' as (c & <- & Hc).
    apply list_elem_of_In in Hc. exists c. split.
    + simpl in Hname. rewrite <- Hname. by apply getitem_unique.
    + intros v Hv. eapply take_values_in; [| exact Hv].
      intros i Hi. rewrite (Hal c Hc). by apply Hidx.
  - intros c Hc. apply getitem_in in Hc as [Hc Hname].
    exists (take idx c). split.
    + rewrite <- Hname. change (name c) with (name (take idx c)).
      apply getitem_unique; [by rewrite Hl |].
      simpl. by apply list_elem_of_In, in_map, list_elem_of_In.
    + intros v Hv.
      apply list_elem_of_In, (In_nth _ _ VNull) in Hv as (i & Hi & <-).
      rewrite (Hal c Hc) in Hi.
      assert (row t i ∈ rows t) as Hrow.
      { unfold rows. apply list_elem_of_In, in_map, in_seq. lia. }
      apply Hcover in Hrow. rewrite rows_take_rows in Hrow.
      apply list_elem_of_In, in_map_iff in Hrow as (k & Hk & Hkin).
      rewrite (row_component t c i k Hc (eq_sym Hk)).
      simpl. apply list_elem_of_In, in_map_iff. eauto.
Qed.

Lemma column_from_without d key x :
  NoDup (labels d) ->
  column_from (without d key) d x
  /\ (x <> key -> column_from d (without d key) x).
Proof.
  intros Hnd. split.
  - intros c Hc. apply getitem_in in Hc as [Hc Hname].
    apply elem_of_without in Hc as [Hc _].
    exists c. split; [| done]. rewrite <- Hname. by apply getitem_unique.
  - intros Hx c Hc. apply getitem_in in Hc as [Hc Hname].
    exists c. split; [| done]. rewrite <- Hname.
    apply getitem_unique.
    + rewrite labels_without. by apply NoDup_filter_bool.
    + apply elem_of_without. split; [exact Hc | congruence].
Qed.

Lemma labels_child_table d key_col col :
  labels (child_table d key_col col)
  = List.filter (fun x => negb (bool_decide (x = key_col))) (labels d)
    ++ [foreign_key_label d key_col].
Proof.
  unfold child_table, labels. cbv zeta. simpl.
  rewrite map_app, map_map. simpl.
  by rewrite (names_filter (fun x => negb (bool_decide (x = key_col)))).
Qed.

Lemma aligned_child_table d key_col col : aligned (child_table d key_col col).
Proof.
  unfold child_table, aligned. cbv zeta. simpl.
  apply Forall_app. split.
  - apply Forall_forall. intros c Hc.
    apply list_elem_of_In, in_map_iff in Hc as (c0 & <- & _).
    simpl. by rewrite !length_map.
  - constructor; [| constructor]. simpl. by rewrite length_map.
Qed.

Lemma NoDup_snoc (l : list string) x : NoDup l -> x ∉ l -> NoDup (l ++ [x]).
Proof.
  intros Hnd Hx. apply NoDup_app. split; [exact Hnd |]. split.
  - intros y Hy Hin. apply list_elem_of_singleton in Hin. by subst.
  - apply NoDup_singleton.
Qed.

Lemma elem_of_filter_ne (l : list string) key x :
  x ∈ List.filter (fun y => negb (bool_decide (y = key))) l <-> x ∈ l /\ x <> key.
Proof.
  rewrite list_elem_of_In, filter_In, negb_true_iff, bool_decide_eq_false.
  by rewrite <- list_elem_of_In.
Qed.

(** A one-to-many split on a table that has an [id] column. *)
Lemma split_with_foreign_key_stage d key_col l h h' child parent :
  h !! l = Some (PyDataFrame d) ->
  split_with_foreign_key l key_col h = (h', Ok (child, parent)) ->
  NoDup (labels d) -> aligned d -> key_col <> "id" -> "id" ∈ labels d ->
  fresh_labels ["id_parent"; key_col +:+ "_id"] d ->
  labels child
  = List.filter (fun x => negb (bool_decide (x = key_col))) (labels d)
    ++ [key_col +:+ "_id"]
  /\ NoDup (labels child) /\ aligned child
  /\ labels parent = [key_col; "id"] /\ dense_ids parent
  /\ (forall x, x <> key_col +:+ "_id" -> column_from child d x)
  /\ exists fk, getitem child (key_col +:+ "_id") = Ok fk
                /\ forall v, v ∈ values fk -> v ∈ ids (nrows parent).
Proof.
  intros Hd H Hnd Hal Hkey Hid Hfresh.
  pose proof (split_with_foreign_key_ok _ _ _ _ _ _ H)
    as (d0 & col & merged & Hd0 & Hn & Hcol & Hparent & _).
  rewrite Hd in Hd0. injection Hd0 as <-.
  assert (has_column "id_parent" d = false) as Hfp.
  { apply bool_decide_eq_false, Hfresh. left. }
  assert (has_column "id" d = true) as Hhid by (by apply bool_decide_eq_true).
  destruct (split_with_foreign_key_returns Hnd Hal Hkey Hfp Hcol _ _ _ _ _ Hd H)
    as [-> ->].
  assert (foreign_key_label d key_col = key_col +:+ "_id") as Hfk.
  { unfold foreign_key_label. by rewrite Hhid. }
  pose proof (labels_child_table d key_col col) as Hl. rewrite Hfk in Hl.
  assert (NoDup (labels (child_table d key_col col))) as Hndc.
  { rewrite Hl. apply NoDup_snoc; [by apply NoDup_filter_bool |].
    intros Hin. apply elem_of_filter_ne in Hin as [Hin _].
    apply (Hfresh (key_col +:+ "_id")); [right; left | exact Hin]. }
  split; [exact Hl |]. split; [exact Hndc |].
  split; [apply aligned_child_table |].
  split; [reflexivity |].
  split; [by apply (parent_dense d key_col) |].
  pose proof (aligned_getitem _ _ _ Hal Hcol) as Hlen.
  set (pairs := inner_join 0 (map coalesce (values col))
                  (map key_text (distinct [] (values col)))).
  assert (columns (child_table d key_col col)
          = map (take (map fst pairs))
                (List.filter (fun c => negb (bool_decide (name c = key_col))) (columns d))
            ++ [ mkSeries (key_col +:+ "_id") int64
                   (map (fun p => VInt (Z.of_nat (S (snd p)))) pairs) ]) as Hcols.
  { unfold child_table. cbv zeta. fold pairs. simpl. by rewrite Hfk. }
  split.
  - intros x Hx c' Hc'. apply getitem_in in Hc' as [Hc' Hname].
    rewrite Hcols in Hc'. apply elem_of_app in Hc' as [Hc' | Hc'].
    + apply list_elem_of_In, in_map_iff in Hc' as (c & <- & Hc).
      apply filter_In in Hc as [Hc _]. apply list_elem_of_In in Hc.
      exists c. split.
      * simpl in Hname. rewrite <- Hname. by apply getitem_unique.
      * intros v Hv. eapply take_values_in; [| exact Hv].
        intros i Hi. apply list_elem_of_In, in_map_iff in Hi as ([i' j] & <- & Hp).
        apply list_elem_of_In in Hp. unfold pairs in Hp.
        apply inner_join_spec in Hp as (_ & Hi & _).
        rewrite length_map in Hi. simpl.
        unfold aligned in Hal. rewrite Forall_forall in Hal.
        rewrite (Hal c Hc). lia.
    + apply list_elem_of_singleton in Hc'. subst c'. simpl in Hname. congruence.
  - eexists. split.
    + change (key_col +:+ "_id")
        with (name (mkSeries (key_col +:+ "_id") int64
                      (map (fun p => VInt (Z.of_nat (S (snd p)))) pairs))) at 1.
      apply getitem_unique; [exact Hndc |].
      rewrite Hcols. apply elem_of_app. right. left.
    + intros v Hv. simpl in Hv.
      apply list_elem_of_In, in_map_iff in Hv as ([i j] & <- & Hp).
      apply list_elem_of_In in Hp. unfold pairs in Hp.
      apply inner_join_spec in Hp as (_ & _ & Hj & _).
      rewrite length_map in Hj. unfold entity. simpl. by apply elem_of_ids.
Qed.

(** A many-to-many split with the left key [id]. *)
Lemma split_many_to_many_stage d right_col sep l h h' left right junction :
  h !! l = Some (PyDataFrame d) ->
  split_many_to_many l "id" right_col sep h = (h', Ok (left, right, junction)) ->
  aligned d ->
  NoDup (labels d)
  /\ labels left
     = List.filter (fun x => negb (bool_decide (x = right_col))) (labels d)
  /\ NoDup (labels left) /\ aligned left
  /\ labels right = [right_col; "id"] /\ dense_ids right
  /\ labels junction = ["title_id"; right_col +:+ "_id"]
  /\ junction_sound "id" right_col left right junction
  /\ (forall x, column_from left d x)
  /\ (forall x, x <> right_col -> column_from d left x).
Proof.
  intros Hd H Hal.
  destruct (split_many_to_many_left_dedup _ _ _ _ _ _ _ _ _ _ Hd H)
    as (Hleft & Hne & Hnd).
  pose proof (split_many_to_many_ok _ _ _ _ _ _ _ _ _ H)
    as (d0 & d1 & Hd0 & Hn & Hn1 & _ & Hsteps).
  rewrite Hd in Hd0. injection Hd0 as <-.
  assert (2 <= nrows d1) as Hrows by lia.
  pose proof (steps_right_col_not_id Hsteps) as Hrc.
  pose proof (steps_labels_right Hsteps) as Hlr.
  rewrite bool_decide_eq_false_2 in Hlr by exact Hrc.
  assert (NoDup (labels (without d right_col))) as Hndw.
  { rewrite labels_without. by apply NoDup_filter_bool. }
  pose proof (aligned_without d right_col Hal) as Halw.
  pose proof (drop_duplicates_labels _ _ Hleft) as Hll.
  split; [exact Hnd |].
  split; [by rewrite Hll, labels_without |].
  split; [by rewrite Hll |].
  split; [by apply (drop_duplicates_aligned _ _ Hleft); [left |] |].
  split; [exact Hlr |].
  split; [by apply (steps_right_dense Hsteps) |].
  split; [exact (steps_junction_labels Hsteps) |].
  split; [by apply (steps_junction_sound Hsteps) |].
  split.
  - intros x. eapply column_from_trans.
    + apply (drop_duplicates_columns _ _ Hleft Halw Hndw).
    + by apply column_from_without.
  - intros x Hx. eapply column_from_trans.
    + by apply column_from_without.
    + apply (drop_duplicates_columns _ _ Hleft Halw Hndw).
Qed.

(** A junction table that is sound for a table stays sound for a later
    table that still has all its ids. *)
Lemma junction_sound_later right_col left left' right junction :
  junction_sound "id" right_col left right junction ->
  column_from left left' "id" ->
  junction_sound "id" right_col left' right junction.
Proof.
  intros (lid & rid & lkey & rkey & Hc & Hn1 & Hn2 & Hl1 & Hl2 & Hnd
          & Hlkey & Hlin & Hrkey & Hrin) Hfrom.
  destruct (Hfrom lkey Hlkey) as (lkey' & Hlkey' & Hsub).
  exists lid, rid, lkey', rkey. repeat split; try done.
  intros v Hv. by apply Hsub, Hlin.
Qed.

(** ** The table the first split is given *)

Lemma with_id_labels d :
  labels (setitem d "id" (index_plus_1 d)) = with_id (labels d).
Proof. by rewrite labels_setitem. Qed.

Lemma with_id_NoDup (ls : list string) : NoDup ls -> NoDup (with_id ls).
Proof.
  intros Hnd. unfold with_id. destruct (bool_decide ("id" ∈ ls)) eqn:Hid;
    [exact Hnd |].
  apply bool_decide_eq_false in Hid. by apply NoDup_snoc.
Qed.

Lemma elem_of_with_id (ls : list string) x :
  x ∈ with_id ls <-> x ∈ ls \/ x = "id".
Proof.
  unfold with_id. destruct (bool_decide ("id" ∈ ls)) eqn:Hid.
  - apply bool_decide_eq_true in Hid. split; [auto |]. by intros [H | ->].
  - rewrite elem_of_app, list_elem_of_singleton. reflexivity.
Qed.

Lemma not_split_off (x : string) :
  negb (bool_decide (x = "type")) && negb (bool_decide (x = "rating"))
  && negb (bool_decide (x = "country")) && negb (bool_decide (x = "director"))
  && negb (bool_decide (x = "cast")) && negb (bool_decide (x = "listed_in"))
  = negb (bool_decide (x ∈ split_off)).
Proof.
  apply Bool.eq_iff_eq_true.
  rewrite !andb_true_iff, !negb_true_iff, !bool_decide_eq_false.
  unfold split_off. rewrite !elem_of_cons, elem_of_nil. tauto.
Qed.

Lemma filter_filter {A} (p q : A -> bool) (l : list A) :
  List.filter q (List.filter p l) = List.filter (fun x => p x && q x) l.
Proof.
  induction l as [| x l IH]; [reflexivity |]. simpl.
  destruct (p x); simpl; [destruct (q x) |]; by rewrite IH.
Qed.

(** ** The six calls of a run that returns *)

Lemma normalize_ok csv h h' t :
  normalize csv h = (h', Ok t) ->
  exists child1 child2 left1 left2 left3,
    has_column "show_id" csv = true
    /\ returns_fk (keyed csv) "type" child1 (type_df t)
    /\ returns_fk child1 "rating" child2 (rating_df t)
    /\ returns_mm child2 "country" left1 (country_df t) (country_junction t)
    /\ returns_mm left1 "director" left2 (director_df t) (director_junction t)
    /\ returns_mm left2 "cast" left3 (actor_df t) (actor_junction t)
    /\ returns_mm left3 "listed_in" (title_df t) (listed_df t) (listed_junction t).
Proof.
  intros H. unfold normalize in H.
  apply bind_ok in H as (d & h0 & E0 & H). apply lift_ok in E0 as [E0 ->].
  unfold drop in E0. destruct (has_column "show_id" csv) eqn:Hshow; [| discriminate].
  injection E0 as <-. fold (without csv "show_id") in H. fold (keyed csv) in H.
  cbv zeta in H.
  apply bind_ok in H as (l1 & h1 & A1 & H). apply alloc_ok in A1 as [_ ->].
  apply bind_ok in H as ([child1 ty] & h2 & S1 & H). cbn [fst snd] in H.
  apply bind_ok in H as (l2 & h3 & A2 & H). apply alloc_ok in A2 as [_ ->].
  apply bind_ok in H as ([child2 ra] & h4 & S2 & H). cbn [fst snd] in H.
  apply bind_ok in H as (l3 & h5 & A3 & H). apply alloc_ok in A3 as [_ ->].
  apply bind_ok in H as ([[left1 co] cj] & h6 & S3 & H). cbn [fst snd] in H.
  apply bind_ok in H as (l4 & h7 & A4 & H). apply alloc_ok in A4 as [_ ->].
  apply bind_ok in H as ([[left2 di] dj] & h8 & S4 & H). cbn [fst snd] in H.
  apply bind_ok in H as (l5 & h9 & A5 & H). apply alloc_ok in A5 as [_ ->].
  apply bind_ok in H as ([[left3 ac] aj] & h10 & S5 & H). cbn [fst snd] in H.
  apply bind_ok in H as (l6 & h11 & A6 & H). apply alloc_ok in A6 as [_ ->].
  apply bind_ok in H as ([[left4 li] lj] & h12 & S6 & H). cbn [fst snd] in H.
  apply ret_ok in H as [<- _]. cbn.
  exists child1, child2, left1, left2, left3.
  split; [reflexivity |].
  repeat split; eexists _, _, _; (split; [apply lookup_insert_eq | eassumption]).
Qed.

Lemma keyed_labels csv :
  labels (keyed csv)
  = with_id (List.filter (fun x => negb (bool_decide (x = "show_id"))) (labels csv)).
Proof. unfold keyed. by rewrite with_id_labels, labels_without. Qed.

Lemma keyed_aligned csv : aligned csv -> aligned (keyed csv).
Proof.
  intros Hal. unfold keyed. apply aligned_setitem.
  - by apply aligned_without.
  - by rewrite index_plus_1_values, ids_length.
Qed.

Lemma elem_of_keyed csv x :
  x ∈ labels (keyed csv) -> x ∈ labels csv \/ x = "id".
Proof.
  rewrite keyed_labels, elem_of_with_id, elem_of_filter_ne. tauto.
Qed.

(** The table the first split is given meets what the split asks for. *)
Lemma keyed_ready csv :
  NoDup (labels csv) -> aligned csv ->
  fresh_labels ["id_parent"; "type_id"; "rating_id"] csv ->
  NoDup (labels (keyed csv)) /\ aligned (keyed csv)
  /\ "id" ∈ labels (keyed csv)
  /\ fresh_labels ["id_parent"; "type" +:+ "_id"] (keyed csv).
Proof.
  intros Hnd Hal Hfresh.
  split; [| split; [by apply keyed_aligned | split]].
  - rewrite keyed_labels. apply with_id_NoDup. by apply NoDup_filter_bool.
  - rewrite keyed_labels. apply elem_of_with_id. by right.
  - intros x Hx Hin. apply elem_of_keyed in Hin as [Hin | ->].
    + apply (Hfresh x); [| exact Hin].
      apply elem_of_cons in Hx as [-> | Hx]; [left |].
      apply list_elem_of_singleton in Hx. subst x. right. left.
    + apply elem_of_cons in Hx as [Hx | Hx]; [discriminate |].
      apply list_elem_of_singleton in Hx. discriminate.
Qed.

(** And so does the table the second split is given. *)
Lemma child1_ready csv child1 parent :
  fresh_labels ["id_parent"; "type_id"; "rating_id"] csv ->
  fk_stage (keyed csv) "type" child1 parent ->
  NoDup (labels child1) /\ aligned child1
  /\ "id" ∈ labels child1
  /\ fresh_labels ["id_parent"; "rating" +:+ "_id"] child1.
Proof.
  intros Hfresh (Hl1 & Hnd1 & Hal1 & _).
  split; [exact Hnd1 |]. split; [exact Hal1 |]. split.
  - rewrite Hl1. apply elem_of_app. left. apply elem_of_filter_ne.
    split; [| discriminate]. rewrite keyed_labels. apply elem_of_with_id. by right.
  - intros x Hx Hin. rewrite Hl1 in Hin. apply elem_of_app in Hin as [Hin | Hin].
    + apply elem_of_filter_ne in Hin as [Hin _].
      apply elem_of_keyed in Hin as [Hin | ->].
      * apply (Hfresh x); [| exact Hin].
        apply elem_of_cons in Hx as [-> | Hx]; [left |].
        apply list_elem_of_singleton in Hx. subst x. right. right. left.
      * apply elem_of_cons in Hx as [Hx | Hx]; [discriminate |].
        apply list_elem_of_singleton in Hx. discriminate.
    + apply list_elem_of_singleton in Hin. subst x.
      apply elem_of_cons in Hx as [Hx | Hx]; [discriminate |].
      apply list_elem_of_singleton in Hx. discriminate.
Qed.

(** The stages of a run that returns, on a table with unique labels that
    has none of the labels the splits add. *)
Lemma normalize_chain csv h h' t :
  normalize csv h = (h', Ok t) ->
  NoDup (labels csv) -> aligned csv ->
  fresh_labels ["id_parent"; "type_id"; "rating_id"] csv ->
  exists child1 child2 left1 left2 left3,
    (returns_fk (keyed csv) "type" child1 (type_df t)
     /\ returns_fk child1 "rating" child2 (rating_df t)
     /\ returns_mm child2 "country" left1 (country_df t) (country_junction t)
     /\ returns_mm left1 "director" left2 (director_df t) (director_junction t)
     /\ returns_mm left2 "cast" left3 (actor_df t) (actor_junction t)
     /\ returns_mm left3 "listed_in" (title_df t) (listed_df t) (listed_junction t))
    /\ fk_stage (keyed csv) "type" child1 (type_df t)
    /\ fk_stage child1 "rating" child2 (rating_df t)
    /\ mm_stage child2 "country" left1 (country_df t) (country_junction t)
    /\ mm_stage left1 "director" left2 (director_df t) (director_junction t)
    /\ mm_stage left2 "cast" left3 (actor_df t) (actor_junction t)
    /\ mm_stage left3 "listed_in" (title_df t) (listed_df t) (listed_junction t).
Proof.
  intros H Hnd Hal Hfresh.
  apply normalize_ok in H
    as (child1 & child2 & left1 & left2 & left3 & _ & S1 & S2 & M1 & M2 & M3 & M4).
  exists child1, child2, left1, left2, left3.
  split; [done |].
  destruct (keyed_ready csv Hnd Hal Hfresh) as (Hnd0 & Hal0 & Hid0 & Hfresh0).
  assert (fk_stage (keyed csv) "type" child1 (type_df t)) as F1.
  { destruct S1 as (l & h1 & h2 & Hl & S1).
    by apply (split_with_foreign_key_stage _ _ _ _ _ _ _ Hl S1). }
  destruct (child1_ready _ _ _ Hfresh F1) as (Hnd1 & Hal1 & Hid1 & Hfresh1).
  assert (fk_stage child1 "rating" child2 (rating_df t)) as F2.
  { destruct S2 as (l & h1 & h2 & Hl & S2).
    by apply (split_with_foreign_key_stage _ _ _ _ _ _ _ Hl S2). }
  pose proof F2 as (_ & _ & Hal2 & _).
  assert (mm_stage child2 "country" left1 (country_df t) (country_junction t)) as G1.
  { destruct M1 as (l & h1 & h2 & Hl & M1).
    exact (split_many_to_many_stage _ _ _ _ _ _ _ _ _ Hl M1 Hal2). }
  pose proof G1 as (_ & _ & _ & Hal3 & _).
  assert (mm_stage left1 "director" left2 (director_df t) (director_junction t)) as G2.
  { destruct M2 as (l & h1 & h2 & Hl & M2).
    exact (split_many_to_many_stage _ _ _ _ _ _ _ _ _ Hl M2 Hal3). }
  pose proof G2 as (_ & _ & _ & Hal4 & _).
  assert (mm_stage left2 "cast" left3 (actor_df t) (actor_junction t)) as G3.
  { destruct M3 as (l & h1 & h2 & Hl & M3).
    exact (split_many_to_many_stage _ _ _ _ _ _ _ _ _ Hl M3 Hal4). }
  pose proof G3 as (_ & _ & _ & Hal5 & _).
  assert (mm_stage left3 "listed_in" (title_df t) (listed_df t) (listed_junction t))
    as G4.
  { destruct M4 as (l & h1 & h2 & Hl & M4).
    exact (split_many_to_many_stage _ _ _ _ _ _ _ _ _ Hl M4 Hal5). }
  done.
Qed.

Lemma fresh_labels_decide xs d :
  forallb (fun x => negb (bool_decide (x ∈ labels d))) xs = true ->
  fresh_labels xs d.
Proof.
  intros H x Hx. rewrite forallb_forall in H.
  apply list_elem_of_In, H, negb_true_iff in Hx.
  by apply bool_decide_eq_false in Hx.
Qed.

(** The labels of the title table after the six splits. *)
Lemma normalize_title_labels csv child1 child2 left1 left2 left3 t :
  fk_stage (keyed csv) "type" child1 (type_df t) ->
  fk_stage child1 "rating" child2 (rating_df t) ->
  mm_stage child2 "country" left1 (country_df t) (country_junction t) ->
  mm_stage left1 "director" left2 (director_df t) (director_junction t) ->
  mm_stage left2 "cast" left3 (actor_df t) (actor_junction t) ->
  mm_stage left3 "listed_in" (title_df t) (listed_df t) (listed_junction t) ->
  labels (title_df t)
  = List.filter (fun x => negb (bool_decide (x ∈ split_off)))
      (with_id (List.filter (fun x => negb (bool_decide (x = "show_id")))
                            (labels csv)))
    ++ ["type_id"; "rating_id"].
Proof.
  intros (Hc1 & _) (Hc2 & _) (_ & Hl1 & _) (_ & Hl2 & _) (_ & Hl3 & _)
         (_ & Hl4 & _).
  rewrite Hl4, Hl3, Hl2, Hl1, Hc2, Hc1, keyed_labels.
  rewrite !List.filter_app.
  change (List.filter _ ["type" +:+ "_id"]) with ["type_id"].
  repeat change (List.filter _ ["type_id"]) with ["type_id"].
  change (List.filter _ ["rating" +:+ "_id"]) with ["rating_id"].
  repeat change (List.filter _ ["rating_id"]) with ["rating_id"].
  rewrite !filter_filter, <- !app_assoc. f_equal.
  apply filter_ext. intros x. rewrite !andb_assoc. apply not_split_off.
Qed.

(** The schema of the database.  When the six splits of the script return
    on a table with unique labels (none of them [id_parent], [type_id] or
    [rating_id]), the title table has the columns of the file but
    [show_id] and the six that were split off, with [id] (at the end, if
    the file had none) and then [type_id] and [rating_id]; every entity
    table has the split column and [id]; every junction table has
    [title_id] and the split column's name followed by [_id]. *)
Theorem normalize_schema csv h h' t :
  normalize csv h = (h', Ok t) ->
  NoDup (labels csv) -> aligned csv ->
  fresh_labels ["id_parent"; "type_id"; "rating_id"] csv ->
  labels (title_df t)
  = List.filter (fun x => negb (bool_decide (x ∈ split_off)))
      (with_id (List.filter (fun x => negb (bool_decide (x = "show_id")))
                            (labels csv)))
    ++ ["type_id"; "rating_id"]
  /\ labels (type_df t) = ["type"; "id"]
  /\ labels (rating_df t) = ["rating"; "id"]
  /\ labels (country_df t) = ["country"; "id"]
  /\ labels (country_junction t) = ["title_id"; "country_id"]
  /\ labels (director_df t) = ["director"; "id"]
  /\ labels (director_junction t) = ["title_id"; "director_id"]
  /\ labels (actor_df t) = ["cast"; "id"]
  /\ labels (actor_junction t) = ["title_id"; "cast_id"]
  /\ labels (listed_df t) = ["listed_in"; "id"]
  /\ labels (listed_junction t) = ["title_id"; "listed_in_id"].
Proof.
  intros H Hnd Hal Hfresh.
  destruct (normalize_chain _ _ _ _ H Hnd Hal Hfresh)
    as (child1 & child2 & left1 & left2 & left3 & _ & F1 & F2 & G1 & G2 & G3 & G4).
  pose proof F1 as (_ & _ & _ & Hty & _).
  pose proof F2 as (_ & _ & _ & Hra & _).
  pose proof G1 as (_ & _ & _ & _ & Hco & _ & Hcj & _).
  pose proof G2 as (_ & _ & _ & _ & Hdi & _ & Hdj & _).
  pose proof G3 as (_ & _ & _ & _ & Hac & _ & Haj & _).
  pose proof G4 as (_ & _ & _ & _ & Hli & _ & Hlj & _).
  split; [eapply normalize_title_labels; eassumption |].
  repeat split; assumption.
Qed.

Lemma normalize_schema_netflix :
  exists t,
    snd (normalize netflix ∅) = Ok t
    /\ labels (title_df t) = ["title"; "id"; "type_id"; "rating_id"]
    /\ labels (type_df t) = ["type"; "id"]
    /\ labels (rating_df t) = ["rating"; "id"]
    /\ labels (country_df t) = ["country"; "id"]
    /\ labels (country_junction t) = ["title_id"; "country_id"]
    /\ labels (director_df t) = ["director"; "id"]
    /\ labels (director_junction t) = ["title_id"; "director_id"]
    /\ labels (actor_df t) = ["cast"; "id"]
    /\ labels (actor_junction t) = ["title_id"; "cast_id"]
    /\ labels (listed_df t) = ["listed_in"; "id"]
    /\ labels (listed_junction t) = ["title_id"; "listed_in_id"].
Proof.
  eexists. split; [vm_compute; reflexivity |].
  eapply (normalize_schema netflix ∅).
  - vm_compute. reflexivity.
  - apply (bool_decide_unpack _). vm_compute. exact I.
  - repeat constructor.
  - apply fresh_labels_decide. vm_compute. reflexivity.
Defined.

(** Referential integrity of the database.  When the six splits return,
    every [type_id] and [rating_id] of the title table is an id of the type
    and of the rating table; every junction table refers, without
    repeating a pair, to ids of the title table as the script ends up with
    it and to ids of its entity table; and the ids of the six entity
    tables are 1..N. *)
Theorem normalize_references csv h h' t :
  normalize csv h = (h', Ok t) ->
  NoDup (labels csv) -> aligned csv ->
  fresh_labels ["id_parent"; "type_id"; "rating_id"] csv ->
  (exists fk, getitem (title_df t) "type_id" = Ok fk
              /\ forall v, v ∈ values fk -> v ∈ ids (nrows (type_df t)))
  /\ (exists fk, getitem (title_df t) "rating_id" = Ok fk
                 /\ forall v, v ∈ values fk -> v ∈ ids (nrows (rating_df t)))
  /\ junction_sound "id" "country" (title_df t) (country_df t) (country_junction t)
  /\ junction_sound "id" "director" (title_df t) (director_df t) (director_junction t)
  /\ junction_sound "id" "cast" (title_df t) (actor_df t) (actor_junction t)
  /\ junction_sound "id" "listed_in" (title_df t) (listed_df t) (listed_junction t)
  /\ Forall dense_ids [type_df t; rating_df t; country_df t; director_df t;
                       actor_df t; listed_df t].
Proof.
  intros H Hnd Hal Hfresh.
  destruct (normalize_chain _ _ _ _ H Hnd Hal Hfresh)
    as (child1 & child2 & left1 & left2 & left3 & _ & F1 & F2 & G1 & G2 & G3 & G4).
  pose proof (normalize_title_labels _ _ _ _ _ _ _ F1 F2 G1 G2 G3 G4) as Hlabels.
  destruct F1 as (_ & _ & _ & _ & Dty & _ & fk1 & Hfk1 & Hin1).
  destruct F2 as (_ & _ & _ & _ & Dra & Hfrom2 & fk2 & Hfk2 & Hin2).
  destruct G1 as (_ & _ & _ & _ & _ & Dco & _ & J1 & B1 & K1).
  destruct G2 as (_ & _ & _ & _ & _ & Ddi & _ & J2 & B2 & K2).
  destruct G3 as (_ & _ & _ & _ & _ & Dac & _ & J3 & B3 & K3).
  destruct G4 as (_ & _ & _ & _ & _ & Dli & _ & J4 & B4 & K4).
  (* what the title table holds was in the table the first many-to-many
     split was given *)
  assert (forall x, column_from (title_df t) child2 x) as Hback.
  { intros x.
    eapply column_from_trans; [apply B4 |].
    eapply column_from_trans; [apply B3 |].
    eapply column_from_trans; [apply B2 |]. apply B1. }
  assert (forall x, x ∈ ["type_id"; "rating_id"] ->
                    exists c, getitem (title_df t) x = Ok c) as Hthere.
  { intros x Hx. apply has_column_getitem, bool_decide_eq_true.
    rewrite Hlabels. apply elem_of_app. by right. }
  split; [| split].
  - destruct (Hthere "type_id") as [c Hc]; [left |].
    exists c. split; [exact Hc |]. intros v Hv.
    destruct (Hback _ _ Hc) as (c2 & Hc2 & Hsub2).
    destruct (Hfrom2 "type_id" ltac:(discriminate) _ Hc2) as (c1 & Hc1 & Hsub1).
    rewrite (getitem_functional _ _ _ _ Hc1 Hfk1) in Hsub1.
    by apply Hin1, Hsub1, Hsub2.
  - destruct (Hthere "rating_id") as [c Hc]; [right; left |].
    exists c. split; [exact Hc |]. intros v Hv.
    destruct (Hback _ _ Hc) as (c2 & Hc2 & Hsub2).
    rewrite (getitem_functional _ _ _ _ Hc2 Hfk2) in Hsub2.
    by apply Hin2, Hsub2.
  - split; [| split; [| split; [| split]]].
    + apply (junction_sound_later _ _ _ _ _ J1).
      eapply column_from_trans; [by apply K2 |].
      eapply column_from_trans; [by apply K3 |]. by apply K4.
    + apply (junction_sound_later _ _ _ _ _ J2).
      eapply column_from_trans; [by apply K3 |]. by apply K4.
    + apply (junction_sound_later _ _ _ _ _ J3). by apply K4.
    + exact J4.
    + repeat (apply Forall_cons_2; [assumption |]). apply Forall_nil_2.
Qed.

Lemma normalize_references_netflix :
  exists t,
    snd (normalize netflix ∅) = Ok t
    /\ (exists fk, getitem (title_df t) "type_id" = Ok fk
                   /\ forall v, v ∈ values fk -> v ∈ ids (nrows (type_df t)))
    /\ (exists fk, getitem (title_df t) "rating_id" = Ok fk
                   /\ forall v, v ∈ values fk -> v ∈ ids (nrows (rating_df t)))
    /\ junction_sound "id" "country" (title_df t) (country_df t) (country_junction t)
    /\ junction_sound "id" "director" (title_df t) (director_df t) (director_junction t)
    /\ junction_sound "id" "cast" (title_df t) (actor_df t) (actor_junction t)
    /\ junction_sound "id" "listed_in" (title_df t) (listed_df t) (listed_junction t)
    /\ Forall dense_ids [type_df t; rating_df t; country_df t; director_df t;
                         actor_df t; listed_df t].
Proof.
  eexists. split; [vm_compute; reflexivity |].
  eapply (normalize_references netflix ∅).
  - vm_compute. reflexivity.
  - apply (bool_decide_unpack _). vm_compute. exact I.
  - repeat constructor.
  - apply fresh_labels_decide. vm_compute. reflexivity.
Defined.

(* ===================================================================== *)
(** * What the junction table records                                     *)
(* ===================================================================== *)









(** The other columns of an exploded table repeat their cells, one per
    piece. *)
Lemma explode_other_column df column e c x cx :
  explode df column = Ok e -> getitem df column = Ok c -> dtype_of c = object ->
  x <> column -> getitem df x = Ok cx ->
  getitem e x = Ok (take (explode_positions 0 (values c)) cx).
Proof.
  intros H Hc Hdt Hx Hcx.
  pose proof (explode_ok _ _ _ H) as (Hnd & Hl & _).
  unfold explode in H. rewrite bool_decide_eq_true_2 in H by exact Hnd.
  simpl in H. rewrite Hc in H. simpl in H. rewrite Hdt in H.
  pose proof (getitem_in _ _ _ Hcx) as [Hin Hname].
  rewrite <- Hname. change (name cx)
    with (name (take (explode_positions 0 (values c)) cx)).
  apply getitem_unique; [by rewrite Hl |].
  injection H as <-. simpl.
  apply list_elem_of_In, in_map_iff. exists cx. split; [| by apply list_elem_of_In].
  rewrite bool_decide_eq_false_2; [reflexivity | congruence].
Qed.

Section JunctionRows.

Context {d1 : DataFrame} {right_col : string}
        {left right junction : DataFrame}.
Hypothesis steps : many_to_many_steps d1 "id" right_col left right junction.
Hypothesis Hrows : 2 <= nrows d1.


End JunctionRows.



(* ===================================================================== *)
(** * Splits that keep every row                                          *)
(* ===================================================================== *)

Lemma key_text_coalesce v : text_cell v = true -> key_text v = coalesce v.
Proof. by destruct v. Qed.

Lemma map_take_seq n (cols : list Series) :
  Forall (fun c => length (values c) = n) cols ->
  map (take (seq 0 n)) cols = cols.
Proof.
  intros H. rewrite <- (map_id cols) at 2. apply map_ext_in. intros c Hc.
  rewrite Forall_forall in H. by apply take_seq, H, list_elem_of_In.
Qed.

(** The child of a clean text column has the rows of the input, in
    order. *)
Lemma child_table_text d key_col col :
  aligned d -> getitem d key_col = Ok col -> clean_text col ->
  exists fk,
    length fk = nrows d
    /\ Forall (fun v => hashable v = true) fk
    /\ child_table d key_col col
       = mkFrame (nrows d)
           (List.filter (fun c => negb (bool_decide (name c = key_col))) (columns d)
            ++ [mkSeries (foreign_key_label d key_col) int64 fk]).
Proof.
  intros Hal Hcol [Htext Hunknown].
  pose proof (aligned_getitem _ _ _ Hal Hcol) as Hlen.
  assert (map key_text (distinct [] (values col))
          = map coalesce (map (fun k => nth k (values col) VNull)
                              (kept (nrows d) col))) as Hkeys.
  { rewrite <- (kept_distinct (nrows d) col Hlen).
    apply map_ext_in. intros v Hv. apply key_text_coalesce.
    apply in_map_iff in Hv as (k & <- & Hk).
    apply list_elem_of_In, kept_range in Hk.
    rewrite Forall_forall in Htext. apply Htext, list_elem_of_In, nth_In. lia. }
  destruct (inner_join_total 0 (map coalesce (values col))
              (map coalesce (map (fun k => nth k (values col) VNull)
                                 (kept (nrows d) col)))
              (parent_keys_NoDup Hal Hcol Hunknown)
              (parent_keys_cover Hal Hcol)) as [Hfst _].
  rewrite length_map, Hlen in Hfst.
  unfold child_table. cbv zeta. rewrite Hkeys.
  set (pairs := inner_join 0 _ _) in *.
  assert (length pairs = nrows d) as Hpairs.
  { rewrite <- (length_map fst), Hfst. apply length_seq. }
  eexists. split; [| split; [| rewrite Hfst, Hpairs; f_equal; f_equal]].
  - by rewrite length_map.
  - apply Forall_forall. intros v Hv.
    by apply list_elem_of_In, in_map_iff in Hv as (p & <- & _).
  - apply map_take_seq. apply Forall_forall. intros c Hc.
    apply list_elem_of_In, filter_In in Hc as [Hc _].
    unfold aligned in Hal. rewrite Forall_forall in Hal.
    by apply Hal, list_elem_of_In.
Qed.

Lemma find_all_but (cols : list Series) key x (extra : list Series) :
  x <> key -> (forall c, c ∈ extra -> name c <> x) ->
  List.find (fun c => bool_decide (name c = x))
    (List.filter (fun c => negb (bool_decide (name c = key))) cols ++ extra)
  = List.find (fun c => bool_decide (name c = x)) cols.
Proof.
  intros Hx Hextra. induction cols as [| c cols IH]; simpl.
  - induction extra as [| e extra IHe]; [reflexivity |]. simpl.
    rewrite bool_decide_eq_false_2 by (apply Hextra; left).
    apply IHe. intros c Hc. apply Hextra. by right.
  - destruct (bool_decide (name c = key)) eqn:Hk; simpl.
    + apply bool_decide_eq_true in Hk.
      rewrite bool_decide_eq_false_2 by congruence. exact IH.
    + destruct (bool_decide (name c = x)); [reflexivity | exact IH].
Qed.

Lemma getitem_without d key x :
  x <> key -> getitem (without d key) x = getitem d x.
Proof.
  intros Hx. unfold getitem, without. simpl.
  rewrite <- (app_nil_r (List.filter _ _)).
  rewrite (find_all_but _ key x []); [reflexivity | exact Hx |].
  intros c Hc. by apply elem_of_nil in Hc.
Qed.

Lemma first_occurrences_all seen i0 (l : list (list value)) :
  NoDup l -> (forall r, r ∈ l -> r ∉ seen) ->
  first_occurrences seen i0 l = seq i0 (length l).
Proof.
  revert seen i0. induction l as [| r l IH]; intros seen i0 Hnd Hseen;
    [reflexivity |].
  apply NoDup_cons in Hnd as [Hr Hnd]. simpl.
  rewrite bool_decide_eq_false_2 by (apply Hseen; left).
  f_equal. apply IH; [exact Hnd |].
  intros r' Hr' Hin. apply elem_of_cons in Hin as [-> | Hin]; [done |].
  apply (Hseen r'); [by right | exact Hin].
Qed.

Lemma nth_NoDup_inj (l : list value) i k :
  NoDup l -> i < length l -> k < length l ->
  nth i l VNull = nth k l VNull -> i = k.
Proof.
  intros Hnd Hi Hk Heq.
  destruct (lookup_lt_is_Some_2 l i Hi) as [x Hx].
  destruct (lookup_lt_is_Some_2 l k Hk) as [y Hy].
  rewrite (nth_lookup_Some _ _ VNull _ Hx), (nth_lookup_Some _ _ VNull _ Hy) in Heq.
  subst y. by apply (NoDup_lookup l i k x).
Qed.

(** A table with a column of pairwise different cells has no row twice:
    [drop_duplicates] returns it as it is. *)
Lemma drop_duplicates_unique t e c :
  drop_duplicates t = Ok e -> aligned t -> c ∈ columns t -> NoDup (values c) ->
  e = t.
Proof.
  intros H Hal Hc Hnd.
  apply drop_duplicates_ok in H as [[_ ->] | [_ ->]]; [reflexivity |].
  unfold aligned in Hal. pose proof Hal as Hall. rewrite Forall_forall in Hal.
  assert (NoDup (rows t)) as Hrows.
  { unfold rows. apply (NoDup_fmap_2_strong (row t)); [| apply NoDup_seq].
    intros i k Hi Hk Heq.
    apply elem_of_seq in Hi. apply elem_of_seq in Hk.
    apply (nth_NoDup_inj (values c)); [exact Hnd | | |].
    - rewrite (Hal c Hc). lia.
    - rewrite (Hal c Hc). lia.
    - by apply (row_component t). }
  rewrite (first_occurrences_all [] 0 _ Hrows)
    by (intros r _; apply not_elem_of_nil).
  rewrite rows_length. unfold take_rows. rewrite length_seq.
  destruct t as [n cols]. simpl in *. f_equal. by apply map_take_seq.
Qed.

Lemma NoDup_ids n : NoDup (ids n).
Proof.
  unfold ids. apply (NoDup_fmap_2_strong (fun i => VInt (Z.of_nat i)));
    [| apply NoDup_seq].
  intros i k _ _ Heq. injection Heq as Heq. lia.
Qed.

(** A one-to-many split on a clean text column keeps the other columns as
    they are. *)
Lemma returns_fk_exact d key_col child parent col :
  returns_fk d key_col child parent ->
  NoDup (labels d) -> aligned d -> key_col <> "id" -> "id" ∈ labels d ->
  fresh_labels ["id_parent"; key_col +:+ "_id"] d ->
  getitem d key_col = Ok col -> clean_text col ->
  nrows child = nrows d
  /\ forall x, x <> key_col -> x <> key_col +:+ "_id" ->
               getitem child x = getitem d x.
Proof.
  intros (l & h & h' & Hl & H) Hnd Hal Hkey Hid Hfresh Hcol Hclean.
  assert (has_column "id_parent" d = false) as Hfp.
  { apply bool_decide_eq_false, Hfresh. left. }
  destruct (split_with_foreign_key_returns Hnd Hal Hkey Hfp Hcol _ _ _ _ _ Hl H)
    as [_ ->].
  destruct (child_table_text d key_col col Hal Hcol Hclean) as (fk & _ & _ & ->).
  split; [reflexivity |]. intros x Hx Hx'.
  unfold getitem. simpl. rewrite find_all_but; [reflexivity | exact Hx |].
  intros c Hc. apply list_elem_of_singleton in Hc. subst c. simpl.
  unfold foreign_key_label, has_column.
  rewrite bool_decide_eq_true_2 by exact Hid. congruence.
Qed.

(** A many-to-many split on a table whose ids are pairwise different
    keeps the rows as they are. *)
Lemma returns_mm_exact d right_col left right junction idc :
  returns_mm d right_col left right junction ->
  aligned d -> getitem d "id" = Ok idc -> NoDup (values idc) ->
  left = without d right_col.
Proof.
  intros (l & h & h' & Hl & H) Hal Hidc Hnd.
  destruct (split_many_to_many_left_dedup _ _ _ _ _ _ _ _ _ _ Hl H)
    as (Hleft & _ & _).
  pose proof (split_many_to_many_ok _ _ _ _ _ _ _ _ _ H)
    as (d0 & d1 & _ & _ & _ & _ & Hsteps).
  pose proof (steps_right_col_not_id Hsteps) as Hne.
  apply (drop_duplicates_unique _ _ idc Hleft).
  - by apply aligned_without.
  - apply elem_of_without. apply getitem_in in Hidc as [Hin Hname].
    split; [exact Hin | congruence].
  - exact Hnd.
Qed.

Lemma keyed_columns csv :
  nrows (keyed csv) = nrows csv
  /\ getitem (keyed csv) "id" = Ok (mkSeries "id" int64 (ids (nrows csv)))
  /\ forall x, x <> "id" -> x <> "show_id" -> getitem (keyed csv) x = getitem csv x.
Proof.
  unfold keyed. split; [by rewrite nrows_setitem |]. split.
  - by rewrite getitem_setitem_eq.
  - intros x Hx Hx'. rewrite getitem_setitem_ne by congruence.
    by apply getitem_without.
Qed.

(** No title is lost or repeated.  When the [type] and the [rating] column
    of the file are clean text and the six splits return, the title table
    has the rows of the file in their order: as many rows, the ids 1..n
    that line 41 assigned, and every other column of the file that was not
    split off, cell by cell. *)
Theorem normalize_keeps_rows csv h h' t tcol rcol :
  normalize csv h = (h', Ok t) ->
  NoDup (labels csv) -> aligned csv ->
  fresh_labels ["id_parent"; "type_id"; "rating_id"] csv ->
  getitem csv "type" = Ok tcol -> clean_text tcol ->
  getitem csv "rating" = Ok rcol -> clean_text rcol ->
  nrows (title_df t) = nrows csv
  /\ getitem (title_df t) "id" = Ok (mkSeries "id" int64 (ids (nrows csv)))
  /\ forall x, x ∉ ["show_id"; "id"; "type_id"; "rating_id"] ++ split_off ->
               getitem (title_df t) x = getitem csv x.
Proof.
  intros H Hnd Hal Hfresh Htcol Htclean Hrcol Hrclean.
  destruct (normalize_chain _ _ _ _ H Hnd Hal Hfresh)
    as (child1 & child2 & left1 & left2 & left3
        & (R1 & R2 & R3 & R4 & R5 & R6) & F1 & F2 & G1 & G2 & G3 & G4).
  destruct (keyed_ready csv Hnd Hal Hfresh) as (Hnd0 & Hal0 & Hid0 & Hfresh0).
  destruct (child1_ready _ _ _ Hfresh F1) as (Hnd1 & Hal1 & Hid1 & Hfresh1).
  destruct (keyed_columns csv) as (Hn0 & Hidc0 & Hsame0).
  (* the two one-to-many splits *)
  assert (getitem (keyed csv) "type" = Ok tcol) as Htcol0
    by (by rewrite Hsame0).
  destruct (returns_fk_exact _ _ _ _ _ R1 Hnd0 Hal0 ltac:(discriminate)
              Hid0 Hfresh0 Htcol0 Htclean) as [Hn1 Hsame1].
  assert (getitem child1 "rating" = Ok rcol) as Hrcol1.
  { rewrite Hsame1 by discriminate. by rewrite Hsame0. }
  destruct (returns_fk_exact _ _ _ _ _ R2 Hnd1 Hal1 ltac:(discriminate)
              Hid1 Hfresh1 Hrcol1 Hrclean) as [Hn2 Hsame2].
  (* the four many-to-many splits *)
  pose proof (NoDup_ids (nrows csv)) as Hids.
  destruct F2 as (_ & _ & Hal2 & _).
  assert (getitem child2 "id" = Ok (mkSeries "id" int64 (ids (nrows csv)))) as Hid2.
  { rewrite Hsame2, Hsame1 by discriminate. exact Hidc0. }
  pose proof (returns_mm_exact _ _ _ _ _ _ R3 Hal2 Hid2 Hids) as ->.
  destruct G1 as (_ & _ & _ & Hal3 & _).
  assert (getitem (without child2 "country") "id"
          = Ok (mkSeries "id" int64 (ids (nrows csv)))) as Hid3.
  { by rewrite getitem_without. }
  pose proof (returns_mm_exact _ _ _ _ _ _ R4 Hal3 Hid3 Hids) as ->.
  destruct G2 as (_ & _ & _ & Hal4 & _).
  assert (getitem (without (without child2 "country") "director") "id"
          = Ok (mkSeries "id" int64 (ids (nrows csv)))) as Hid4.
  { by rewrite getitem_without. }
  pose proof (returns_mm_exact _ _ _ _ _ _ R5 Hal4 Hid4 Hids) as ->.
  destruct G3 as (_ & _ & _ & Hal5 & _).
  assert (getitem (without (without (without child2 "country") "director") "cast") "id"
          = Ok (mkSeries "id" int64 (ids (nrows csv)))) as Hid5.
  { by rewrite getitem_without. }
  pose proof (returns_mm_exact _ _ _ _ _ _ R6 Hal5 Hid5 Hids) as Ht.
  rewrite Ht. split; [simpl; lia |]. split.
  - by rewrite getitem_without.
  - intros x Hx. unfold split_off in Hx. simpl in Hx.
    rewrite !not_elem_of_cons in Hx.
    destruct Hx as (X1 & X2 & X3 & X4 & X5 & X6 & X7 & X8 & X9 & X10 & _).
    rewrite !getitem_without by assumption.
    rewrite Hsame2, Hsame1 by assumption. by apply Hsame0.
Qed.

Lemma normalize_keeps_rows_netflix :
  exists t,
    snd (normalize netflix ∅) = Ok t
    /\ nrows (title_df t) = 4
    /\ getitem (title_df t) "id" = Ok (mkSeries "id" int64 (ids 4))
    /\ forall x, x ∉ ["show_id"; "id"; "type_id"; "rating_id"] ++ split_off ->
                 getitem (title_df t) x = getitem netflix x.
Proof.
  eexists. split; [vm_compute; reflexivity |].
  eapply (normalize_keeps_rows netflix ∅).
  - vm_compute. reflexivity.
  - apply (bool_decide_unpack _). vm_compute. exact I.
  - repeat constructor.
  - apply fresh_labels_decide. vm_compute. reflexivity.
  - vm_compute. reflexivity.
  - split; [repeat constructor |]. intros [_ H0]. simpl in H0.
    repeat (apply elem_of_cons in H0 as [H0 | H0]; [discriminate H0 |]).
    by apply elem_of_nil in H0.
  - vm_compute. reflexivity.
  - split; [repeat constructor |]. intros [_ H0]. simpl in H0.
    repeat (apply elem_of_cons in H0 as [H0 | H0]; [discriminate H0 |]).
    by apply elem_of_nil in H0.
Defined.

(* ===================================================================== *)
(** * Many-to-many splits that return                                     *)
(* ===================================================================== *)

(** Every call of [split_many_to_many] either raises, or was given a
    table that passes all the checks of lines 84-99: at least two rows, the
    two columns present and not all null, and a right column whose cells
    can all be hashed and are not all different. *)
Theorem split_many_to_many_refuses_or_accepts df left_col right_col sep h :
  (exists e, split_many_to_many df left_col right_col sep h = (h, Raise e))
  \/ (exists d, h !! df = Some (PyDataFrame d) /\ accepted_mm d left_col right_col).
Proof.
  destruct (split_many_to_many df left_col right_col sep h) as [h' [out | e]] eqn:H.
  - right. unfold split_many_to_many in H.
    step H d Ed. check H E1. check H E2. check H E3. check H E4.
    step H lcol Elcol. check H E5. step H rcol Ercol. check H E6.
    step H n En. check H E7.
    exists d. split; [exact Ed |]. exists lcol, rcol, n.
    apply Nat.ltb_ge in E2. apply Nat.eqb_neq in E7. by repeat split.
  - left. exists e. f_equal.
    pose proof (split_many_to_many_store df left_col right_col sep h) as Hs.
    by rewrite H in Hs.
Qed.

(** ** The pandas calls return *)

Lemma getitem_take_rows idx t x :
  getitem (take_rows idx t) x
  = match getitem t x with Ok c => Ok (take idx c) | Raise e => Raise e end.
Proof.
  unfold getitem, take_rows. simpl.
  induction (columns t) as [| c cols IH]; [reflexivity |]. simpl.
  destruct (bool_decide (name c = x)); [reflexivity | exact IH].
Qed.

Lemma hashable_take idx c :
  Forall (fun v => hashable v = true) (values c) ->
  Forall (fun v => hashable v = true) (values (take idx c)).
Proof.
  intros H. simpl. apply Forall_forall. intros v Hv.
  apply list_elem_of_In, in_map_iff in Hv as (i & <- & _).
  destruct (Nat.lt_ge_cases i (length (values c))) as [Hi | Hi].
  - rewrite Forall_forall in H. by apply H, list_elem_of_In, nth_In.
  - by rewrite nth_overflow.
Qed.

Lemma hashable_take_rows idx t : hashable_frame t -> hashable_frame (take_rows idx t).
Proof.
  unfold hashable_frame. simpl. intros H. apply Forall_forall. intros c Hc.
  apply list_elem_of_In, in_map_iff in Hc as (c0 & <- & Hc0).
  apply hashable_take. rewrite Forall_forall in H. by apply H, list_elem_of_In.
Qed.

Lemma hashable_frame_hash t :
  hashable_frame t -> hash_all (concat (map values (columns t))) = Ok tt.
Proof.
  intros H. apply hash_all_forall, Forall_forall. intros v Hv.
  apply list_elem_of_In, in_concat in Hv as (vs & Hvs & Hv).
  apply in_map_iff in Hvs as (c & <- & Hc).
  unfold hashable_frame in H. rewrite Forall_forall in H.
  specialize (H c ltac:(by apply list_elem_of_In)).
  rewrite Forall_forall in H. by apply H, list_elem_of_In.
Qed.

Lemma hashable_getitem t x c :
  hashable_frame t -> getitem t x = Ok c -> hash_all (values c) = Ok tt.
Proof.
  intros H Hc. apply getitem_in in Hc as [Hc _].
  unfold hashable_frame in H. rewrite Forall_forall in H.
  by apply hash_all_forall, H.
Qed.

Lemma drop_duplicates_hashable t e :
  drop_duplicates t = Ok e -> hashable_frame t -> hashable_frame e.
Proof.
  intros H Ht. apply drop_duplicates_ok in H as [[_ ->] | [_ ->]];
    [exact Ht | by apply hashable_take_rows].
Qed.

Lemma explode_cell_hashable v u : u ∈ explode_cell v -> hashable u = true.
Proof.
  destruct v as [| s | z | l | l | l]; simpl; intros H;
    try (apply list_elem_of_singleton in H; by subst u);
    (destruct l as [| x l]; [apply list_elem_of_singleton in H; by subst u |]);
    apply list_elem_of_In, in_map_iff in H as (y & <- & _); reflexivity.
Qed.

Lemma exploded_hashable (vs : list value) :
  Forall (fun v => hashable v = true) (concat (map explode_cell vs)).
Proof.
  apply Forall_forall. intros u Hu.
  apply list_elem_of_In, in_concat in Hu as (l & Hl & Hu).
  apply in_map_iff in Hl as (v & <- & _).
  by apply (explode_cell_hashable v), list_elem_of_In.
Qed.

Lemma hashable_merge left right on lsuffix rsuffix m :
  merge left right on lsuffix rsuffix = Ok m ->
  hashable_frame left -> hashable_frame right -> hashable_frame m.
Proof.
  intros H Hl Hr.
  destruct (merge_ok _ _ _ _ _ _ H) as (lk & rk & Hlk & Hrk & _ & ->).
  unfold hashable_frame in *. simpl. rewrite Forall_forall in Hl, Hr.
  apply Forall_app. split; apply Forall_forall; intros c Hc;
    apply list_elem_of_In, in_map_iff in Hc as (c0 & <- & Hc0).
  - apply (hashable_take _ c0), Hl. by apply list_elem_of_In.
  - apply (hashable_take _ c0), Hr.
    apply filter_In in Hc0 as [Hc0 _]. by apply list_elem_of_In.
Qed.

Lemma select_returns cols keys :
  (forall k, k ∈ keys -> k ∈ map name cols) -> exists cs, select cols keys = Ok cs.
Proof.
  induction keys as [| k keys IH]; intros H; [by exists [] |].
  destruct IH as [cs Hcs]; [intros k' Hk'; apply H; by right |].
  simpl. destruct (List.filter _ cols) as [| c found] eqn:F.
  - exfalso. specialize (H k ltac:(left)).
    apply list_elem_of_In, in_map_iff in H as (c & Hn & Hc).
    assert (In c (List.filter (fun c => bool_decide (name c = k)) cols)) as Hin.
    { apply filter_In. split; [exact Hc | by apply bool_decide_eq_true]. }
    rewrite F in Hin. destruct Hin.
  - rewrite Hcs. simpl. eauto.
Qed.

Lemma maybe_coerce_same lk rk :
  dtype_of lk = dtype_of rk -> maybe_coerce_merge_keys lk rk = Ok tt.
Proof.
  intros H. unfold maybe_coerce_merge_keys.
  destruct (_ || _); [reflexivity |]. by rewrite bool_decide_eq_true_2.
Qed.

Lemma list_ascii_inj (a b : string) :
  list_ascii_of_string a = list_ascii_of_string b -> a = b.
Proof.
  intros H. rewrite <- (string_of_list_ascii_of_string a).
  rewrite <- (string_of_list_ascii_of_string b). by rewrite H.
Qed.

Lemma append_inj_l (a b s : string) : a +:+ s = b +:+ s -> a = b.
Proof.
  intros H. apply (f_equal list_ascii_of_string) in H.
  rewrite !list_ascii_of_string_app in H.
  apply app_inv_tail in H. by apply list_ascii_inj.
Qed.

(** Renaming keeps the labels apart when no renamed label is a label that
    was there before. *)
Lemma NoDup_map_renamer t suffix (ls : list string) :
  NoDup ls -> (forall a b, a ∈ t -> b ∈ ls -> a +:+ suffix <> b) ->
  NoDup (map (renamer t suffix) ls).
Proof.
  intros Hnd Hfree.
  apply (NoDup_fmap_2_strong (renamer t suffix)); [| exact Hnd].
  intros x y Hx Hy. unfold renamer.
  destruct (bool_decide (x ∈ t)) eqn:Tx, (bool_decide (y ∈ t)) eqn:Ty;
    intros Heq.
  - by apply append_inj_l in Heq.
  - apply bool_decide_eq_true in Tx. by apply Hfree in Heq.
  - apply bool_decide_eq_true in Ty. symmetry in Heq. by apply Hfree in Heq.
  - exact Heq.
Qed.

Lemma duplicated_false seen (l : list string) :
  NoDup l -> (forall x, x ∈ l -> x ∉ seen) ->
  Forall (fun b => b = false) (duplicated seen l).
Proof.
  revert seen. induction l as [| x l IH]; intros seen Hnd Hseen; [constructor |].
  apply NoDup_cons in Hnd as [Hx Hnd]. simpl. constructor.
  - apply bool_decide_eq_false, Hseen. left.
  - apply IH; [exact Hnd |]. intros y Hy Hin.
    apply elem_of_cons in Hin as [-> | Hin]; [done |].
    apply (Hseen y); [by right | exact Hin].
Qed.

Lemma duplicated_by_suffix_none (new old : list string) :
  NoDup new -> duplicated_by_suffix new old = [].
Proof.
  intros Hnd. unfold duplicated_by_suffix.
  rewrite filter_none; [reflexivity |].
  intros [x [b1 b2]] Hin. simpl.
  apply list_elem_of_In, in_combine_r, in_combine_l in Hin.
  pose proof (duplicated_false [] new Hnd (fun x _ => not_elem_of_nil x)) as Hall.
  rewrite Forall_forall in Hall.
  by rewrite (Hall b1 ltac:(by apply list_elem_of_In)).
Qed.

(** The labels of a merge with two suffixes that are not empty, when no
    suffixed label is a label of either side. *)
Lemma items_overlap_returns (left right : list string) lsuffix rsuffix :
  NoDup left -> NoDup right -> rsuffix <> EmptyString ->
  (forall a b, a ∈ shared left right -> b ∈ left ++ right -> a +:+ lsuffix <> b) ->
  (forall a b, a ∈ shared left right -> b ∈ left ++ right -> a +:+ rsuffix <> b) ->
  items_overlap_with_suffix left right lsuffix rsuffix
  = Ok (map (renamer (shared left right) lsuffix) left,
        map (renamer (shared left right) rsuffix) right).
Proof.
  intros Hl Hr Hrs Hfl Hfr. unfold items_overlap_with_suffix.
  fold (shared left right).
  destruct (shared left right) as [| t0 t] eqn:T.
  { by rewrite !map_renamer_nil. }
  rewrite <- T in *.
  rewrite (bool_decide_eq_false_2 (rsuffix = EmptyString)) by exact Hrs.
  rewrite andb_false_r.
  rewrite (duplicated_by_suffix_none _ left).
  2:{ apply NoDup_map_renamer; [exact Hl |].
      intros a b Ha Hb. apply Hfl; [exact Ha |]. apply elem_of_app. by left. }
  rewrite (duplicated_by_suffix_none _ right).
  2:{ apply NoDup_map_renamer; [exact Hr |].
      intros a b Ha Hb. apply Hfr; [exact Ha |]. apply elem_of_app. by right. }
  rewrite (filter_none _ (map (renamer (shared left right) lsuffix) left)).
  2:{ intros x Hx. apply bool_decide_eq_false. intros Hin.
      apply elem_of_difference in Hin as [Hin Hnot].
      apply elem_of_map_renamer in Hx as [(a & Ha & Hat & ->) | [Hx _]].
      - apply (Hfl a (a +:+ lsuffix) Hat); [| reflexivity].
        apply elem_of_app. by right.
      - apply Hnot, elem_of_shared. by split. }
  rewrite (filter_none _ (map (renamer (shared left right) rsuffix) right)).
  2:{ intros x Hx. apply bool_decide_eq_false. intros Hin.
      apply elem_of_difference in Hin as [Hin Hnot].
      apply elem_of_map_renamer in Hx as [(a & Ha & Hat & ->) | [Hx _]].
      - apply (Hfr a (a +:+ rsuffix) Hat); [| reflexivity].
        apply elem_of_app. by left.
      - apply Hnot, elem_of_shared. by split. }
  reflexivity.
Qed.

(** [explode] on a column of type [object]. *)
Lemma explode_object df column c :
  NoDup (labels df) -> getitem df column = Ok c -> dtype_of c = object ->
  explode df column
  = Ok (mkFrame (length (explode_positions 0 (values c)))
          (map (fun c' =>
                  if bool_decide (name c' = column)
                  then mkSeries (name c) object (concat (map explode_cell (values c)))
                  else take (explode_positions 0 (values c)) c')
               (columns df))).
Proof.
  intros Hnd Hc Hdt. unfold explode.
  rewrite bool_decide_eq_true_2 by exact Hnd. simpl.
  rewrite Hc. simpl. by rewrite Hdt.
Qed.

Lemma explode_hashable df column c e :
  explode df column = Ok e -> NoDup (labels df) ->
  getitem df column = Ok c -> dtype_of c = object ->
  hashable_frame (without df column) -> hashable_frame e.
Proof.
  intros H Hnd Hc Hdt Hh. rewrite (explode_object _ _ _ Hnd Hc Hdt) in H.
  injection H as <-. unfold hashable_frame in *. simpl.
  rewrite Forall_forall in Hh.
  apply Forall_forall. intros c' Hc'.
  apply list_elem_of_In, in_map_iff in Hc' as (c0 & <- & Hc0).
  destruct (bool_decide (name c0 = column)) eqn:Hn.
  - apply exploded_hashable.
  - apply bool_decide_eq_false in Hn.
    apply hashable_take, Hh, elem_of_without. split; [by apply list_elem_of_In | exact Hn].
Qed.

Lemma explode_dtype df column c e ecol :
  explode df column = Ok e -> NoDup (labels df) ->
  getitem df column = Ok c -> dtype_of c = object ->
  getitem e column = Ok ecol -> dtype_of ecol = object.
Proof.
  intros H Hnd Hc Hdt Hecol. rewrite (explode_object _ _ _ Hnd Hc Hdt) in H.
  injection H as <-. apply getitem_in in Hecol as [Hin Hname].
  simpl in Hin. apply list_elem_of_In, in_map_iff in Hin as (c0 & Heq & _).
  destruct (bool_decide (name c0 = column)) eqn:Hn.
  - by subst ecol.
  - apply bool_decide_eq_false in Hn. subst ecol. simpl in Hname. congruence.
Qed.

Lemma bind_ret {A B} (a : A) (k : A -> M B) h : bind (ret a) k h = k a h.
Proof. reflexivity. Qed.

(** The statements of [split_many_to_many] in turn, on an input that
    passes the validation and for which every later step returns. *)
Lemma many_to_many_run df left_col right_col sep h d rcol c left right junction :
  h !! df = Some (PyDataFrame d) -> accepted_mm d left_col right_col ->
  getitem d right_col = Ok rcol -> normalised sep rcol = Ok c ->
  many_to_many_steps (match sep with Some _ => setitem d right_col c | None => d end)
    left_col right_col left right junction ->
  split_many_to_many df left_col right_col sep h = (h, Ok (left, right, junction)).
Proof.
  intros Hd (lcol & rcol0 & n & He & Hn & Hl & Hln & Hr0 & Hrn & Hnu & Hnn) Hr Hc
         Hsteps.
  rewrite Hr in Hr0. injection Hr0 as <-.
  pose proof (getitem_has_column _ _ _ Hl) as Hhl.
  pose proof (getitem_has_column _ _ _ Hr) as Hhr.
  unfold split_many_to_many. cbv zeta.
  rewrite bind_load, Hd, bind_raise_if, He, bind_raise_if.
  rewrite (proj2 (Nat.ltb_ge _ _) Hn).
  rewrite bind_raise_if, Hhl. cbn [negb].
  rewrite bind_raise_if, Hhr. cbn [negb].
  rewrite bind_lift, Hl, bind_raise_if, Hln.
  rewrite bind_lift, Hr, bind_raise_if, Hrn.
  rewrite bind_lift, Hnu, bind_raise_if.
  rewrite (proj2 (Nat.eqb_neq _ _) Hnn).
  assert (forall B (k : DataFrame -> M B),
            bind (match sep with
                  | Some s => bind (lift (apply rcol (split_and_strip s)))
                                (fun new => ret (setitem d right_col new))
                  | None => ret d
                  end) k h
            = k (match sep with Some _ => setitem d right_col c | None => d end) h)
    as Hstep1.
  { intros B k. destruct sep as [s|]; simpl in Hc.
    - by rewrite bind_bind, bind_lift, Hc.
    - by injection Hc as <-. }
  rewrite Hstep1. clear Hstep1.
  destruct Hsteps.
  rewrite bind_lift, Hexplode.
  rewrite bind_lift, Hselect_left. cbn [res_bind]. rewrite Hleft.
  rewrite bind_lift, Hselect_right. cbn [res_bind]. rewrite Hdistinct.
  rewrite bind_lift, Hastype, bind_lift, Hgetitem.
  rewrite <- Hright.
  rewrite bind_lift, Hmerge1. cbn [res_bind]. rewrite Hmerge2. cbn [res_bind].
  rewrite Hproject. cbn [res_bind]. rewrite Hdedup. cbn [res_bind].
  by rewrite <- Hjunction.
Qed.

(** A label of the first merge is [id], the right column, or carries a
    suffix. *)
Lemma first_merge_labels right_col exploded left m1 x :
  labels left
  = List.filter (fun y => negb (bool_decide (y = right_col))) (labels exploded) ->
  merge exploded left "id" "_x" "_y" = Ok m1 ->
  x ∈ labels m1 ->
  x = "id" \/ x = right_col
  \/ (exists a, x = a +:+ "_x") \/ (exists a, x = a +:+ "_y").
Proof.
  intros Hll Hm Hx.
  apply merge_labels in Hm as (ll & rl & Hnew & Hm). rewrite Hm in Hx.
  apply items_overlap_ok in Hnew as (-> & -> & _).
  rewrite names_right_columns, Hll in Hx.
  set (others := List.filter _ (List.filter _ (labels exploded))) in Hx.
  assert (forall y, y ∈ labels exploded -> y ∉ others -> y = "id" \/ y = right_col)
    as Hcase.
  { intros y Hy Hny.
    destruct (decide (y = right_col)) as [-> | H1]; [by right |].
    destruct (decide (y = "id")) as [-> | H2]; [by left |].
    exfalso. apply Hny. unfold others.
    apply list_elem_of_In, filter_In. split.
    - apply filter_In. split; [by apply list_elem_of_In |].
      by rewrite bool_decide_eq_false_2.
    - by rewrite bool_decide_eq_false_2. }
  assert (forall y, y ∈ others -> y ∈ labels exploded) as Hsub.
  { intros y Hy. unfold others in Hy.
    apply list_elem_of_In, filter_In in Hy as [Hy _].
    apply filter_In in Hy as [Hy _]. by apply list_elem_of_In. }
  apply elem_of_app in Hx as [Hx | Hx];
    apply elem_of_map_renamer in Hx as [(a & _ & _ & ->) | [Hx Hnt]]; eauto.
  - destruct (Hcase x Hx) as [-> | ->]; auto.
    intros Hin. apply Hnt. apply elem_of_shared. split; [exact Hx | exact Hin].
  - exfalso. apply Hnt. apply elem_of_shared. split; [by apply Hsub | exact Hx].
Qed.

Lemma entity_right_columns key cells :
  key <> "id" ->
  getitem (entity key cells) key
  = Ok (mkSeries key string_dtype (map key_text (distinct [] cells)))
  /\ right_columns (entity key cells) key
     = [mkSeries "id" int64 (ids (length (distinct [] cells)))]
  /\ labels (entity key cells) = [key; "id"]
  /\ hashable_frame (entity key cells).
Proof.
  intros Hk. unfold entity. cbv zeta. split; [| split; [| split]].
  - unfold getitem. simpl. by rewrite bool_decide_eq_true_2.
  - unfold right_columns. simpl.
    rewrite bool_decide_eq_true_2 by reflexivity.
    by rewrite bool_decide_eq_false_2 by congruence.
  - reflexivity.
  - unfold hashable_frame. simpl. repeat constructor.
    + apply Forall_forall. intros v Hv.
      apply list_elem_of_In, in_map_iff in Hv as (w & <- & _).
      unfold key_text. by destruct (isnull w).
    + apply Forall_forall. intros v Hv. unfold ids in Hv.
      by apply list_elem_of_In, in_map_iff in Hv as (i & <- & _).
Qed.

Section ManyToManyReturns.

Context {d : DataFrame} {right_col : string} {sep : option string}
        {idc rcol c : Series}.
Hypothesis Hnd : NoDup (labels d).
Hypothesis Hal : aligned d.
Hypothesis Hrows : 2 <= nrows d.
Hypothesis Hidc : getitem d "id" = Ok idc.
Hypothesis Hrcol : getitem d right_col = Ok rcol.
Hypothesis Hc : normalised sep rcol = Ok c.
Hypothesis Hdt : dtype_of c = object.
Hypothesis Hne : right_col ∉ ["id"; "id_left"; "id_right"].
Hypothesis Hsuf : suffix_free (labels d).
Hypothesis Hhash : hashable_frame (without d right_col).

Local Abbreviation d1 :=
  (match sep with Some _ => setitem d right_col c | None => d end).

(** Every step after the validation returns. *)
Lemma many_to_many_steps_exist :
  exists left junction,
    many_to_many_steps d1 "id" right_col left
      (entity right_col (exploded_cells c)) junction
    /\ drop_duplicates (without d right_col) = Ok left.
Proof.
  assert (right_col <> "id") as Hne1 by (intros ->; apply Hne; left).
  assert (right_col <> "id_left") as Hne2 by (intros ->; apply Hne; right; left).
  assert (right_col <> "id_right") as Hne3
    by (intros ->; apply Hne; right; right; left).
  assert ("id" <> right_col) as Hne1' by congruence.
  pose proof (getitem_has_column _ _ _ Hrcol) as Hhas.
  destruct (aligned_normalised _ _ _ _ _ Hal Hrcol Hc) as (Hal1 & _).
  assert (labels d1 = labels d) as Hl1.
  { destruct sep; [by rewrite labels_setitem, Hhas | reflexivity]. }
  assert (nrows d1 = nrows d) as Hn1.
  { destruct sep; [apply nrows_setitem | reflexivity]. }
  assert (exists c1, getitem d1 right_col = Ok c1
                     /\ values c1 = values c /\ dtype_of c1 = object)
    as (c1 & Hc1 & Hv1 & Hdt1).
  { destruct sep as [s|].
    - eexists. split; [apply getitem_setitem_eq |]. by split.
    - injection Hc as <-. by exists rcol. }
  assert (getitem d1 "id" = Ok idc) as Hid1.
  { destruct sep; [| exact Hidc]. by rewrite getitem_setitem_ne. }
  assert (without d1 right_col = without d right_col) as Hw.
  { destruct sep; [by apply without_setitem | reflexivity]. }
  assert (NoDup (labels d1)) as Hnd1 by (by rewrite Hl1).
  assert (exploded_cells c1 = exploded_cells c) as Hcells.
  { unfold exploded_cells. by rewrite Hdt1, Hdt, Hv1. }
  (* explode *)
  pose proof (explode_object d1 right_col c1 Hnd1 Hc1 Hdt1) as Hexp.
  set (exploded := mkFrame _ _) in Hexp.
  pose proof (explode_ok _ _ _ Hexp) as (_ & Hle & _).
  assert (hashable_frame exploded) as Hhe.
  { apply (explode_hashable _ _ _ _ Hexp Hnd1 Hc1 Hdt1). by rewrite Hw. }
  destruct (explode_column _ _ _ _ Hexp Hal1 Hc1) as (ecol & Hecol & Hve & _).
  pose proof (explode_dtype _ _ _ _ _ Hexp Hnd1 Hc1 Hdt1 Hecol) as Hdte.
  pose proof (explode_other_column _ _ _ _ _ _ Hexp Hc1 Hdt1 Hne1' Hid1) as Heid.
  pose proof (getitem_in _ _ _ Hecol) as [Hecol_in Hecol_name].
  assert (NoDup (labels exploded)) as Hnde by (by rewrite Hle).
  (* the left table *)
  assert (getitem_list d1
            (List.filter (fun x => negb (bool_decide (x = right_col))) (labels d1))
          = Ok (without d1 right_col)) as Hsel_left.
  { unfold getitem_list, labels. by rewrite (select_all_but _ _ Hnd1). }
  destruct (drop_duplicates_returns (without d right_col)) as [left Hleft].
  { by apply hashable_frame_hash. }
  pose proof (drop_duplicates_hashable _ _ Hleft Hhash) as Hhl.
  pose proof (drop_duplicates_labels _ _ Hleft) as Hll.
  rewrite labels_without, <- Hl1, <- Hle in Hll.
  assert (exists lid, getitem left "id" = Ok lid /\ dtype_of lid = dtype_of idc)
    as (lid & Hlid & Hdtl).
  { pose proof (getitem_without d right_col "id" Hne1') as Hg. rewrite Hidc in Hg.
    pose proof Hleft as Hleft'.
    apply drop_duplicates_ok in Hleft' as [[_ ->] | [_ ->]]; [eauto |].
    rewrite getitem_take_rows, Hg. eauto. }
  (* the right table *)
  pose proof (getitem_select _ _ _ Hnde Hecol) as Hsel_right.
  destruct (drop_duplicates_returns (mkFrame (nrows exploded) [ecol])) as [r0 Hr0].
  { simpl. rewrite app_nil_r. apply hash_all_forall.
    rewrite Hve. unfold exploded_cells. rewrite Hdt1. apply exploded_hashable. }
  assert (labels r0 = [right_col]) as Hl0.
  { rewrite (drop_duplicates_labels _ _ Hr0). unfold labels. simpl.
    by rewrite Hecol_name. }
  assert (right_col ∈ labels (setitem r0 "id" (index_plus_1 r0))) as Hin0.
  { rewrite labels_setitem, Hl0.
    destruct (has_column "id" r0); [left | apply elem_of_app; left; left]. }
  assert (exists r1, astype (setitem r0 "id" (index_plus_1 r0)) right_col = Ok r1)
    as [r1 Hr1].
  { unfold astype, has_column. rewrite bool_decide_eq_true_2 by exact Hin0. eauto. }
  destruct (astype_ok _ _ _ Hr1) as (_ & _ & Hlr1 & _).
  assert (exists rvals, getitem r1 right_col = Ok rvals) as [rvals Hrvals].
  { apply has_column_getitem, bool_decide_eq_true. by rewrite Hlr1. }
  assert (2 <= nrows d1) as Hrows1 by lia.
  pose proof (right_chain_entity d1 right_col c1 exploded _ r0 r1 rvals
                Hal1 Hrows1 Hne1 Hc1 Hexp Hsel_right Hr0 Hr1 Hrvals) as Hright.
  rewrite Hcells in Hright.
  set (right := entity right_col (exploded_cells c)) in *.
  destruct (entity_right_columns right_col (exploded_cells c) Hne1)
    as (Hrk & Hrcols & Hlr & Hhr).
  fold right in Hrk, Hrcols, Hlr, Hhr.
  (* the first merge *)
  assert (forall b,
            b ∈ labels exploded ++ map name (right_columns left "id") ->
            b ∈ labels d) as Hsub1.
  { intros b Hb. apply elem_of_app in Hb as [Hb | Hb].
    - by rewrite <- Hl1, <- Hle.
    - rewrite names_right_columns, Hll in Hb.
      apply elem_of_filter_ne in Hb as [Hb _].
      apply elem_of_filter_ne in Hb as [Hb _]. by rewrite <- Hl1, <- Hle. }
  pose proof (items_overlap_returns (labels exploded)
                (map name (right_columns left "id")) "_x" "_y") as Hnew1.
  assert (exists m1, merge exploded left "id" "_x" "_y" = Ok m1) as [m1 Hm1].
  { eapply merge_returns; [exact Heid | exact Hlid | | | |].
    { apply maybe_coerce_same. simpl. by rewrite Hdtl. }
    { by apply (hashable_getitem _ _ _ Hhe Heid). }
    { by apply (hashable_getitem _ _ _ Hhl Hlid). }
    apply Hnew1.
    - exact Hnde.
    - rewrite names_right_columns. apply NoDup_filter_bool.
      rewrite Hll. by apply NoDup_filter_bool.
    - discriminate.
    - intros a b Ha Hb. apply elem_of_shared in Ha as [Ha _].
      apply (Hsuf a b); [by rewrite <- Hl1, <- Hle | by apply Hsub1].
    - intros a b Ha Hb. apply elem_of_shared in Ha as [Ha _].
      apply (Hsuf a b); [by rewrite <- Hl1, <- Hle | by apply Hsub1]. }
  clear Hnew1.
  pose proof (hashable_merge _ _ _ _ _ _ Hm1 Hhe Hhl) as Hh1.
  assert (NoDup (labels m1)) as Hndm1.
  { eapply merge_NoDup; [exact Hnde | | apply suffix_x_y | exact Hm1].
    rewrite Hll. by apply NoDup_filter_bool. }
  pose proof (fun x => first_merge_labels right_col exploded left m1 x Hll Hm1)
    as Hcases.
  assert (forall k, k = "id" \/ k = right_col ->
            renamer (shared (labels exploded) (map name (right_columns left "id")))
                    "_x" k = k) as Hkeep.
  { intros k Hk. unfold renamer. rewrite bool_decide_eq_false_2; [reflexivity |].
    intros Hin. apply elem_of_shared in Hin as [_ Hin].
    rewrite names_right_columns, Hll in Hin.
    apply elem_of_filter_ne in Hin as [Hin Hk1].
    apply elem_of_filter_ne in Hin as [_ Hk2].
    destruct Hk; congruence. }
  pose proof (getitem_in _ _ _ Heid) as [Heid_in Heid_name].
  pose proof (merge_left_column Hm1 Heid Hlid _ Heid_in) as Hcol_id.
  rewrite Heid_name, Hkeep in Hcol_id by (by left).
  pose proof (merge_left_column Hm1 Heid Hlid _ Hecol_in) as Hcol_r.
  rewrite Hecol_name, Hkeep in Hcol_r by (by right).
  assert ("id" ∈ labels m1) as Hid_m1.
  { apply list_elem_of_In, in_map_iff. eexists.
    split; [| apply list_elem_of_In, Hcol_id]. reflexivity. }
  apply (getitem_unique m1 _ Hndm1) in Hcol_r. simpl in Hcol_r.
  (* the second merge *)
  assert (map name (right_columns right right_col) = ["id"]) as Hrn
    by (by rewrite Hrcols).
  pose proof (items_overlap_returns (labels m1)
                (map name (right_columns right right_col)) "_left" "_right")
    as Hnew2.
  assert (forall sfx b, sfx = "_left" \/ sfx = "_right" ->
            b ∈ labels m1 ++ map name (right_columns right right_col) ->
            "id" +:+ sfx <> b) as Hfresh2.
  { intros sfx b Hs Hb Heq. rewrite Hrn in Hb.
    assert (b = "id" \/ b = right_col
            \/ (exists a, b = a +:+ "_x") \/ (exists a, b = a +:+ "_y")) as Hb'.
    { apply elem_of_app in Hb as [Hb | Hb]; [by apply Hcases |].
      apply list_elem_of_singleton in Hb. by left. }
    destruct Hs as [-> | ->];
      [ change ("id" +:+ "_left") with "id_left" in Heq
      | change ("id" +:+ "_right") with "id_right" in Heq ];
      destruct Hb' as [-> | [-> | [[a ->] | [a ->]]]];
      first [discriminate Heq | congruence | suffix_clash Heq]. }
  assert (exists m2, merge m1 right right_col "_left" "_right" = Ok m2)
    as [m2 Hm2].
  { eapply merge_returns; [exact Hcol_r | exact Hrk | | | |].
    { by apply maybe_coerce_object_string. }
    { by apply (hashable_getitem _ _ _ Hh1 Hcol_r). }
    { by apply (hashable_getitem _ _ _ Hhr Hrk). }
    apply Hnew2.
    - exact Hndm1.
    - rewrite Hrn. apply NoDup_singleton.
    - discriminate.
    - intros a b Ha Hb. apply elem_of_shared in Ha as [_ Ha].
      rewrite Hrn in Ha. apply list_elem_of_singleton in Ha. subst a.
      apply Hfresh2; [by left | exact Hb].
    - intros a b Ha Hb. apply elem_of_shared in Ha as [_ Ha].
      rewrite Hrn in Ha. apply list_elem_of_singleton in Ha. subst a.
      apply Hfresh2; [by right | exact Hb]. }
  clear Hnew2.
  pose proof (hashable_merge _ _ _ _ _ _ Hm2 Hh1 Hhr) as Hh2.
  (* the projection *)
  destruct (merge_labels _ _ _ _ _ _ Hm2) as (ll & rl & Hnew & Hl2).
  apply items_overlap_ok in Hnew as (-> & -> & _).
  rewrite Hrn in Hl2.
  assert ("id" ∈ shared (labels m1) ["id"]) as Hshared.
  { apply elem_of_shared. split; [exact Hid_m1 | left]. }
  destruct (select_returns (columns m2) ["id_left"; "id_right"]) as [cs Hcs].
  { intros k Hk. fold (labels m2). rewrite Hl2. apply elem_of_app.
    apply elem_of_cons in Hk as [-> | Hk].
    - left. apply list_elem_of_In, in_map_iff. exists "id". split.
      + unfold renamer. by rewrite bool_decide_eq_true_2.
      + by apply list_elem_of_In.
    - apply list_elem_of_singleton in Hk. subst k. right. simpl.
      unfold renamer. rewrite bool_decide_eq_true_2 by exact Hshared. left. }
  assert (getitem_list m2 ["id_left"; "id_right"] = Ok (mkFrame (nrows m2) cs))
    as Hproj.
  { unfold getitem_list. by rewrite Hcs. }
  destruct (drop_duplicates_returns (mkFrame (nrows m2) cs)) as [j Hj].
  { apply hashable_frame_hash. unfold hashable_frame in *. simpl.
    rewrite Forall_forall in Hh2. apply Forall_forall. intros col Hcol.
    apply Hh2. by apply (select_in _ _ _ _ Hcs). }
  exists left, (rename j [("id_right", right_col +:+ "_id"); ("id_left", "title_id")]).
  split; [| exact Hleft].
  rewrite <- Hw in Hleft.
  by econstructor.
Qed.


End ManyToManyReturns.

Lemma suffix_free_decide (ls : list string) :
  forallb (fun a =>
             forallb (fun b => negb (bool_decide (a +:+ "_x" = b))
                               && negb (bool_decide (a +:+ "_y" = b))) ls) ls
  = true ->
  suffix_free ls.
Proof.
  intros H a b Ha Hb. rewrite forallb_forall in H.
  apply list_elem_of_In, H in Ha. rewrite forallb_forall in Ha.
  apply list_elem_of_In, Ha, andb_true_iff in Hb as [H1 H2].
  apply negb_true_iff, bool_decide_eq_false in H1.
  apply negb_true_iff, bool_decide_eq_false in H2. by split.
Qed.

(* ===================================================================== *)
(** * A catalogue is normalised                                           *)
(* ===================================================================== *)

Lemma bind_alloc {B} d (k : loc -> M B) h :
  bind (alloc d) k h = k (fresh (dom h)) (<[fresh (dom h) := PyDataFrame d]> h).
Proof. reflexivity. Qed.

Lemma bind_returns {A B} (m : M A) (k : A -> M B) h h' a :
  m h = (h', Ok a) -> bind m k h = k a h'.
Proof. unfold bind. by intros ->. Qed.

Lemma nunique_all_null col n :
  isnull_all col = true -> nunique col = Ok n -> n = 0.
Proof.
  unfold isnull_all, nunique. intros Hnull H. res_inv H as u Hu.
  injection H as <-. clear Hu.
  induction (values col) as [| v l IH]; [reflexivity |].
  simpl in Hnull. apply andb_true_iff in Hnull as [Hv Hl].
  simpl. rewrite Hv. simpl. by apply IH.
Qed.

Lemma hashable_without d key : hashable_frame d -> hashable_frame (without d key).
Proof.
  unfold hashable_frame. rewrite !Forall_forall. intros H c Hc.
  apply elem_of_without in Hc as [Hc _]. by apply H.
Qed.

Lemma hashable_setitem d key s :
  hashable_frame d -> Forall (fun v => hashable v = true) (values s) ->
  hashable_frame (setitem d key s).
Proof.
  unfold hashable_frame, setitem. intros Hd Hs.
  destruct (has_column key d); simpl.
  - apply Forall_forall. intros c Hc.
    apply list_elem_of_In, in_map_iff in Hc as (c0 & <- & Hc0).
    destruct (bool_decide (name c0 = key)); [exact Hs |].
    rewrite Forall_forall in Hd. by apply Hd, list_elem_of_In.
  - apply Forall_app. split; [exact Hd |]. by constructor.
Qed.

Lemma hashable_ids n : Forall (fun v => hashable v = true) (ids n).
Proof.
  apply Forall_forall. intros v Hv. unfold ids in Hv.
  by apply list_elem_of_In, in_map_iff in Hv as (i & <- & _).
Qed.

Lemma suffix_free_subset (ls ls' : list string) :
  (forall x, x ∈ ls' -> x ∈ ls) -> suffix_free ls -> suffix_free ls'.
Proof. intros Hsub H a b Ha Hb. apply H; by apply Hsub. Qed.

(** Splitting at [", "] never raises on text, and leaves a column of type
    [object]. *)
Lemma map_res_split_text (vs : list value) :
  Forall (fun v => text_cell v = true) vs ->
  exists ws, map_res (split_and_strip ", ") vs = Ok ws
             /\ (vs <> [] -> forallb is_int ws = false).
Proof.
  induction 1 as [| v l Hv Hl (ws & IH & _)]; [by exists [] |].
  destruct v as [| s | z | ? | ? | ?]; try discriminate Hv; simpl; rewrite IH;
    eexists; (split; [reflexivity | reflexivity]).
Qed.

Lemma normalised_text col :
  Forall (fun v => text_cell v = true) (values col) -> values col <> [] ->
  exists c, normalised (Some ", ") col = Ok c /\ dtype_of c = object.
Proof.
  intros Htext Hne.
  destruct (map_res_split_text _ Htext) as (ws & Hws & Hint).
  unfold normalised, apply. rewrite Hws. eexists. split; [reflexivity |].
  simpl. by rewrite (Hint Hne).
Qed.

(** The table the first split is given. *)
Lemma keyed_stage csv :
  NoDup (labels csv) -> aligned csv -> hashable_frame csv ->
  stage_table csv (keyed csv) [] [].
Proof.
  intros Hnd Hal Hh. destruct (keyed_columns csv) as (Hn & Hid & Hsame).
  unfold stage_table. split_and!.
  - rewrite keyed_labels. apply with_id_NoDup. by apply NoDup_filter_bool.
  - by apply keyed_aligned.
  - exact Hn.
  - exact Hid.
  - unfold keyed. apply hashable_setitem; [by apply hashable_without |].
    rewrite index_plus_1_values. apply hashable_ids.
  - intros x Hx. apply elem_of_keyed in Hx as [Hx | ->]; auto.
  - intros x Hx. rewrite !not_elem_of_cons in Hx. destruct Hx as (H1 & H2 & _).
    by apply Hsame.
Qed.

(** A one-to-many split of the script returns, and hands on a table with
    the rows of the file. *)
Lemma fk_step csv d gone added key col n l h :
  stage_table csv d gone added -> 2 <= nrows csv ->
  key ∉ "show_id" :: "id" :: gone ++ added ->
  (forall x, x ∈ ["id_parent"; key +:+ "_id"] ->
             (x ∉ labels csv) /\ x <> "id" /\ x ∉ added) ->
  getitem csv key = Ok col -> dtype_of col = object -> clean_text col ->
  nunique col = Ok n -> 2 <= n -> n <> nrows csv ->
  h !! l = Some (PyDataFrame d) ->
  exists h' child,
    split_with_foreign_key l key h = (h', Ok (child, entity key (values col)))
    /\ stage_table csv child (key :: gone) ((key +:+ "_id") :: added).
Proof.
  intros (Hnd & Hal & Hn & Hid & Hh & Hfrom & Hsame) Hrows Hkey Hnew Hcol Hdt
         Hclean Hnu Hn2 Hnn Hl.
  assert (key <> "id") as Hkid.
  { intros ->. apply Hkey. right. left. }
  assert (getitem d key = Ok col) as Hcold by (by rewrite Hsame).
  assert (forall x, x ∈ ["id_parent"; key +:+ "_id"] -> x ∉ labels d) as Hfresh.
  { intros x Hx Hin. destruct (Hnew x Hx) as (H1 & H2 & H3).
    destruct (Hfrom x Hin) as [H | [H | H]]; done. }
  assert (has_column "id_parent" d = false) as Hfp.
  { apply bool_decide_eq_false, Hfresh. left. }
  assert (has_column "id" d = true) as Hhid by (by apply (getitem_has_column _ _ _ Hid)).
  pose proof (aligned_getitem _ _ _ Hal Hcold) as Hlen.
  assert (accepted d key) as Hacc.
  { exists col, n. split_and!; try done; try lia.
    - unfold empty. apply orb_false_iff. split; apply Nat.eqb_neq; [lia |].
      apply getitem_in in Hcold as [Hin _]. destruct (columns d); [| done].
      by apply elem_of_nil in Hin.
    - destruct (isnull_all col) eqn:Hnull; [| reflexivity].
      pose proof (nunique_all_null _ _ Hnull Hnu). lia.
    - destruct Hclean as [Htext _]. rewrite Forall_forall in Htext.
      destruct (values col) as [| v vs]; [reflexivity |]. simpl.
      specialize (Htext v ltac:(left)). by destruct v. }
  destruct (split_with_foreign_key_goes_through Hnd Hal Hkid Hfp Hcold l h Hl Hacc)
    as (child & parent & Hrun).
  destruct (split_with_foreign_key_returns Hnd Hal Hkid Hfp Hcold _ _ _ _ _ Hl Hrun)
    as [-> ->].
  eexists _, _. split; [exact Hrun |].
  destruct (child_table_text d key col Hal Hcold Hclean) as (fk & Hfk & Hhfk & ->).
  unfold foreign_key_label. rewrite Hhid.
  assert (forall x, x <> key -> x <> key +:+ "_id" ->
            getitem (mkFrame (nrows d)
                       (List.filter (fun c => negb (bool_decide (name c = key)))
                                    (columns d)
                        ++ [mkSeries (key +:+ "_id") int64 fk])) x
            = getitem d x) as Hget.
  { intros x Hx Hx'. unfold getitem. simpl.
    rewrite find_all_but; [reflexivity | exact Hx |].
    intros c Hc. apply list_elem_of_singleton in Hc. subst c. simpl. congruence. }
  assert (labels (mkFrame (nrows d)
                    (List.filter (fun c => negb (bool_decide (name c = key)))
                                 (columns d)
                     ++ [mkSeries (key +:+ "_id") int64 fk]))
          = List.filter (fun x => negb (bool_decide (x = key))) (labels d)
            ++ [key +:+ "_id"]) as Hlab.
  { unfold labels. simpl. rewrite map_app. simpl. f_equal.
    symmetry. apply (names_filter (fun x => negb (bool_decide (x = key)))). }
  unfold stage_table. split_and!.
  - rewrite Hlab. apply NoDup_snoc; [by apply NoDup_filter_bool |].
    intros Hin. apply elem_of_filter_ne in Hin as [Hin _].
    apply (Hfresh (key +:+ "_id")); [right; left | exact Hin].
  - unfold aligned. simpl. apply Forall_app. split.
    + unfold aligned in Hal. rewrite Forall_forall in Hal.
      apply Forall_forall. intros c Hc.
      apply list_elem_of_In, filter_In in Hc as [Hc _].
      by apply Hal, list_elem_of_In.
    + by constructor.
  - exact Hn.
  - rewrite Hget; [exact Hid | congruence |].
    intros Heq. destruct (Hnew (key +:+ "_id")) as (_ & H & _); [right; left |].
    congruence.
  - unfold hashable_frame. simpl. apply Forall_app. split.
    + unfold hashable_frame in Hh. rewrite Forall_forall in Hh.
      apply Forall_forall. intros c Hc.
      apply list_elem_of_In, filter_In in Hc as [Hc _].
      by apply Hh, list_elem_of_In.
    + by constructor.
  - intros x Hx. rewrite Hlab in Hx. apply elem_of_app in Hx as [Hx | Hx].
    + apply elem_of_filter_ne in Hx as [Hx _].
      destruct (Hfrom x Hx) as [H | [H | H]]; auto.
      right. right. by right.
    + apply list_elem_of_singleton in Hx. subst x. right. right. left.
  - intros x Hx.
    rewrite !not_elem_of_cons, not_elem_of_app, !not_elem_of_cons in Hx.
    destruct Hx as (H1 & H2 & (H3 & H4) & H5 & H6).
    rewrite Hget by congruence. apply Hsame.
    rewrite !not_elem_of_cons, not_elem_of_app. done.
Qed.

(** A many-to-many split of the script returns, and takes nothing but
    the right column from the table. *)
Lemma mm_step csv d gone added x col n l h :
  stage_table csv d gone added -> 2 <= nrows csv ->
  suffix_free ("id" :: added ++ labels csv) ->
  x ∉ ["id"; "id_left"; "id_right"] ->
  x ∉ "show_id" :: "id" :: gone ++ added ->
  getitem csv x = Ok col ->
  Forall (fun v => text_cell v = true) (values col) ->
  isnull_all col = false -> nunique col = Ok n -> n <> nrows csv ->
  h !! l = Some (PyDataFrame d) ->
  exists junction,
    split_many_to_many l "id" x (Some ", ") h
    = (h, Ok (without d x, entity x (split_cells csv x), junction))
    /\ stage_table csv (without d x) (x :: gone) added.
Proof.
  intros (Hnd & Hal & Hn & Hid & Hh & Hfrom & Hsame) Hrows Hsuf Hx Hxs Hcol Htext
         Hnull Hnu Hnn Hl.
  assert (x <> "id") as Hxid by (intros ->; apply Hx; left).
  assert (getitem d x = Ok col) as Hcold by (by rewrite Hsame).
  pose proof (aligned_getitem _ _ _ Hal Hcold) as Hlen.
  destruct (normalised_text col Htext) as (c & Hc & Hdt).
  { intros Hnil. rewrite Hnil in Hlen. simpl in Hlen. lia. }
  assert (suffix_free (labels d)) as Hsufd.
  { apply (suffix_free_subset ("id" :: added ++ labels csv)); [| exact Hsuf].
    intros y Hy. destruct (Hfrom y Hy) as [H | [-> | H]].
    - right. apply elem_of_app. by right.
    - left.
    - right. apply elem_of_app. by left. }
  pose proof (hashable_without d x Hh) as Hhw.
  assert (2 <= nrows d) as Hrowsd by lia.
  destruct (many_to_many_steps_exist (sep := Some ", ")
              Hnd Hal Hrowsd Hid Hcold Hc Hdt Hx Hsufd Hhw)
    as (left & junction & Hsteps & Hleft).
  assert (left = without d x) as ->.
  { apply (drop_duplicates_unique _ _ (mkSeries "id" int64 (ids (nrows csv))) Hleft).
    - by apply aligned_without.
    - apply elem_of_without. apply getitem_in in Hid as [Hin Hname].
      split; [exact Hin | congruence].
    - simpl. apply NoDup_ids. }
  assert (accepted_mm d "id" x) as Hacc.
  { eexists _, col, n. split_and!; try done; try lia.
    - unfold empty. apply orb_false_iff. split; apply Nat.eqb_neq; [lia |].
      apply getitem_in in Hcold as [Hin _]. destruct (columns d); [| done].
      by apply elem_of_nil in Hin.
    - unfold isnull_all. simpl. destruct (nrows csv) as [| k]; [lia |].
      reflexivity. }
  exists junction. split.
  - replace (split_cells csv x) with (exploded_cells c).
    + by apply (many_to_many_run l "id" x (Some ", ") h d col c).
    + unfold split_cells. by rewrite Hcol, Hc.
  - unfold stage_table. split_and!.
    + rewrite labels_without. by apply NoDup_filter_bool.
    + by apply aligned_without.
    + exact Hn.
    + by rewrite getitem_without.
    + exact Hhw.
    + intros y Hy. rewrite labels_without in Hy.
      apply elem_of_filter_ne in Hy as [Hy _]. by apply Hfrom.
    + intros y Hy.
      rewrite !not_elem_of_cons, not_elem_of_app, !not_elem_of_cons in Hy.
      destruct Hy as (H1 & H2 & (H3 & H4) & H5).
      rewrite getitem_without by congruence. apply Hsame.
      rewrite !not_elem_of_cons, not_elem_of_app. done.
Qed.

Ltac not_listed :=
  let H := fresh in
  intros H;
  repeat (apply elem_of_cons in H as [H | H]; [discriminate H |]);
  by apply elem_of_nil in H.

(** The script normalises every catalogue.  On a file with unique labels
    and aligned, hashable columns, with a [show_id] column, at least two
    rows and none of the labels the splits add, whose [type] and [rating]
    columns are clean text with at least two values and a repeated one,
    and whose [country], [director], [cast] and [listed_in] columns are
    text, not all null, with a repeated value, none of the six splits
    raises; the type and the rating table are the entity tables of the
    cells of their columns, and the other four entity tables those of
    the cells split at [", "]. *)
Theorem normalize_total csv h :
  catalogue csv ->
  exists h' t,
    normalize csv h = (h', Ok t)
    /\ type_df t = entity "type" (cells csv "type")
    /\ rating_df t = entity "rating" (cells csv "rating")
    /\ country_df t = entity "country" (split_cells csv "country")
    /\ director_df t = entity "director" (split_cells csv "director")
    /\ actor_df t = entity "cast" (split_cells csv "cast")
    /\ listed_df t = entity "listed_in" (split_cells csv "listed_in").
Proof.
  intros (Hnd & Hal & Hrows & Hshow & Hfresh & Hsuf & Hhash
          & (tcol & n1 & Ht & Htdt & Htclean & Htnu & Htn2 & Htnn)
          & (rcol & n2 & Hr & Hrdt & Hrclean & Hrnu & Hrn2 & Hrnn) & Hmulti).
  rewrite !Forall_cons in Hmulti.
  destruct Hmulti
    as ((c1 & m1 & Hc1 & Hx1 & Hnull1 & Hnu1 & Hnn1)
        & (c2 & m2 & Hc2 & Hx2 & Hnull2 & Hnu2 & Hnn2)
        & (c3 & m3 & Hc3 & Hx3 & Hnull3 & Hnu3 & Hnn3)
        & (c4 & m4 & Hc4 & Hx4 & Hnull4 & Hnu4 & Hnn4) & _).
  assert (forall x, x ∈ ["id_parent"; "type_id"; "rating_id"] -> x ∉ labels csv)
    as Hfresh' by exact Hfresh.
  assert (suffix_free ("id" :: ["rating_id"; "type_id"] ++ labels csv)) as Hsuf'.
  { apply (suffix_free_subset ("id" :: "type_id" :: "rating_id" :: labels csv));
      [| exact Hsuf].
    intros x Hx. simpl in Hx. rewrite !elem_of_cons in Hx. rewrite !elem_of_cons.
    tauto. }
  unfold normalize.
  rewrite bind_lift. unfold drop. rewrite Hshow.
  fold (without csv "show_id"). fold (keyed csv).
  (* type *)
  rewrite bind_alloc.
  pose proof (keyed_stage csv Hnd Hal Hhash) as S0.
  destruct (fk_step csv (keyed csv) [] [] "type" tcol n1 (fresh (dom h))
              (<[fresh (dom h) := PyDataFrame (keyed csv)]> h) S0 Hrows)
    as (h1 & child1 & Hrun1 & S1); try done.
  { not_listed. }
  { intros x Hx. split_and!.
    - apply Hfresh. rewrite !elem_of_cons in Hx. rewrite !elem_of_cons.
      change ("type" +:+ "_id") with "type_id" in Hx. tauto.
    - intros ->. revert Hx. not_listed.
    - apply not_elem_of_nil. }
  { apply lookup_insert_eq. }
  rewrite (bind_returns _ _ _ _ _ Hrun1). cbv beta zeta. cbn [fst snd].
  (* rating *)
  rewrite bind_alloc.
  destruct (fk_step csv child1 ["type"] ["type" +:+ "_id"] "rating" rcol n2
              (fresh (dom h1)) (<[fresh (dom h1) := PyDataFrame child1]> h1) S1 Hrows)
    as (h2 & child2 & Hrun2 & S2); try done.
  { not_listed. }
  { intros x Hx. split_and!.
    - apply Hfresh. rewrite !elem_of_cons in Hx. rewrite !elem_of_cons.
      change ("rating" +:+ "_id") with "rating_id" in Hx. tauto.
    - intros ->. revert Hx. not_listed.
    - intros Hin. apply list_elem_of_singleton in Hin. subst x. revert Hx. not_listed. }
  { apply lookup_insert_eq. }
  rewrite (bind_returns _ _ _ _ _ Hrun2). cbv beta zeta. cbn [fst snd].
  (* country *)
  rewrite bind_alloc.
  destruct (mm_step csv child2 ["rating"; "type"] ["rating_id"; "type_id"]
              "country" c1 m1
              (fresh (dom h2)) (<[fresh (dom h2) := PyDataFrame child2]> h2) S2 Hrows)
    as (j1 & Hrun3 & S3); try done; try not_listed.
  { apply lookup_insert_eq. }
  rewrite (bind_returns _ _ _ _ _ Hrun3). cbv beta zeta. cbn [fst snd].
  (* director *)
  rewrite bind_alloc.
  match goal with
  | |- context [bind (split_many_to_many ?l _ _ _) _ ?hh] =>
      destruct (mm_step csv _ _ _ "director" c2 m2 l hh S3 Hrows)
        as (j2 & Hrun4 & S4); try done; try not_listed
  end.
  { apply lookup_insert_eq. }
  rewrite (bind_returns _ _ _ _ _ Hrun4). cbv beta zeta. cbn [fst snd].
  (* cast *)
  rewrite bind_alloc.
  match goal with
  | |- context [bind (split_many_to_many ?l _ _ _) _ ?hh] =>
      destruct (mm_step csv _ _ _ "cast" c3 m3 l hh S4 Hrows)
        as (j3 & Hrun5 & S5); try done; try not_listed
  end.
  { apply lookup_insert_eq. }
  rewrite (bind_returns _ _ _ _ _ Hrun5). cbv beta zeta. cbn [fst snd].
  (* listed_in *)
  rewrite bind_alloc.
  match goal with
  | |- context [bind (split_many_to_many ?l _ _ _) _ ?hh] =>
      destruct (mm_step csv _ _ _ "listed_in" c4 m4 l hh S5 Hrows)
        as (j4 & Hrun6 & S6); try done; try not_listed
  end.
  { apply lookup_insert_eq. }
  rewrite (bind_returns _ _ _ _ _ Hrun6). cbv beta zeta. cbn [fst snd].
  eexists _, _. split; [reflexivity |].
  cbn [type_df rating_df country_df director_df actor_df listed_df].
  unfold cells. rewrite Ht, Hr. done.
Qed.

Lemma normalize_total_netflix :
  exists h' t,
    normalize netflix ∅ = (h', Ok t)
    /\ type_df t = entity "type" (cells netflix "type")
    /\ rating_df t = entity "rating" (cells netflix "rating")
    /\ country_df t = entity "country" (split_cells netflix "country")
    /\ director_df t = entity "director" (split_cells netflix "director")
    /\ actor_df t = entity "cast" (split_cells netflix "cast")
    /\ listed_df t = entity "listed_in" (split_cells netflix "listed_in").
Proof.
  apply (normalize_total netflix ∅).
  assert (forall x col n,
            getitem netflix x = Ok col ->
            Forall (fun v => text_cell v = true) (values col) ->
            Unknown ∉ values col -> dtype_of col = object ->
            nunique col = Ok n -> 2 <= n -> n <> 4 ->
            categorical netflix x) as Hcat.
  { intros x col n Hcol Htext Hunknown Hdt Hnu Hn Hnn. exists col, n.
    split_and!; try done. split; [exact Htext | tauto]. }
  assert (forall x col n,
            getitem netflix x = Ok col ->
            Forall (fun v => text_cell v = true) (values col) ->
            isnull_all col = false -> nunique col = Ok n -> n <> 4 ->
            multivalued netflix x) as Hmulti.
  { intros x col n Hcol Htext Hnull Hnu Hnn. by exists col, n. }
  unfold catalogue. split_and!.
  - apply (bool_decide_unpack _). vm_compute. exact I.
  - repeat constructor.
  - simpl. lia.
  - vm_compute. reflexivity.
  - apply fresh_labels_decide. vm_compute. reflexivity.
  - apply suffix_free_decide. vm_compute. reflexivity.
  - unfold hashable_frame. simpl. repeat constructor.
  - eapply (Hcat "type" _ 2); [reflexivity | repeat constructor | not_listed
                              | reflexivity | reflexivity | lia | lia].
  - eapply (Hcat "rating" _ 2); [reflexivity | repeat constructor | not_listed
                                | reflexivity | reflexivity | lia | lia].
  - repeat apply Forall_cons_2; [| | | | apply Forall_nil_2].
    + eapply (Hmulti "country" _ 2);
        [reflexivity | repeat constructor | reflexivity | reflexivity | lia].
    + eapply (Hmulti "director" _ 2);
        [reflexivity | repeat constructor | reflexivity | reflexivity | lia].
    + eapply (Hmulti "cast" _ 3);
        [reflexivity | repeat constructor | reflexivity | reflexivity | lia].
    + eapply (Hmulti "listed_in" _ 2);
        [reflexivity | repeat constructor | reflexivity | reflexivity | lia].
Defined.
